(** * go-inventory-system: the authentication and inventory services

    A shallow embedding of [internal/service], [internal/repository],
    [internal/middleware], [internal/handlers], [internal/models] and
    [pkg/validator], together with the behaviour of the collaborators these
    packages call (the GORM/PostgreSQL store, golang-jwt v5, bcrypt, the
    wall clock), and the properties the specification states about them.

    Conventions.
    - A Go function returning [(T, error)] and touching the store, the clock
      or the entropy source is a computation [M T]: it takes the [World] and
      returns a [result T] with the new [World].  State changes survive an
      error, as they do in Go.
    - [int], [uint], [int64] are [Z]; where the code does arithmetic that can
      wrap, the wrap-around is written out.
    - [time.Time] is the number of nanoseconds since the Unix epoch.
    - [float64] is IEEE binary64 ([PrimFloat.float]) for prices; the numeric
      claims of a token, which are integers in every token this service
      signs, are carried by their integer value after rounding to binary64. *)

From Stdlib Require Import ZArith List String Ascii Bool Lia PrimFloat.
From Stdlib Require Floats.FloatAxioms Floats.SpecFloat.
Import ListNotations.

Local Open Scope string_scope.
Local Open Scope list_scope.
Local Open Scope Z_scope.

(** ** Go basics *)

Definition time_Nanosecond : Z := 1.
Definition time_Second : Z := 1000000000.
Definition time_Hour : Z := 3600 * time_Second.

(** The zero [time.Time] is January 1, year 1, 00:00 UTC. *)
Definition time_zero : Z := -62135596800 * time_Second.

(** Two's complement wrap-around of 64-bit signed arithmetic. *)
Definition wrap_int64 (z : Z) : Z := (z + 2 ^ 63) mod 2 ^ 64 - 2 ^ 63.

(** [t.Unix()], an [int64] *)
Definition time_Unix_of (t : Z) : Z := wrap_int64 (t / time_Second).

(** [time.Unix(sec, 0)] *)
Definition time_Unix (sec : Z) : Z := sec * time_Second.

(** [t.Before(u)] *)
Definition time_Before (t u : Z) : bool := t <? u.

Definition float64 := PrimFloat.float.

(** ** Errors *)

(** The sentinel errors of package [jwt]. *)
Inductive jwt_sentinel :=
| ErrTokenMalformed
| ErrTokenUnverifiable
| ErrTokenSignatureInvalid
| ErrTokenInvalidClaims
| ErrTokenExpired
| ErrTokenNotValidYet
| ErrInvalidType
| ErrInvalidKeyType
| ErrSignatureInvalid
| ErrHashUnavailable
| NoneSignatureTypeDisallowedError.

(** What a [jwt] error wraps: sentinels of the package, or the error the
    caller's key function returned. *)
Inductive jwt_cause :=
| jwt_Err (s : jwt_sentinel)
| keyfunc_Err (msg : string).

Inductive error :=
| errors_New (msg : string)
    (* errors.New(msg), fmt.Errorf(...) *)
| gorm_ErrRecordNotFound
| pg_unique_violation (constraint : string)
    (* SQLSTATE 23505, as GORM hands it on *)
| bcrypt_error (msg : string)
| jwt_newError (message : string) (err : jwt_sentinel) (more : list jwt_cause).
    (* jwt's joined error: a message, a sentinel and the wrapped causes *)

Inductive result (A : Type) :=
| Ok (a : A)
| Err (e : error).
Arguments Ok {A} a.
Arguments Err {A} e.

Definition is_Ok {A} (r : result A) : bool :=
  match r with Ok _ => true | Err _ => false end.

(** [errors.Is(err, target)] for a target that is a sentinel of GORM: no
    error here wraps another one of these. *)
Definition errors_Is (err target : error) : bool :=
  match err, target with
  | gorm_ErrRecordNotFound, gorm_ErrRecordNotFound => true
  | _, _ => false
  end.

(** ** Models ([internal/models]) *)

Module Item.
Record t := mk {
  ID : Z;
  Name : string;
  SKU : string;
  Description : string;
  Quantity : Z;
  Price : float64;
  Category : string;
  CreatedAt : Z;
  UpdatedAt : Z;
  DeletedAt : option Z       (* gorm.DeletedAt: NULL or the deletion time *)
}.
Definition with_ID (v : Z) (i : t) : t :=
  mk v (Name i) (SKU i) (Description i) (Quantity i) (Price i) (Category i)
     (CreatedAt i) (UpdatedAt i) (DeletedAt i).
Definition with_Name (v : string) (i : t) : t :=
  mk (ID i) v (SKU i) (Description i) (Quantity i) (Price i) (Category i)
     (CreatedAt i) (UpdatedAt i) (DeletedAt i).
Definition with_SKU (v : string) (i : t) : t :=
  mk (ID i) (Name i) v (Description i) (Quantity i) (Price i) (Category i)
     (CreatedAt i) (UpdatedAt i) (DeletedAt i).
Definition with_Description (v : string) (i : t) : t :=
  mk (ID i) (Name i) (SKU i) v (Quantity i) (Price i) (Category i)
     (CreatedAt i) (UpdatedAt i) (DeletedAt i).
Definition with_Quantity (v : Z) (i : t) : t :=
  mk (ID i) (Name i) (SKU i) (Description i) v (Price i) (Category i)
     (CreatedAt i) (UpdatedAt i) (DeletedAt i).
Definition with_Price (v : float64) (i : t) : t :=
  mk (ID i) (Name i) (SKU i) (Description i) (Quantity i) v (Category i)
     (CreatedAt i) (UpdatedAt i) (DeletedAt i).
Definition with_Category (v : string) (i : t) : t :=
  mk (ID i) (Name i) (SKU i) (Description i) (Quantity i) (Price i) v
     (CreatedAt i) (UpdatedAt i) (DeletedAt i).
Definition with_CreatedAt (v : Z) (i : t) : t :=
  mk (ID i) (Name i) (SKU i) (Description i) (Quantity i) (Price i) (Category i)
     v (UpdatedAt i) (DeletedAt i).
Definition with_UpdatedAt (v : Z) (i : t) : t :=
  mk (ID i) (Name i) (SKU i) (Description i) (Quantity i) (Price i) (Category i)
     (CreatedAt i) v (DeletedAt i).
Definition with_DeletedAt (v : option Z) (i : t) : t :=
  mk (ID i) (Name i) (SKU i) (Description i) (Quantity i) (Price i) (Category i)
     (CreatedAt i) (UpdatedAt i) v.
End Item.

Module CreateItemRequest.
Record t := mk {
  Name : string;          (* binding:"required,min=1,max=200" *)
  SKU : string;           (* binding:"required,min=1,max=100" *)
  Description : string;   (* binding:"max=1000" *)
  Quantity : Z;           (* binding:"non_negative" *)
  Price : float64;        (* binding:"non_negative" *)
  Category : string       (* binding:"max=100" *)
}.
End CreateItemRequest.

(** The fields are pointers in Go: [None] is the nil pointer, a field the
    request does not supply. *)
Module UpdateItemRequest.
Record t := mk {
  Name : option string;          (* binding:"omitempty,min=1,max=200" *)
  SKU : option string;           (* binding:"omitempty,min=1,max=100" *)
  Description : option string;   (* binding:"omitempty,max=1000" *)
  Quantity : option Z;           (* binding:"omitempty,non_negative" *)
  Price : option float64;        (* binding:"omitempty,non_negative" *)
  Category : option string       (* binding:"omitempty,max=100" *)
}.
End UpdateItemRequest.

Module User.
Record t := mk {
  ID : Z;
  Username : string;
  Email : string;
  Password : string;
  CreatedAt : Z;
  UpdatedAt : Z;
  DeletedAt : option Z
}.
Definition with_ID (v : Z) (u : t) : t :=
  mk v (Username u) (Email u) (Password u) (CreatedAt u) (UpdatedAt u) (DeletedAt u).
Definition with_CreatedAt (v : Z) (u : t) : t :=
  mk (ID u) (Username u) (Email u) (Password u) v (UpdatedAt u) (DeletedAt u).
Definition with_UpdatedAt (v : Z) (u : t) : t :=
  mk (ID u) (Username u) (Email u) (Password u) (CreatedAt u) v (DeletedAt u).
End User.

Module RegisterRequest.
Record t := mk {
  Username : string;
  Email : string;
  Password : string
}.
End RegisterRequest.

Module LoginRequest.
Record t := mk {
  Username : string;
  Password : string
}.
End LoginRequest.

(** ** JSON values and tokens (package [jwt], data) *)

(** A JSON value as it is written inside a token segment.  Number literals
    are integers here, as in every token this service signs. *)
Inductive json_text :=
| TInt (n : Z)
| TString (s : string)
| TBool (b : bool)
| TNull
| TComposite.               (* an array or an object *)

(** A Go value held in an [interface{}]: what [MapClaims] maps a key to.
    [GoFloat64 f] is the binary64 number whose value is the integer [f]. *)
Inductive go_value :=
| GoUint (n : Z)
| GoInt64 (n : Z)
| GoFloat64 (f : Z)
| GoString (s : string)
| GoBool (b : bool)
| GoNil
| GoComposite.

(** [jwt.MapClaims] and the token header: [map[string]interface{}].  The
    association list is read last-binding-first, the way [encoding/json]
    fills a map from an object with a repeated key. *)
Definition MapClaims := list (string * go_value).

Fixpoint map_get {V} (k : string) (m : list (string * V)) : option V :=
  match m with
  | [] => None
  | (k', v) :: m' =>
      match map_get k m' with
      | Some v' => Some v'
      | None => if String.eqb k k' then Some v else None
      end
  end.

(** A token string as the parser sees it.  [Segments h c s] is a string of
    three dot-separated segments of which the first two are base64url of
    JSON objects; [s] is the decoded third segment, or [None] when it is not
    base64url.  Every other string is [Malformed]. *)
Inductive tokenString :=
| Malformed (raw : string)
| Segments (header claims : list (string * json_text)) (signature : option string).

(** The hash functions behind the HMAC signing methods. *)
Inductive crypto_Hash := SHA256 | SHA384 | SHA512.

(** The signing methods package [jwt] registers. *)
Inductive SigningMethod :=
| SigningMethodHMAC (h : crypto_Hash)          (* HS256, HS384, HS512 *)
| SigningMethodRSA (h : crypto_Hash)           (* RS256, RS384, RS512 *)
| SigningMethodRSAPSS (h : crypto_Hash)        (* PS256, PS384, PS512 *)
| SigningMethodECDSA (h : crypto_Hash)         (* ES256, ES384, ES512 *)
| SigningMethodEd25519                         (* EdDSA *)
| SigningMethodNone.                           (* none *)

Definition SigningMethodHS256 := SigningMethodHMAC SHA256.
Definition SigningMethodHS384 := SigningMethodHMAC SHA384.
Definition SigningMethodHS512 := SigningMethodHMAC SHA512.

Module Token.
Record t := mk {
  Raw : tokenString;
  Method : SigningMethod;
  Header : MapClaims;
  Claims : MapClaims;
  Signature : string;
  Valid : bool
}.
Definition with_Signature (v : string) (k : t) : t :=
  mk (Raw k) (Method k) (Header k) (Claims k) v (Valid k).
Definition with_Valid (v : bool) (k : t) : t :=
  mk (Raw k) (Method k) (Header k) (Claims k) (Signature k) v.
End Token.

Module LoginResponse.
Record t := mk {
  Token : tokenString;
  User : User.t
}.
End LoginResponse.

(** What a response carries in its [data] field. *)
Inductive payload :=
| NoData
| ItemData (item : Item.t)
| ItemsData (items : list Item.t)
| UserData (user : User.t)
| LoginData (r : LoginResponse.t).

Module Response.
Record t := mk {
  status : Z;
  success : bool;
  message : string;
  data : payload
}.
End Response.

(** ** The platform

    What the services reach through libraries and the operating system and
    what this development does not look inside: readings of the wall clock,
    the entropy source, the bcrypt and HMAC primitives, the text of a token's
    signing input, the precision of the store's timestamps, and the results
    Go leaves implementation-dependent. *)

Class Platform := {
  (** the n-th reading of [time.Now()] *)
  wall_clock : nat -> Z;
  (** a [timestamptz] column keeps a time at the store's precision *)
  db_timestamp : Z -> Z;
  (** the n-th salt drawn from [crypto/rand] *)
  rand_salt : nat -> string;
  (** [bcrypt.GenerateFromPassword] on a password, a cost and a salt *)
  bcrypt_hash : string -> Z -> string -> result string;
  (** [bcrypt.CompareHashAndPassword hashedPassword password]; [None] is nil *)
  bcrypt_CompareHashAndPassword : string -> string -> option error;
  (** base64url(header) "." base64url(claims) *)
  signing_input : list (string * json_text) -> list (string * json_text) -> string;
  (** HMAC of a message under a key *)
  hmac_Sum : crypto_Hash -> string -> string -> string;
  (** [int64(f)] and [uint(f)] for a float64 outside the target's range *)
  int64_out_of_range : Z -> Z;
  uint_out_of_range : Z -> Z;
  (** the [email] tag of the request validator *)
  is_email : string -> bool
}.

(** ** The world *)

(** Calls to the collaborators, in the order they were made.  The services
    keep no such record: it is kept here, next to the state, so that a
    property can say which calls an operation made and in which order. *)
Inductive call :=
| UserRepository_FindByUsername (username : string)
| UserRepository_FindByEmail (email : string)
| UserRepository_Create (user : User.t)
| bcrypt_GenerateFromPassword_call (password : string)
| bcrypt_CompareHashAndPassword_call (hashedPassword password : string)
| InventoryRepository_Create (item : Item.t)
| InventoryRepository_FindAll
| InventoryRepository_FindByID (id : Z)
| InventoryRepository_FindBySKU (sku : string)
| InventoryRepository_Update (item : Item.t)
| InventoryRepository_Delete (id : Z).

Record World := mkWorld {
  users : list User.t;        (* table "users", every row *)
  users_id_seq : Z;           (* the last value of users.id's sequence *)
  items : list Item.t;        (* table "items", every row *)
  items_id_seq : Z;
  ticks : nat;                (* clock readings taken so far *)
  draws : nat;                (* salts drawn so far *)
  trace : list call
}.

Definition with_users (v : list User.t) (w : World) : World :=
  mkWorld v (users_id_seq w) (items w) (items_id_seq w) (ticks w) (draws w) (trace w).
Definition with_users_id_seq (v : Z) (w : World) : World :=
  mkWorld (users w) v (items w) (items_id_seq w) (ticks w) (draws w) (trace w).
Definition with_items (v : list Item.t) (w : World) : World :=
  mkWorld (users w) (users_id_seq w) v (items_id_seq w) (ticks w) (draws w) (trace w).
Definition with_items_id_seq (v : Z) (w : World) : World :=
  mkWorld (users w) (users_id_seq w) (items w) v (ticks w) (draws w) (trace w).
Definition with_ticks (v : nat) (w : World) : World :=
  mkWorld (users w) (users_id_seq w) (items w) (items_id_seq w) v (draws w) (trace w).
Definition with_draws (v : nat) (w : World) : World :=
  mkWorld (users w) (users_id_seq w) (items w) (items_id_seq w) (ticks w) v (trace w).
Definition with_trace (v : list call) (w : World) : World :=
  mkWorld (users w) (users_id_seq w) (items w) (items_id_seq w) (ticks w) (draws w) v.

(** A freshly migrated database, before any request. *)
Definition initial_world : World := mkWorld [] 0 [] 0 0%nat 0%nat [].

(** ** Computations *)

Definition M (A : Type) : Type := World -> result A * World.

Definition ret {A} (a : A) : M A := fun w => (Ok a, w).
Definition fail {A} (e : error) : M A := fun w => (Err e, w).
Definition bind {A B} (c : M A) (k : A -> M B) : M B :=
  fun w => match c w with
           | (Ok a, w') => k a w'
           | (Err e, w') => (Err e, w')
           end.
Definition lift {A} (r : result A) : M A := fun w => (r, w).
Definition gets {A} (f : World -> A) : M A := fun w => (Ok (f w), w).
Definition modify (f : World -> World) : M unit := fun w => (Ok tt, f w).

Notation "x <- c ;; k" := (bind c (fun x => k))
  (at level 61, c at next level, right associativity).
Notation "c ;;; k" := (bind c (fun _ => k))
  (at level 61, right associativity).

Section Services.
Context {P : Platform}.

(** [time.Now()] *)
Definition time_Now : M Z :=
  fun w => (Ok (wall_clock (ticks w)), with_ticks (S (ticks w)) w).

Definition log (c : call) : M unit :=
  modify (fun w => with_trace (trace w ++ [c]) w).

(** ** The store: GORM over PostgreSQL

    Both models carry [gorm.DeletedAt], so every query GORM builds for them
    has [deleted_at IS NULL] added, and [Delete] is an UPDATE of
    [deleted_at].  The unique indexes ([gorm:"uniqueIndex"], [UNIQUE] in the
    reference schema) and the primary keys range over every row, deleted or
    not. *)

(** [ORDER BY id LIMIT 1] *)
Fixpoint first_by_pk {R} (pk : R -> Z) (rows : list R) : option R :=
  match rows with
  | [] => None
  | r :: rs =>
      match first_by_pk pk rs with
      | Some r' => if pk r' <? pk r then Some r' else Some r
      | None => Some r
      end
  end.

Definition is_NULL (t : option Z) : bool :=
  match t with None => true | Some _ => false end.

(** *** Table "items" *)

Definition item_live (i : Item.t) : bool := is_NULL (Item.DeletedAt i).

(** The row the store keeps for a struct: times at the store's precision. *)
Definition item_row (i : Item.t) : Item.t :=
  Item.with_CreatedAt (db_timestamp (Item.CreatedAt i))
    (Item.with_UpdatedAt (db_timestamp (Item.UpdatedAt i))
       (Item.with_DeletedAt (option_map db_timestamp (Item.DeletedAt i)) i)).

(** The constraint an INSERT of [row] violates, if any. *)
Definition items_insert_violation (row : Item.t) (rows : list Item.t) : option string :=
  if existsb (fun r => Item.ID r =? Item.ID row) rows then Some "items_pkey"
  else if existsb (fun r => String.eqb (Item.SKU r) (Item.SKU row)) rows
       then Some "idx_items_sku"
  else None.

(** The constraint violated by rewriting the row whose key is [Item.ID row]. *)
Definition items_update_violation (row : Item.t) (rows : list Item.t) : option string :=
  if existsb (fun r => String.eqb (Item.SKU r) (Item.SKU row)
                       && negb (Item.ID r =? Item.ID row)) rows
  then Some "idx_items_sku"
  else None.

Definition items_replace (row : Item.t) (rows : list Item.t) : list Item.t :=
  map (fun r => if Item.ID r =? Item.ID row then row else r) rows.

(** [INSERT INTO items ...] *)
Definition items_INSERT (row : Item.t) : M unit :=
  rows <- gets items ;;
  match items_insert_violation row rows with
  | Some c => fail (pg_unique_violation c)
  | None => modify (with_items (rows ++ [row]))
  end.

(** [db.Create(item)]: the timestamps that are zero are set to now; a zero
    primary key is left to the column's sequence, which moves on whether or
    not the INSERT succeeds.  The struct comes back with its key. *)
Definition gorm_Create_Item (item : Item.t) : M Item.t :=
  now <- time_Now ;;
  let item := if Item.CreatedAt item =? time_zero
              then Item.with_CreatedAt now item else item in
  let item := if Item.UpdatedAt item =? time_zero
              then Item.with_UpdatedAt now item else item in
  item <- (if Item.ID item =? 0
           then seq <- gets items_id_seq ;;
                modify (with_items_id_seq (seq + 1)) ;;;
                ret (Item.with_ID (seq + 1) item)
           else ret item) ;;
  items_INSERT (item_row item) ;;;
  ret item.

(** [db.Find(&items)] *)
Definition gorm_Find_Items : M (list Item.t) :=
  rows <- gets items ;;
  ret (filter item_live rows).

(** [db.Where(cond).First(&item)] *)
Definition gorm_First_Item (cond : Item.t -> bool) : M Item.t :=
  rows <- gets items ;;
  match first_by_pk Item.ID (filter (fun r => item_live r && cond r) rows) with
  | Some item => ret item
  | None => fail gorm_ErrRecordNotFound
  end.

(** [db.Save(item)]: with a zero key it is [Create]; otherwise an UPDATE of
    every column of the live row with that key, [updated_at] set to now; and
    when that touches no row, an INSERT ... ON CONFLICT (id) DO UPDATE. *)
Definition gorm_Save_Item (item : Item.t) : M Item.t :=
  if Item.ID item =? 0 then gorm_Create_Item item
  else
    now <- time_Now ;;
    let item := Item.with_UpdatedAt now item in
    rows <- gets items ;;
    if existsb (fun r => item_live r && (Item.ID r =? Item.ID item)) rows
    then
      match items_update_violation (item_row item) rows with
      | Some c => fail (pg_unique_violation c)
      | None =>
          modify (with_items
                    (map (fun r => if item_live r && (Item.ID r =? Item.ID item)
                                   then item_row item else r) rows)) ;;;
          ret item
      end
    else
      _ <- time_Now ;;
      if existsb (fun r => Item.ID r =? Item.ID item) rows
      then
        match items_update_violation (item_row item) rows with
        | Some c => fail (pg_unique_violation c)
        | None => modify (with_items (items_replace (item_row item) rows)) ;;;
                  ret item
        end
      else items_INSERT (item_row item) ;;; ret item.

(** [db.Delete(&models.Item{}, id)]: the soft delete. *)
Definition gorm_Delete_Item (id : Z) : M unit :=
  now <- time_Now ;;
  rows <- gets items ;;
  modify (with_items
            (map (fun r => if item_live r && (Item.ID r =? id)
                           then Item.with_DeletedAt (Some (db_timestamp now)) r
                           else r) rows)).

(** ** [internal/repository/inventory_repository.go] *)

Definition inventoryRepository_Create (item : Item.t) : M Item.t :=
  log (InventoryRepository_Create item) ;;;
  gorm_Create_Item item.

Definition inventoryRepository_FindAll : M (list Item.t) :=
  log InventoryRepository_FindAll ;;;
  gorm_Find_Items.

(** FindByID finds an item by ID *)
Definition inventoryRepository_FindByID (id : Z) : M (option Item.t) :=
  log (InventoryRepository_FindByID id) ;;;
  fun w =>
    match gorm_First_Item (fun r => Item.ID r =? id) w with
    | (Err err, w') =>
        if errors_Is err gorm_ErrRecordNotFound then (Ok None, w')
        else (Err err, w')
    | (Ok item, w') => (Ok (Some item), w')
    end.

(** FindBySKU finds an item by SKU *)
Definition inventoryRepository_FindBySKU (sku : string) : M (option Item.t) :=
  log (InventoryRepository_FindBySKU sku) ;;;
  fun w =>
    match gorm_First_Item (fun r => String.eqb (Item.SKU r) sku) w with
    | (Err err, w') =>
        if errors_Is err gorm_ErrRecordNotFound then (Ok None, w')
        else (Err err, w')
    | (Ok item, w') => (Ok (Some item), w')
    end.

Definition inventoryRepository_Update (item : Item.t) : M Item.t :=
  log (InventoryRepository_Update item) ;;;
  gorm_Save_Item item.

Definition inventoryRepository_Delete (id : Z) : M unit :=
  log (InventoryRepository_Delete id) ;;;
  gorm_Delete_Item id.

(** ** [internal/service/inventory_service.go] *)

Definition CreateItem (req : CreateItemRequest.t) : M Item.t :=
  (* Check if SKU already exists *)
  existingItem <- inventoryRepository_FindBySKU (CreateItemRequest.SKU req) ;;
  match existingItem with
  | Some _ => fail (errors_New "item with this SKU already exists")
  | None =>
      (* Create item *)
      let item :=
        Item.mk 0
          (CreateItemRequest.Name req)
          (CreateItemRequest.SKU req)
          (CreateItemRequest.Description req)
          (CreateItemRequest.Quantity req)
          (CreateItemRequest.Price req)
          (CreateItemRequest.Category req)
          time_zero time_zero None in
      inventoryRepository_Create item
  end.

Definition GetAllItems : M (list Item.t) :=
  inventoryRepository_FindAll.

Definition GetItemByID (id : Z) : M Item.t :=
  item <- inventoryRepository_FindByID id ;;
  match item with
  | None => fail (errors_New "item not found")
  | Some item => ret item
  end.

(** [if req.F != nil { item.F = *req.F }] *)
Definition assign_if {A} (f : option A) (set : A -> Item.t -> Item.t) (item : Item.t) : Item.t :=
  match f with
  | Some v => set v item
  | None => item
  end.

Definition UpdateItem (id : Z) (req : UpdateItemRequest.t) : M Item.t :=
  (* Find existing item *)
  item <- inventoryRepository_FindByID id ;;
  match item with
  | None => fail (errors_New "item not found")
  | Some item =>
      (* Check if SKU is being updated and if it already exists *)
      item <- match UpdateItemRequest.SKU req with
              | Some sku =>
                  if negb (String.eqb sku (Item.SKU item))
                  then
                    existingItem <- inventoryRepository_FindBySKU sku ;;
                    match existingItem with
                    | Some _ =>
                        fail (errors_New
                                (String.append "item with SKU '"
                                   (String.append sku "' already exists")))
                    | None => ret (Item.with_SKU sku item)
                    end
                  else ret item
              | None => ret item
              end ;;
      (* Update fields if provided *)
      let item := assign_if (UpdateItemRequest.Name req) Item.with_Name item in
      let item := assign_if (UpdateItemRequest.Description req) Item.with_Description item in
      let item := assign_if (UpdateItemRequest.Quantity req) Item.with_Quantity item in
      let item := assign_if (UpdateItemRequest.Price req) Item.with_Price item in
      let item := assign_if (UpdateItemRequest.Category req) Item.with_Category item in
      (* Save updated item *)
      inventoryRepository_Update item
  end.

Definition DeleteItem (id : Z) : M unit :=
  (* Check if item exists *)
  item <- inventoryRepository_FindByID id ;;
  match item with
  | None => fail (errors_New "item not found")
  | Some _ => inventoryRepository_Delete id
  end.

(** ** [pkg/validator] and the binding rules of the request structs *)

(** The field a custom validation looks at, by the kind of its Go type. *)
Inductive field_value :=
| FieldInt (v : Z)              (* int, int8, int16, int32, int64 *)
| FieldUint (v : Z)             (* uint, uint8, uint16, uint32, uint64 *)
| FieldFloat (v : float64)      (* float32, float64 *)
| FieldOther.

Definition validatePositive (fl : field_value) : bool :=
  match fl with
  | FieldInt v => 0 <? v
  | FieldUint v => 0 <? v
  | FieldFloat v => PrimFloat.ltb 0%float v
  | FieldOther => false
  end.

Definition validateNonNegative (fl : field_value) : bool :=
  match fl with
  | FieldInt v => 0 <=? v
  | FieldUint _ => true          (* unsigned integers are always non-negative *)
  | FieldFloat v => PrimFloat.leb 0%float v
  | FieldOther => false
  end.

(** [utf8.RuneCountInString] on well-formed UTF-8: the bytes that do not
    continue a character. *)
Fixpoint RuneCountInString (s : string) : Z :=
  match s with
  | EmptyString => 0
  | String c s' =>
      (if (128 <=? N.of_nat (nat_of_ascii c))%N && (N.of_nat (nat_of_ascii c) <? 192)%N
       then 0 else 1) + RuneCountInString s'
  end.

(** A failed tag of a field: [validator.FieldError]. *)
Record FieldError := {
  Field : string;
  Tag : string;
  Param : string
}.

(** The tags [required], [min=], [max=] on a string field. *)
Definition tag_required (s : string) : bool := negb (String.eqb s "").
Definition tag_min (n : Z) (s : string) : bool := n <=? RuneCountInString s.
Definition tag_max (n : Z) (s : string) : bool := RuneCountInString s <=? n.

(** The tags of one field are tried in order and the first that fails is
    reported.  Each entry is the tag, its parameter, and whether the field's
    value passes it. *)
Fixpoint field_errors (field : string) (tags : list (string * string * bool)) : list FieldError :=
  match tags with
  | [] => []
  | (tag, param, ok) :: rest =>
      if ok then field_errors field rest
      else [Build_FieldError field tag param]
  end.

(** [omitempty] on a pointer field: a nil pointer passes, anything else goes
    on to the tags that follow. *)
Definition omitempty {A} (f : option A) (rest : A -> list FieldError) : list FieldError :=
  match f with
  | None => []
  | Some v => rest v
  end.

(** What [c.ShouldBindJSON(&req)] reports on a decoded [CreateItemRequest]. *)
Definition validate_CreateItemRequest (req : CreateItemRequest.t) : list FieldError :=
  field_errors "Name"
    [ ("required", "", tag_required (CreateItemRequest.Name req));
      ("min", "1", tag_min 1 (CreateItemRequest.Name req));
      ("max", "200", tag_max 200 (CreateItemRequest.Name req)) ]
  ++ field_errors "SKU"
    [ ("required", "", tag_required (CreateItemRequest.SKU req));
      ("min", "1", tag_min 1 (CreateItemRequest.SKU req));
      ("max", "100", tag_max 100 (CreateItemRequest.SKU req)) ]
  ++ field_errors "Description"
    [ ("max", "1000", tag_max 1000 (CreateItemRequest.Description req)) ]
  ++ field_errors "Quantity"
    [ ("non_negative", "", validateNonNegative (FieldInt (CreateItemRequest.Quantity req))) ]
  ++ field_errors "Price"
    [ ("non_negative", "", validateNonNegative (FieldFloat (CreateItemRequest.Price req))) ]
  ++ field_errors "Category"
    [ ("max", "100", tag_max 100 (CreateItemRequest.Category req)) ].

(** What [c.ShouldBindJSON(&req)] reports on a decoded [UpdateItemRequest]. *)
Definition validate_UpdateItemRequest (req : UpdateItemRequest.t) : list FieldError :=
  omitempty (UpdateItemRequest.Name req) (fun v =>
    field_errors "Name" [ ("min", "1", tag_min 1 v); ("max", "200", tag_max 200 v) ])
  ++ omitempty (UpdateItemRequest.SKU req) (fun v =>
    field_errors "SKU" [ ("min", "1", tag_min 1 v); ("max", "100", tag_max 100 v) ])
  ++ omitempty (UpdateItemRequest.Description req) (fun v =>
    field_errors "Description" [ ("max", "1000", tag_max 1000 v) ])
  ++ omitempty (UpdateItemRequest.Quantity req) (fun v =>
    field_errors "Quantity" [ ("non_negative", "", validateNonNegative (FieldInt v)) ])
  ++ omitempty (UpdateItemRequest.Price req) (fun v =>
    field_errors "Price" [ ("non_negative", "", validateNonNegative (FieldFloat v)) ])
  ++ omitempty (UpdateItemRequest.Category req) (fun v =>
    field_errors "Category" [ ("max", "100", tag_max 100 v) ]).

(** What [c.ShouldBindJSON(&req)] reports on a decoded [LoginRequest]. *)
Definition validate_LoginRequest (req : LoginRequest.t) : list FieldError :=
  field_errors "Username" [ ("required", "", tag_required (LoginRequest.Username req)) ]
  ++ field_errors "Password" [ ("required", "", tag_required (LoginRequest.Password req)) ].

(** What [c.ShouldBindJSON(&req)] reports on a decoded [RegisterRequest]. *)
Definition validate_RegisterRequest (req : RegisterRequest.t) : list FieldError :=
  field_errors "Username"
    [ ("required", "", tag_required (RegisterRequest.Username req));
      ("min", "3", tag_min 3 (RegisterRequest.Username req));
      ("max", "50", tag_max 50 (RegisterRequest.Username req)) ]
  ++ field_errors "Email"
    [ ("required", "", tag_required (RegisterRequest.Email req));
      ("email", "", is_email (RegisterRequest.Email req)) ]
  ++ field_errors "Password"
    [ ("required", "", tag_required (RegisterRequest.Password req));
      ("min", "6", tag_min 6 (RegisterRequest.Password req)) ].

(** getErrorMessage returns a user-friendly error message based on the
    validation tag *)
Definition getErrorMessage (e : FieldError) : string :=
  if String.eqb (Tag e) "required" then "is required"
  else if String.eqb (Tag e) "email" then "must be a valid email address"
  else if String.eqb (Tag e) "min" then String.append "must be at least " (Param e)
  else if String.eqb (Tag e) "max" then String.append "must be at most " (Param e)
  else if String.eqb (Tag e) "positive" then "must be positive"
  else if String.eqb (Tag e) "non_negative" then "must be non-negative"
  else String.append "failed validation '" (String.append (Tag e) "'").

(** FormatValidationError formats validation errors into a readable string *)
Definition FormatValidationError (validationErrors : list FieldError) : string :=
  String.concat "; "
    (map (fun e => String.append "Field '"
                     (String.append (Field e)
                        (String.append "' " (getErrorMessage e))))
         validationErrors).

(** ** The user repository

    [internal/repository/user_repository.go] is not among the sources at
    hand; the service is its only caller here. *)

Definition user_live (u : User.t) : bool := is_NULL (User.DeletedAt u).

Definition user_row (u : User.t) : User.t :=
  User.with_CreatedAt (db_timestamp (User.CreatedAt u))
    (User.with_UpdatedAt (db_timestamp (User.UpdatedAt u)) u).

(** The unique indexes of [models.User]: the key, [username], [email]. *)
Definition users_insert_violation (row : User.t) (rows : list User.t) : option string :=
  if existsb (fun r => User.ID r =? User.ID row) rows then Some "users_pkey"
  else if existsb (fun r => String.eqb (User.Username r) (User.Username row)) rows
       then Some "idx_users_username"
  else if existsb (fun r => String.eqb (User.Email r) (User.Email row)) rows
       then Some "idx_users_email"
  else None.

Definition gorm_Create_User (user : User.t) : M User.t :=
  now <- time_Now ;;
  let user := if User.CreatedAt user =? time_zero
              then User.with_CreatedAt now user else user in
  let user := if User.UpdatedAt user =? time_zero
              then User.with_UpdatedAt now user else user in
  user <- (if User.ID user =? 0
           then seq <- gets users_id_seq ;;
                modify (with_users_id_seq (seq + 1)) ;;;
                ret (User.with_ID (seq + 1) user)
           else ret user) ;;
  rows <- gets users ;;
  match users_insert_violation (user_row user) rows with
  | Some c => fail (pg_unique_violation c)
  | None => modify (with_users (rows ++ [user_row user])) ;;; ret user
  end.

Definition gorm_First_User (cond : User.t -> bool) : M User.t :=
  rows <- gets users ;;
  match first_by_pk User.ID (filter (fun r => user_live r && cond r) rows) with
  | Some user => ret user
  | None => fail gorm_ErrRecordNotFound
  end.

(** Modelled from the spec: [UserRepository.Create], the store's
    [CreateUser(user) -> error], written like [inventoryRepository.Create]. *)
Definition userRepository_Create (user : User.t) : M User.t :=
  log (UserRepository_Create user) ;;;
  gorm_Create_User user.

(** Modelled from the spec: [UserRepository.FindByUsername], the store's
    [FindUserByUsername(username) -> User|absent, error], written like
    [inventoryRepository.FindBySKU]. *)
Definition userRepository_FindByUsername (username : string) : M (option User.t) :=
  log (UserRepository_FindByUsername username) ;;;
  fun w =>
    match gorm_First_User (fun r => String.eqb (User.Username r) username) w with
    | (Err err, w') =>
        if errors_Is err gorm_ErrRecordNotFound then (Ok None, w')
        else (Err err, w')
    | (Ok user, w') => (Ok (Some user), w')
    end.

(** Modelled from the spec: [UserRepository.FindByEmail], the store's
    [FindUserByEmail(email) -> User|absent, error]. *)
Definition userRepository_FindByEmail (email : string) : M (option User.t) :=
  log (UserRepository_FindByEmail email) ;;;
  fun w =>
    match gorm_First_User (fun r => String.eqb (User.Email r) email) w with
    | (Err err, w') =>
        if errors_Is err gorm_ErrRecordNotFound then (Ok None, w')
        else (Err err, w')
    | (Ok user, w') => (Ok (Some user), w')
    end.

(** ** bcrypt *)

Definition bcrypt_DefaultCost : Z := 10.

(** [bcrypt.GenerateFromPassword]: a salt is drawn and the password hashed
    with it. *)
Definition bcrypt_GenerateFromPassword (password : string) (cost : Z) : M string :=
  log (bcrypt_GenerateFromPassword_call password) ;;;
  n <- gets draws ;;
  modify (with_draws (S n)) ;;;
  lift (bcrypt_hash password cost (rand_salt n)).

Definition bcrypt_Compare (hashedPassword password : string) : M (option error) :=
  log (bcrypt_CompareHashAndPassword_call hashedPassword password) ;;;
  ret (bcrypt_CompareHashAndPassword hashedPassword password).

(** ** Package [jwt] (golang-jwt v5) *)

(** The binary64 number nearest to an integer, ties to even. *)
Definition round_binary64 (n : Z) : Z :=
  let a := Z.abs n in
  let e := Z.log2 a in
  if e <? 53 then n
  else
    let s := e - 52 in
    let q := Z.shiftr a s in
    let r := a - Z.shiftl q s in
    let half := Z.shiftl 1 (s - 1) in
    let q' := if r <? half then q
              else if half <? r then q + 1
              else if Z.even q then q else q + 1 in
    Z.sgn n * Z.shiftl q' s.

(** [encoding/json] decoding a number literal into an [interface{}]: a
    float64, or an error when the literal is out of float64's range. *)
Definition float64_of_literal (n : Z) : option Z :=
  let f := round_binary64 n in
  if Z.abs f <? 2 ^ 1024 then Some f else None.

Definition json_Unmarshal_value (t : json_text) : option go_value :=
  match t with
  | TInt n => option_map GoFloat64 (float64_of_literal n)
  | TString s => Some (GoString s)
  | TBool b => Some (GoBool b)
  | TNull => Some GoNil
  | TComposite => Some GoComposite
  end.

Fixpoint json_Unmarshal (o : list (string * json_text)) : option MapClaims :=
  match o with
  | [] => Some []
  | (k, t) :: o' =>
      match json_Unmarshal_value t, json_Unmarshal o' with
      | Some v, Some m => Some ((k, v) :: m)
      | _, _ => None
      end
  end.

Definition json_Marshal_value (v : go_value) : json_text :=
  match v with
  | GoUint n => TInt n
  | GoInt64 n => TInt n
  | GoFloat64 f => TInt f
  | GoString s => TString s
  | GoBool b => TBool b
  | GoNil => TNull
  | GoComposite => TComposite
  end.

(** [json.Marshal] of a map writes its keys in sorted order; the maps of
    this development are written in that order to begin with. *)
Definition json_Marshal (m : MapClaims) : list (string * json_text) :=
  map (fun kv => (fst kv, json_Marshal_value (snd kv))) m.

(** [int64(f)] and [uint(f)] *)
Definition int64_of_float64 (f : Z) : Z :=
  if (- 2 ^ 63 <=? f) && (f <? 2 ^ 63) then f else int64_out_of_range f.

Definition uint_of_float64 (f : Z) : Z :=
  if (0 <=? f) && (f <? 2 ^ 64) then f else uint_out_of_range f.

Definition hash_bits (h : crypto_Hash) : string :=
  match h with SHA256 => "256" | SHA384 => "384" | SHA512 => "512" end.

(** [m.Alg()] *)
Definition Alg (m : SigningMethod) : string :=
  match m with
  | SigningMethodHMAC h => String.append "HS" (hash_bits h)
  | SigningMethodRSA h => String.append "RS" (hash_bits h)
  | SigningMethodRSAPSS h => String.append "PS" (hash_bits h)
  | SigningMethodECDSA h => String.append "ES" (hash_bits h)
  | SigningMethodEd25519 => "EdDSA"
  | SigningMethodNone => "none"
  end.

Definition registered_methods : list SigningMethod :=
  [ SigningMethodHMAC SHA256; SigningMethodHMAC SHA384; SigningMethodHMAC SHA512;
    SigningMethodRSA SHA256; SigningMethodRSA SHA384; SigningMethodRSA SHA512;
    SigningMethodRSAPSS SHA256; SigningMethodRSAPSS SHA384; SigningMethodRSAPSS SHA512;
    SigningMethodECDSA SHA256; SigningMethodECDSA SHA384; SigningMethodECDSA SHA512;
    SigningMethodEd25519; SigningMethodNone ].

(** [jwt.GetSigningMethod(alg)] *)
Definition GetSigningMethod (alg : string) : option SigningMethod :=
  find (fun m => String.eqb (Alg m) alg) registered_methods.

(** [jwt.NewWithClaims(method, claims)]; [Raw] is the empty string until
    the token is parsed from one. *)
Definition jwt_NewWithClaims (method : SigningMethod) (claims : MapClaims) : Token.t :=
  Token.mk (Malformed "") method
    [("alg", GoString (Alg method)); ("typ", GoString "JWT")]
    claims "" false.

(** [m.Sign(signingString, key)] with a [[]byte] key *)
Definition Sign (m : SigningMethod) (signingString key : string) : result string :=
  match m with
  | SigningMethodHMAC h => Ok (hmac_Sum h key signingString)
  | SigningMethodNone =>
      Err (jwt_newError "" NoneSignatureTypeDisallowedError [])
  | _ => Err (jwt_newError "" ErrInvalidKeyType [])
  end.

(** [m.Verify(signingString, sig, key)] with a [[]byte] key; [None] is nil *)
Definition Verify (m : SigningMethod) (signingString sig key : string) : option jwt_sentinel :=
  match m with
  | SigningMethodHMAC h =>
      if String.eqb sig (hmac_Sum h key signingString) then None
      else Some ErrSignatureInvalid
  | SigningMethodNone => Some NoneSignatureTypeDisallowedError
  | _ => Some ErrInvalidKeyType
  end.

(** [token.SignedString(key)] *)
Definition SignedString (token : Token.t) (key : string) : result tokenString :=
  let header := json_Marshal (Token.Header token) in
  let claims := json_Marshal (Token.Claims token) in
  match Sign (Token.Method token) (signing_input header claims) key with
  | Ok sig => Ok (Segments header claims (Some sig))
  | Err e => Err e
  end.

Definition malformed : error := jwt_newError "" ErrTokenMalformed [].

(** [Parser.ParseUnverified] *)
Definition ParseUnverified (tokenString : tokenString) : result Token.t :=
  match tokenString with
  | Malformed _ => Err malformed
  | Segments h c _ =>
      match json_Unmarshal h with
      | None => Err malformed
      | Some header =>
          match json_Unmarshal c with
          | None => Err malformed
          | Some claims =>
              match map_get "alg" header with
              | Some (GoString alg) =>
                  match GetSigningMethod alg with
                  | Some method =>
                      Ok (Token.mk tokenString method header claims "" false)
                  | None =>
                      Err (jwt_newError "signing method (alg) is unavailable"
                             ErrTokenUnverifiable [])
                  end
              | _ =>
                  Err (jwt_newError "signing method (alg) is unspecified"
                         ErrTokenUnverifiable [])
              end
          end
      end
  end.

(** [MapClaims.parseNumericDate]: an absent key and the number 0 give no
    date; a value that is not a number is an error. *)
Definition parseNumericDate (key : string) (m : MapClaims) : result (option Z) :=
  match map_get key m with
  | None => Ok None
  | Some (GoFloat64 f) =>
      if f =? 0 then Ok None
      else Ok (Some (time_Unix (int64_of_float64 f)))
  | Some _ => Err (jwt_newError (String.append key " is invalid") ErrInvalidType [])
  end.

Definition GetExpirationTime (m : MapClaims) := parseNumericDate "exp" m.
Definition GetNotBefore (m : MapClaims) := parseNumericDate "nbf" m.

(** [Validator.verifyExpiresAt], not required, no leeway *)
Definition verifyExpiresAt (claims : MapClaims) (cmp : Z) : list jwt_cause :=
  match GetExpirationTime claims with
  | Err _ => [jwt_Err ErrInvalidType]
  | Ok None => []
  | Ok (Some exp) => if time_Before cmp exp then [] else [jwt_Err ErrTokenExpired]
  end.

(** [Validator.verifyNotBefore], not required, no leeway *)
Definition verifyNotBefore (claims : MapClaims) (cmp : Z) : list jwt_cause :=
  match GetNotBefore claims with
  | Err _ => [jwt_Err ErrInvalidType]
  | Ok None => []
  | Ok (Some nbf) => if negb (time_Before cmp nbf) then [] else [jwt_Err ErrTokenNotValidYet]
  end.

(** [Validator.Validate] of the default validator: [exp] and [nbf] against
    one reading of the clock; [iat], [aud], [iss] and [sub] are not looked
    at. *)
Definition Validate (claims : MapClaims) : M unit :=
  now <- time_Now ;;
  match verifyExpiresAt claims now ++ verifyNotBefore claims now with
  | [] => ret tt
  | errs => fail (jwt_newError "" ErrTokenInvalidClaims errs)
  end.

Definition Keyfunc := Token.t -> result string.

(** [err.Error()] *)
Definition sentinel_text (s : jwt_sentinel) : string :=
  match s with
  | ErrTokenMalformed => "token is malformed"
  | ErrTokenUnverifiable => "token is unverifiable"
  | ErrTokenSignatureInvalid => "token signature is invalid"
  | ErrTokenInvalidClaims => "token has invalid claims"
  | ErrTokenExpired => "token is expired"
  | ErrTokenNotValidYet => "token is not valid yet"
  | ErrInvalidType => "invalid type for claim"
  | ErrInvalidKeyType => "key is of invalid type"
  | ErrSignatureInvalid => "signature is invalid"
  | ErrHashUnavailable => "the requested hash function is unavailable"
  | NoneSignatureTypeDisallowedError => "'none' signature type is not allowed"
  end.

Definition cause_text (c : jwt_cause) : string :=
  match c with
  | jwt_Err s => sentinel_text s
  | keyfunc_Err msg => msg
  end.

Definition quote : string := String (ascii_of_nat 34) EmptyString.

Definition Error (e : error) : string :=
  match e with
  | errors_New msg => msg
  | gorm_ErrRecordNotFound => "record not found"
  | pg_unique_violation c =>
      String.append "ERROR: duplicate key value violates unique constraint "
        (String.append quote (String.append c (String.append quote " (SQLSTATE 23505)")))
  | bcrypt_error msg => msg
  | jwt_newError message err more =>
      String.append (sentinel_text err)
        (String.append
           (if String.eqb message "" then "" else String.append ": " message)
           (String.concat "" (map (fun c => String.append ": " (cause_text c)) more)))
  end.

(** [jwt.Parse(tokenString, keyFunc)] *)
Definition Parse (tokenString : tokenString) (keyFunc : Keyfunc) : M Token.t :=
  token <- lift (ParseUnverified tokenString) ;;
  (* Lookup key *)
  match keyFunc token with
  | Err e =>
      fail (jwt_newError "error while executing keyfunc" ErrTokenUnverifiable
              [keyfunc_Err (Error e)])
  | Ok key =>
      (* Decode signature *)
      match tokenString with
      | Segments h c (Some sig) =>
          let token := Token.with_Signature sig token in
          (* Perform signature validation *)
          match Verify (Token.Method token) (signing_input h c) sig key with
          | Some e => fail (jwt_newError "" ErrTokenSignatureInvalid [jwt_Err e])
          | None =>
              (* Validate Claims *)
              Validate (Token.Claims token) ;;;
              (* No errors so far, token is valid. *)
              ret (Token.with_Valid true token)
          end
      | _ => fail (jwt_newError "could not base64 decode signature" ErrTokenMalformed [])
      end
  end.

(** ** [internal/service/auth_service.go] *)

Record authService := {
  jwtSecret : string;
  jwtExpiry : Z
}.

(** Register registers a new user *)
Definition Register (s : authService) (req : RegisterRequest.t) : M User.t :=
  (* Check if username already exists *)
  existingUser <- userRepository_FindByUsername (RegisterRequest.Username req) ;;
  match existingUser with
  | Some _ => fail (errors_New "username already exists")
  | None =>
      (* Check if email already exists *)
      existingEmail <- userRepository_FindByEmail (RegisterRequest.Email req) ;;
      match existingEmail with
      | Some _ => fail (errors_New "email already exists")
      | None =>
          (* Hash password *)
          hashedPassword <-
            bcrypt_GenerateFromPassword (RegisterRequest.Password req) bcrypt_DefaultCost ;;
          (* Create user *)
          let user :=
            User.mk 0 (RegisterRequest.Username req) (RegisterRequest.Email req)
              hashedPassword time_zero time_zero None in
          userRepository_Create user
      end
  end.

(** generateToken generates a JWT token for a user *)
Definition generateToken (s : authService) (userID : Z) : M tokenString :=
  exp_now <- time_Now ;;
  iat_now <- time_Now ;;
  let claims : MapClaims :=
    [ ("exp", GoInt64 (time_Unix_of (exp_now + wrap_int64 (time_Hour * jwtExpiry s))));
      ("iat", GoInt64 (time_Unix_of iat_now));
      ("user_id", GoUint userID) ] in
  let token := jwt_NewWithClaims SigningMethodHS256 claims in
  lift (SignedString token (jwtSecret s)).

(** Login authenticates a user and returns a JWT token *)
Definition Login (s : authService) (req : LoginRequest.t) : M LoginResponse.t :=
  (* Find user by username *)
  user <- userRepository_FindByUsername (LoginRequest.Username req) ;;
  match user with
  | None => fail (errors_New "invalid username or password")
  | Some user =>
      (* Verify password *)
      err <- bcrypt_Compare (User.Password user) (LoginRequest.Password req) ;;
      match err with
      | Some _ => fail (errors_New "invalid username or password")
      | None =>
          (* Generate JWT token *)
          token <- generateToken s (User.ID user) ;;
          ret (LoginResponse.mk token user)
      end
  end.

(** The key function [ValidateToken] hands to [jwt.Parse]. *)
Definition keyFunc (s : authService) : Keyfunc :=
  fun token =>
    match Token.Method token with
    | SigningMethodHMAC _ => Ok (jwtSecret s)
    | _ => Err (errors_New "unexpected signing method")
    end.

(** ValidateToken validates a JWT token *)
Definition ValidateToken (s : authService) (tokenString : tokenString) : M Token.t :=
  token <- Parse tokenString (keyFunc s) ;;
  if negb (Token.Valid token) then fail (errors_New "invalid token")
  else ret token.

(** GetUserFromToken extracts the user ID from a JWT token.  The claims of
    a [Token.t] are [MapClaims], so the first type assertion of the Go
    function holds; the second, [claims["user_id"].(float64)], is the match
    on [GoFloat64]. *)
Definition GetUserFromToken (s : authService) (token : Token.t) : result Z :=
  match map_get "user_id" (Token.Claims token) with
  | Some (GoFloat64 userID) => Ok (uint_of_float64 userID)
  | _ => Err (errors_New "user_id not found in token")
  end.

(** ** The request boundary *)

(** Modelled from the spec: [response.Error] of [pkg/response], which is not
    among the sources at hand: the JSON envelope with [success] false and
    the message, under the given status code. *)
Definition response_Error (code : Z) (message : string) : Response.t :=
  Response.mk code false message NoData.

(** Modelled from the spec: [response.Success] of [pkg/response]: the JSON
    envelope with [success] true, the message and the data. *)
Definition response_Success (code : Z) (message : string) (data : payload) : Response.t :=
  Response.mk code true message data.

Definition http_StatusOK : Z := 200.
Definition http_StatusCreated : Z := 201.
Definition http_StatusBadRequest : Z := 400.
Definition http_StatusUnauthorized : Z := 401.
Definition http_StatusNotFound : Z := 404.
Definition http_StatusInternalServerError : Z := 500.

(** A handler takes the request and leaves a response. *)
Definition Handler := World -> Response.t * World.

(** *** [internal/middleware/auth.go] *)

(** The [Authorization] header, as [strings.Split(authHeader, " ")] takes
    it apart. *)
Inductive AuthorizationHeader :=
| HeaderEmpty                                   (* no header, or an empty one *)
| HeaderOther (raw : string)                    (* not "Bearer" and one more part *)
| HeaderBearer (tokenString : tokenString).     (* "Bearer <token>" *)

(** What the middleware does with the request: it answers and aborts, or it
    sets [user_id] in the context and lets the request through. *)
Inductive auth_outcome :=
| Abort (r : Response.t)
| Next (user_id : Z).

(** Auth middleware validates JWT tokens *)
Definition Auth (authService : authService) (authHeader : AuthorizationHeader)
  : World -> auth_outcome * World :=
  fun w =>
    match authHeader with
    | HeaderEmpty => (Abort (response_Error 401 "Authorization header required"), w)
    | HeaderOther _ => (Abort (response_Error 401 "Invalid authorization header format"), w)
    | HeaderBearer tokenString =>
        (* Validate token *)
        match ValidateToken authService tokenString w with
        | (Err _, w') => (Abort (response_Error 401 "Invalid or expired token"), w')
        | (Ok token, w') =>
            (* Extract user ID from token *)
            match GetUserFromToken authService token with
            | Err _ => (Abort (response_Error 401 "Invalid token claims"), w')
            | Ok userID => (Next userID, w')
            end
        end
    end.

(** *** [internal/handlers/auth.go] *)

Definition AuthHandler_Register (authService : authService) (req : RegisterRequest.t) : Handler :=
  fun w =>
    match validate_RegisterRequest req with
    | (_ :: _) as errs =>
        (response_Error http_StatusBadRequest (FormatValidationError errs), w)
    | [] =>
        match Register authService req w with
        | (Err err, w') => (response_Error http_StatusBadRequest (Error err), w')
        | (Ok user, w') =>
            (response_Success http_StatusCreated "User registered successfully"
               (UserData user), w')
        end
    end.

Definition AuthHandler_Login (authService : authService) (req : LoginRequest.t) : Handler :=
  fun w =>
    match validate_LoginRequest req with
    | (_ :: _) as errs =>
        (response_Error http_StatusBadRequest (FormatValidationError errs), w)
    | [] =>
        match Login authService req w with
        | (Err err, w') => (response_Error http_StatusUnauthorized (Error err), w')
        | (Ok loginResponse, w') =>
            (response_Success http_StatusOK "Login successful" (LoginData loginResponse), w')
        end
    end.

(** *** [internal/handlers/inventory.go] *)

Fixpoint parse_digits (s : string) (acc : Z) : option Z :=
  match s with
  | EmptyString => Some acc
  | String c s' =>
      let d := Z.of_nat (nat_of_ascii c) - 48 in
      if (0 <=? d) && (d <=? 9) then parse_digits s' (10 * acc + d) else None
  end.

(** [strconv.ParseUint(s, 10, 32)] *)
Definition strconv_ParseUint32 (s : string) : option Z :=
  if String.eqb s "" then None
  else match parse_digits s 0 with
       | Some v => if v <? 2 ^ 32 then Some v else None
       | None => None
       end.

Definition InventoryHandler_CreateItem (req : CreateItemRequest.t) : Handler :=
  fun w =>
    match validate_CreateItemRequest req with
    | (_ :: _) as errs =>
        (response_Error http_StatusBadRequest (FormatValidationError errs), w)
    | [] =>
        match CreateItem req w with
        | (Err err, w') => (response_Error http_StatusBadRequest (Error err), w')
        | (Ok item, w') =>
            (response_Success http_StatusCreated "Item created successfully"
               (ItemData item), w')
        end
    end.

Definition InventoryHandler_GetAllItems : Handler :=
  fun w =>
    match GetAllItems w with
    | (Err _, w') =>
        (response_Error http_StatusInternalServerError "Failed to retrieve items", w')
    | (Ok items, w') =>
        (response_Success http_StatusOK "Items retrieved successfully" (ItemsData items), w')
    end.

Definition InventoryHandler_GetItemByID (idParam : string) : Handler :=
  fun w =>
    match strconv_ParseUint32 idParam with
    | None => (response_Error http_StatusBadRequest "Invalid item ID", w)
    | Some id =>
        match GetItemByID id w with
        | (Err err, w') => (response_Error http_StatusNotFound (Error err), w')
        | (Ok item, w') =>
            (response_Success http_StatusOK "Item retrieved successfully" (ItemData item), w')
        end
    end.

Definition InventoryHandler_UpdateItem (idParam : string) (req : UpdateItemRequest.t) : Handler :=
  fun w =>
    match strconv_ParseUint32 idParam with
    | None => (response_Error http_StatusBadRequest "Invalid item ID", w)
    | Some id =>
        match validate_UpdateItemRequest req with
        | (_ :: _) as errs =>
            (response_Error http_StatusBadRequest (FormatValidationError errs), w)
        | [] =>
            match UpdateItem id req w with
            | (Err err, w') => (response_Error http_StatusBadRequest (Error err), w')
            | (Ok item, w') =>
                (response_Success http_StatusOK "Item updated successfully"
                   (ItemData item), w')
            end
        end
    end.

Definition InventoryHandler_DeleteItem (idParam : string) : Handler :=
  fun w =>
    match strconv_ParseUint32 idParam with
    | None => (response_Error http_StatusBadRequest "Invalid item ID", w)
    | Some id =>
        match DeleteItem id w with
        | (Err err, w') => (response_Error http_StatusNotFound (Error err), w')
        | (Ok _, w') =>
            (response_Success http_StatusOK "Item deleted successfully" NoData, w')
        end
    end.

(** *** [cmd/api/main.go]: the routes *)

(** A request with a body that decodes into the route's request struct. *)
Inductive request :=
| POST_auth_register (req : RegisterRequest.t)
| POST_auth_login (req : LoginRequest.t)
| POST_inventory_items (authHeader : AuthorizationHeader) (req : CreateItemRequest.t)
| GET_inventory_items (authHeader : AuthorizationHeader)
| GET_inventory_items_id (authHeader : AuthorizationHeader) (id : string)
| PUT_inventory_items_id (authHeader : AuthorizationHeader) (id : string)
    (req : UpdateItemRequest.t)
| DELETE_inventory_items_id (authHeader : AuthorizationHeader) (id : string).

(** [inventory.Use(middleware.Auth(authService))] *)
Definition protected (authService : authService) (authHeader : AuthorizationHeader)
    (h : Handler) : Handler :=
  fun w =>
    match Auth authService authHeader w with
    | (Abort r, w') => (r, w')
    | (Next _, w') => h w'
    end.

Definition setupRouter (authService : authService) (r : request) : Handler :=
  match r with
  | POST_auth_register req => AuthHandler_Register authService req
  | POST_auth_login req => AuthHandler_Login authService req
  | POST_inventory_items h req =>
      protected authService h (InventoryHandler_CreateItem req)
  | GET_inventory_items h =>
      protected authService h InventoryHandler_GetAllItems
  | GET_inventory_items_id h id =>
      protected authService h (InventoryHandler_GetItemByID id)
  | PUT_inventory_items_id h id req =>
      protected authService h (InventoryHandler_UpdateItem id req)
  | DELETE_inventory_items_id h id =>
      protected authService h (InventoryHandler_DeleteItem id)
  end.

(** The state of the world after a sequence of requests, served one after
    the other. *)
Fixpoint serve (authService : authService) (rs : list request) (w : World) : World :=
  match rs with
  | [] => w
  | r :: rs' => serve authService rs' (snd (setupRouter authService r w))
  end.

End Services.

(** ** A platform to run the model on

    The theorems below hold on every platform.  This one, with a clock that
    advances a little over a millisecond per reading and stand-ins for the
    cryptographic primitives, is where they are instantiated. *)

Definition test_platform : Platform := {|
  wall_clock n := 1700000000 * time_Second + Z.of_nat n * 1000001;
  db_timestamp t := t / 1000 * 1000;
  rand_salt n := "salt";
  bcrypt_hash password cost salt := Ok (String.append "bcrypt:" password);
  bcrypt_CompareHashAndPassword hashedPassword password :=
    if String.eqb hashedPassword (String.append "bcrypt:" password) then None
    else Some (bcrypt_error "hashedPassword is not the hash of the given password");
  signing_input header claims := "header.claims";
  hmac_Sum h key message := String.append (hash_bits h) (String.append key message);
  int64_out_of_range f := - 2 ^ 63;
  uint_out_of_range f := 0;
  is_email s := true
|}.

(** * The vocabulary of the properties

    What the statements below talk about: the rows a query finds, the parts
    of an operation, the invariants, the tokens the service issues. *)

Section Vocabulary.
Context {P : Platform}.

(** The live row with a given key, and with a given SKU. *)
Definition live_by_ID (id : Z) (rows : list Item.t) : option Item.t :=
  first_by_pk Item.ID (filter (fun r => item_live r && (Item.ID r =? id)) rows).

Definition live_by_SKU (sku : string) (rows : list Item.t) : option Item.t :=
  first_by_pk Item.ID (filter (fun r => item_live r && String.eqb (Item.SKU r) sku) rows).

(** The soft delete an item's row undergoes. *)
Definition soft_delete (now id : Z) (r : Item.t) : Item.t :=
  if item_live r && (Item.ID r =? id)
  then Item.with_DeletedAt (Some (db_timestamp now)) r
  else r.

(** The fields a request can set agree on two items. *)
Definition same_content (a b : Item.t) : Prop :=
  Item.Name a = Item.Name b /\
  Item.SKU a = Item.SKU b /\
  Item.Description a = Item.Description b /\
  Item.Quantity a = Item.Quantity b /\
  Item.Price a = Item.Price b /\
  Item.Category a = Item.Category b.

(** The SKU check of [UpdateItem], by itself. *)
Definition check_SKU (req : UpdateItemRequest.t) (item : Item.t) : M Item.t :=
  match UpdateItemRequest.SKU req with
  | Some sku =>
      if negb (String.eqb sku (Item.SKU item))
      then
        existingItem <- inventoryRepository_FindBySKU sku ;;
        match existingItem with
        | Some _ =>
            fail (errors_New
                    (String.append "item with SKU '"
                       (String.append sku "' already exists")))
        | None => ret (Item.with_SKU sku item)
        end
      else ret item
  | None => ret item
  end.

(** The assignments of [UpdateItem] that follow the SKU check. *)
Definition assign_fields (req : UpdateItemRequest.t) (item : Item.t) : Item.t :=
  assign_if (UpdateItemRequest.Category req) Item.with_Category
    (assign_if (UpdateItemRequest.Price req) Item.with_Price
       (assign_if (UpdateItemRequest.Quantity req) Item.with_Quantity
          (assign_if (UpdateItemRequest.Description req) Item.with_Description
             (assign_if (UpdateItemRequest.Name req) Item.with_Name item)))).

(** The struct [CreateItem] builds from a request. *)
Definition item_of_request (req : CreateItemRequest.t) : Item.t :=
  Item.mk 0
    (CreateItemRequest.Name req)
    (CreateItemRequest.SKU req)
    (CreateItemRequest.Description req)
    (CreateItemRequest.Quantity req)
    (CreateItemRequest.Price req)
    (CreateItemRequest.Category req)
    time_zero time_zero None.

(** The struct as [db.Create] fills it in: the next key, and the time. *)
Definition created_item (req : CreateItemRequest.t) (w : World) : Item.t :=
  Item.with_ID (items_id_seq w + 1)
    (Item.with_UpdatedAt (wall_clock (ticks w))
       (Item.with_CreatedAt (wall_clock (ticks w)) (item_of_request req))).

(** What the store itself enforces on table "items": the primary key and
    the unique index on [sku], over every row. *)
Definition items_constraints (rows : list Item.t) : Prop :=
  NoDup (map Item.ID rows) /\ NoDup (map Item.SKU rows).

(** [quantity >= 0] and [price >= 0], as Go compares them. *)
Definition non_negative (i : Item.t) : Prop :=
  0 <= Item.Quantity i /\ PrimFloat.leb 0%float (Item.Price i) = true.

(** The invariant of the specification: the SKU is unique across the items
    that are not deleted, and no stored quantity or price is negative. *)
Definition inventory_invariant (w : World) : Prop :=
  NoDup (map Item.SKU (filter item_live (items w))) /\
  Forall non_negative (items w).

(** Reachable states of the store satisfy its constraints as well. *)
Definition inventory_ok (w : World) : Prop :=
  items_constraints (items w) /\ Forall non_negative (items w).

(** The token string made of a header, claims, and their HMAC under the
    service's secret. *)
Definition signed_with (s : authService) (h : crypto_Hash)
    (header claims : list (string * json_text)) : tokenString :=
  Segments header claims
    (Some (hmac_Sum h (jwtSecret s) (signing_input header claims))).

(** What the validator reports on claims at a given time. *)
Definition claims_errors (claims : MapClaims) (now : Z) : list jwt_cause :=
  verifyExpiresAt claims now ++ verifyNotBefore claims now.

(** The one answer of the middleware to a token that does not validate. *)
Definition unauthorized : Response.t :=
  response_Error http_StatusUnauthorized "Invalid or expired token".

(** The header of every token the service issues. *)
Definition issued_header : list (string * json_text) :=
  [("alg", TString "HS256"); ("typ", TString "JWT")].

(** The claims of the token issued for [userID] when the clock is at its
    [n]-th reading. *)
Definition issued_claims (s : authService) (userID : Z) (n : nat)
  : list (string * json_text) :=
  [ ("exp", TInt (time_Unix_of (wall_clock n + wrap_int64 (time_Hour * jwtExpiry s))));
    ("iat", TInt (time_Unix_of (wall_clock (S n))));
    ("user_id", TInt userID) ].

(** The live user with a given name, and with a given address. *)
Definition live_by_Username (username : string) (rows : list User.t) : option User.t :=
  first_by_pk User.ID
    (filter (fun r => user_live r && String.eqb (User.Username r) username) rows).

Definition live_by_Email (email : string) (rows : list User.t) : option User.t :=
  first_by_pk User.ID
    (filter (fun r => user_live r && String.eqb (User.Email r) email) rows).

Definition invalid_credentials : error := errors_New "invalid username or password".

(** The struct [Register] builds from a request and the hashed password. *)
Definition user_of_request (req : RegisterRequest.t) (hashedPassword : string) : User.t :=
  User.mk 0 (RegisterRequest.Username req) (RegisterRequest.Email req)
    hashedPassword time_zero time_zero None.


(** The expiry of a token string, as the validator reads it; [None] when
    the validator sees none. *)
Definition token_expiry (ts : tokenString) : option Z :=
  match ts with
  | Segments _ c _ =>
      match json_Unmarshal c with
      | Some claims =>
          match GetExpirationTime claims with
          | Ok (Some exp) => Some exp
          | _ => None
          end
      | None => None
      end
  | Malformed _ => None
  end.


(** The claims the validator decodes from an issued token. *)
Definition decoded_claims (s : authService) (userID : Z) (n : nat) : MapClaims :=
  [ ("exp", GoFloat64 (round_binary64
              (time_Unix_of (wall_clock n + wrap_int64 (time_Hour * jwtExpiry s)))));
    ("iat", GoFloat64 (round_binary64 (time_Unix_of (wall_clock (S n)))));
    ("user_id", GoFloat64 (round_binary64 userID)) ].

(** The keys of table "items" come from its sequence: the sequence has not
    gone below 0, and every key is positive and at most its last value. *)
Definition keys_in_sequence (w : World) : Prop :=
  0 <= items_id_seq w /\
  Forall (fun r => 0 < Item.ID r <= items_id_seq w) (items w).

(** The [Authorization] header of a request on a route of the [inventory]
    group; the routes of the [auth] group are open. *)
Definition route_header (r : request) : option AuthorizationHeader :=
  match r with
  | POST_auth_register _ | POST_auth_login _ => None
  | POST_inventory_items h _
  | GET_inventory_items h
  | GET_inventory_items_id h _
  | PUT_inventory_items_id h _ _
  | DELETE_inventory_items_id h _ => Some h
  end.

(** No two live users share a name or an address. *)
Definition users_distinct (w : World) : Prop :=
  NoDup (map User.Username (filter user_live (users w))) /\
  NoDup (map User.Email (filter user_live (users w))).

(** A decimal digit, and a string made of decimal digits only. *)
Definition is_digit (c : ascii) : bool :=
  (48 <=? Z.of_nat (nat_of_ascii c)) && (Z.of_nat (nat_of_ascii c) <=? 57).

Fixpoint all_digits (s : string) : bool :=
  match s with
  | EmptyString => true
  | String c s' => is_digit c && all_digits s'
  end.

End Vocabulary.

(** ** A run of the model

    The scenario of the specification on [test_platform]: the states it goes
    through and the requests it is made of. *)

Definition svc : authService := {| jwtSecret := "secret"; jwtExpiry := 24 |}.

Definition johndoe : RegisterRequest.t :=
  RegisterRequest.mk "johndoe" "john@example.com" "securepassword123".

Definition laptop : CreateItemRequest.t :=
  CreateItemRequest.mk "Laptop" "LAPTOP-001" "" 25 1299.5%float "".

(** The world after [johndoe] has registered, and the row the store keeps. *)
Definition world_johndoe : World :=
  Eval vm_compute in snd (@Register test_platform svc johndoe initial_world).

Definition row_johndoe : User.t :=
  User.mk 1 "johndoe" "john@example.com" "bcrypt:securepassword123"
    1700000000000000000 1700000000000000000 None.

(** The world after the laptop has been created, and after it has then
    been deleted. *)
Definition world_laptop : World :=
  Eval vm_compute in snd (@CreateItem test_platform laptop initial_world).

Definition world_laptop_deleted : World :=
  Eval vm_compute in snd (@DeleteItem test_platform 1 world_laptop).

Definition row_laptop : Item.t :=
  Item.mk 1 "Laptop" "LAPTOP-001" "" 25 1299.5%float ""
    1700000000000000000 1700000000000000000 None.

(** Claims that expire at the first reading of the clock; the header of a
    token signed with HS384; claims that hold for a day from that reading. *)
Definition expiring_claims : list (string * json_text) :=
  [("exp", TInt 1700000000); ("iat", TInt 1699913600); ("user_id", TInt 1)].

Definition hs384_header : list (string * json_text) :=
  [("alg", TString "HS384"); ("typ", TString "JWT")].

Definition valid_claims : list (string * json_text) :=
  [("exp", TInt 1700086400); ("iat", TInt 1700000000); ("user_id", TInt 1)].



(** A header that names an RSA method. *)
Definition rs256_header : list (string * json_text) :=
  [("alg", TString "RS256"); ("typ", TString "JWT")].

(** A second item, the world with the laptop and the mouse, and that world
    after the laptop has been deleted. *)
Definition mouse : CreateItemRequest.t :=
  CreateItemRequest.mk "Mouse" "MOUSE-001" "" 100 19.5%float "".

Definition world_two_items : World :=
  Eval vm_compute in snd (@CreateItem test_platform mouse world_laptop).

Definition row_mouse : Item.t :=
  Item.mk 2 "Mouse" "MOUSE-001" "" 100 19.5%float ""
    1700000000001000000 1700000000001000000 None.

Definition world_mouse_left : World :=
  Eval vm_compute in snd (@DeleteItem test_platform 1 world_two_items).

Definition row_laptop_deleted : Item.t :=
  Item.mk 1 "Laptop" "LAPTOP-001" "" 25 1299.5%float ""
    1700000000000000000 1700000000000000000 (Some 1700000000002000000).

(** Claims that hold but name no user. *)
Definition anonymous_claims : list (string * json_text) :=
  [("exp", TInt 1700086400); ("iat", TInt 1700000000)].


(** * Properties *)

(** Unfolding the operations of [M], and splitting on the next test. *)
Ltac unfold_M :=
  unfold bind, log, modify, time_Now, gets, ret, fail, lift.

Ltac case_split :=
  match goal with
  | |- context [if ?c then _ else _] => destruct c eqn:?
  | |- context [match ?x with Some _ => _ | None => _ end] => destruct x eqn:?
  end.

(** ** Queries *)

Section Queries.
Context {R : Type} (pk : R -> Z).

Lemma first_by_pk_None (rows : list R) :
  first_by_pk pk rows = None <-> rows = [].
Proof.
  destruct rows as [|r rs]; simpl; [tauto|].
  split; [|discriminate].
  destruct (first_by_pk pk rs) as [r'|]; [destruct (pk r' <? pk r)|]; discriminate.
Qed.

Lemma first_by_pk_In (rows : list R) (r : R) :
  first_by_pk pk rows = Some r -> In r rows.
Proof.
  revert r; induction rows as [|a rs IH]; simpl; intros r H; [discriminate|].
  destruct (first_by_pk pk rs) as [r'|].
  - destruct (pk r' <? pk a); inversion H; subst; auto.
  - inversion H; auto.
Qed.

Lemma first_by_pk_Some (rows : list R) :
  rows <> [] -> exists r, first_by_pk pk rows = Some r.
Proof.
  intros H. destruct (first_by_pk pk rows) as [r|] eqn:E; [eauto|].
  apply first_by_pk_None in E. contradiction.
Qed.

(** A query that matches no row finds nothing. *)
Lemma first_where_None (cond : R -> bool) (rows : list R) :
  first_by_pk pk (filter cond rows) = None <->
  (forall r, In r rows -> cond r = false).
Proof.
  rewrite first_by_pk_None. split.
  - intros H r Hr. destruct (cond r) eqn:E; [|reflexivity].
    assert (In r (filter cond rows)) as Hin by (apply filter_In; auto).
    rewrite H in Hin. destruct Hin.
  - intros H. induction rows as [|a rs IH]; simpl; [reflexivity|].
    rewrite (H a) by (left; reflexivity). apply IH.
    intros r Hr. apply H. right; exact Hr.
Qed.

(** What a query finds is a row that matches. *)
Lemma first_where_Some (cond : R -> bool) (rows : list R) (r : R) :
  first_by_pk pk (filter cond rows) = Some r -> In r rows /\ cond r = true.
Proof.
  intros H. apply first_by_pk_In in H. apply filter_In in H. exact H.
Qed.

(** A query that some row matches finds a row. *)
Lemma first_where_found (cond : R -> bool) (rows : list R) (r : R) :
  In r rows -> cond r = true ->
  exists r', first_by_pk pk (filter cond rows) = Some r'.
Proof.
  intros Hin Hc. apply first_by_pk_Some.
  intros E. assert (In r (filter cond rows)) as H by (apply filter_In; auto).
  rewrite E in H. destruct H.
Qed.

(** When every matching row is the same row, that row is what is found. *)
Lemma first_where_unique (cond : R -> bool) (rows : list R) (r : R) :
  In r rows -> cond r = true ->
  (forall r', In r' rows -> cond r' = true -> r' = r) ->
  first_by_pk pk (filter cond rows) = Some r.
Proof.
  intros Hin Hc Hu.
  destruct (first_where_found cond rows r Hin Hc) as [r' E].
  rewrite E. f_equal.
  apply first_where_Some in E. destruct E. auto.
Qed.

End Queries.

(** ** The inventory service, step by step *)

Section InventoryFacts.
Context {P : Platform}.

Lemma GetItemByID_run (id : Z) (w : World) :
  GetItemByID id w =
  (match live_by_ID id (items w) with
   | Some item => Ok item
   | None => Err (errors_New "item not found")
   end,
   with_trace (trace w ++ [InventoryRepository_FindByID id]) w).
Proof.
  unfold GetItemByID, inventoryRepository_FindByID, gorm_First_Item, live_by_ID,
    bind, log, modify, gets, ret, fail. simpl.
  destruct (first_by_pk _ _); reflexivity.
Qed.

Lemma GetAllItems_run (w : World) :
  GetAllItems w =
  (Ok (filter item_live (items w)),
   with_trace (trace w ++ [InventoryRepository_FindAll]) w).
Proof. reflexivity. Qed.

Lemma FindByID_run (id : Z) (w : World) :
  inventoryRepository_FindByID id w =
  (Ok (live_by_ID id (items w)),
   with_trace (trace w ++ [InventoryRepository_FindByID id]) w).
Proof.
  unfold inventoryRepository_FindByID, gorm_First_Item, live_by_ID. unfold_M. simpl.
  destruct (first_by_pk _ _); reflexivity.
Qed.

Lemma FindBySKU_run (sku : string) (w : World) :
  inventoryRepository_FindBySKU sku w =
  (Ok (live_by_SKU sku (items w)),
   with_trace (trace w ++ [InventoryRepository_FindBySKU sku]) w).
Proof.
  unfold inventoryRepository_FindBySKU, gorm_First_Item, live_by_SKU. unfold_M. simpl.
  destruct (first_by_pk _ _); reflexivity.
Qed.

Lemma DeleteItem_run (id : Z) (w : World) :
  DeleteItem id w =
  match live_by_ID id (items w) with
  | None =>
      (Err (errors_New "item not found"),
       with_trace (trace w ++ [InventoryRepository_FindByID id]) w)
  | Some _ =>
      (Ok tt,
       mkWorld (users w) (users_id_seq w)
         (map (soft_delete (wall_clock (ticks w)) id) (items w))
         (items_id_seq w) (S (ticks w)) (draws w)
         (trace w ++ [InventoryRepository_FindByID id] ++ [InventoryRepository_Delete id]))
  end.
Proof.
  unfold DeleteItem, inventoryRepository_FindByID, inventoryRepository_Delete,
    gorm_First_Item, gorm_Delete_Item, live_by_ID, time_Now,
    bind, log, modify, gets, ret, fail. simpl.
  destruct (first_by_pk _ _); [|reflexivity].
  unfold with_items, with_ticks, with_trace; simpl.
  rewrite <- app_assoc. reflexivity.
Qed.

(** After the soft delete no live row has the key. *)
Lemma soft_delete_not_live (now id : Z) (rows : list Item.t) (r : Item.t) :
  In r (map (soft_delete now id) rows) ->
  item_live r && (Item.ID r =? id) = false.
Proof.
  intros H. apply in_map_iff in H. destruct H as [r0 [E _]]. subst r.
  unfold soft_delete.
  destruct (item_live r0 && (Item.ID r0 =? id)) eqn:C; [|exact C].
  reflexivity.
Qed.

Lemma soft_delete_ID (now id : Z) (r : Item.t) :
  Item.ID (soft_delete now id r) = Item.ID r.
Proof. unfold soft_delete. destruct (_ && _); reflexivity. Qed.

End InventoryFacts.

(** ** Deleting an item *)

Section DeleteItemSpec.
Context {P : Platform}.

(** C8. When a live item with key [id] is in the store, [DeleteItem id]
    succeeds; afterwards [GetItemByID id] fails with "item not found", no
    item of [GetAllItems] has that key, and every row is still stored (the
    delete is a soft delete).  When no live item has key [id], both
    [DeleteItem id] and [GetItemByID id] fail with "item not found", the
    store is left as it was, and the lookup is the only call made to the
    repository. *)
Theorem delete_item_then_not_found (id : Z) (w : World) :
  ((exists item, In item (items w) /\ item_live item = true /\ Item.ID item = id) ->
   fst (DeleteItem id w) = Ok tt /\
   fst (GetItemByID id (snd (DeleteItem id w))) = Err (errors_New "item not found") /\
   (exists l, fst (GetAllItems (snd (DeleteItem id w))) = Ok l /\
              forall i, In i l -> Item.ID i <> id) /\
   map Item.ID (items (snd (DeleteItem id w))) = map Item.ID (items w))
  /\
  ((forall item, In item (items w) -> item_live item = true -> Item.ID item <> id) ->
   fst (DeleteItem id w) = Err (errors_New "item not found") /\
   fst (GetItemByID id w) = Err (errors_New "item not found") /\
   items (snd (DeleteItem id w)) = items w /\
   trace (snd (DeleteItem id w)) = trace w ++ [InventoryRepository_FindByID id]).
Proof.
  split.
  - intros [item [Hin [Hlive Hid]]].
    rewrite DeleteItem_run.
    destruct (first_where_found Item.ID
                (fun r => item_live r && (Item.ID r =? id)) (items w) item Hin)
      as [r Hr].
    { rewrite Hlive, Hid, Z.eqb_refl. reflexivity. }
    unfold live_by_ID. rewrite Hr. cbn [fst snd].
    repeat split.
    + rewrite GetItemByID_run. cbn [fst items].
      replace (live_by_ID id (map (soft_delete (wall_clock (ticks w)) id) (items w)))
        with (@None Item.t); [reflexivity|].
      symmetry. apply first_where_None.
      intros r0 H0. exact (soft_delete_not_live _ _ _ _ H0).
    + rewrite GetAllItems_run. cbn [fst items].
      eexists; split; [reflexivity|].
      intros i Hi E. apply filter_In in Hi. destruct Hi as [Hi Hl].
      pose proof (soft_delete_not_live _ _ _ _ Hi) as Hn.
      rewrite Hl, E, Z.eqb_refl in Hn. discriminate.
    + cbn [items]. rewrite map_map. apply map_ext.
      intros a. apply soft_delete_ID.
  - intros Habs.
    assert (live_by_ID id (items w) = None) as E.
    { apply first_where_None. intros r Hr.
      destruct (item_live r) eqn:Hl; [|reflexivity].
      simpl. apply Z.eqb_neq. auto. }
    rewrite DeleteItem_run, GetItemByID_run, E. cbn [fst snd].
    repeat split.
Qed.

End DeleteItemSpec.

(** ** Updating an item *)

Section UpdateItemSpec.
Context {P : Platform}.

Lemma same_content_refl (a : Item.t) : same_content a a.
Proof. repeat split. Qed.

Lemma same_content_trans (a b c : Item.t) :
  same_content a b -> same_content b c -> same_content a c.
Proof.
  unfold same_content. intros (?&?&?&?&?&?) (?&?&?&?&?&?).
  repeat split; congruence.
Qed.

Lemma same_content_row (a : Item.t) : same_content (item_row a) a.
Proof. repeat split. Qed.

Lemma UpdateItem_run (id : Z) (req : UpdateItemRequest.t) (w : World) :
  UpdateItem id req w =
  match live_by_ID id (items w) with
  | None =>
      (Err (errors_New "item not found"),
       with_trace (trace w ++ [InventoryRepository_FindByID id]) w)
  | Some item =>
      match check_SKU req item
              (with_trace (trace w ++ [InventoryRepository_FindByID id]) w) with
      | (Err e, w') => (Err e, w')
      | (Ok item1, w') => inventoryRepository_Update (assign_fields req item1) w'
      end
  end.
Proof.
  unfold UpdateItem, bind at 1. rewrite FindByID_run.
  destruct (live_by_ID id (items w)) as [item|]; [|reflexivity].
  unfold check_SKU, assign_fields, bind.
  destruct (UpdateItemRequest.SKU req) as [sku|]; [|reflexivity].
  destruct (negb (sku =? Item.SKU item)%string); [|reflexivity].
  rewrite FindBySKU_run.
  destruct (live_by_SKU sku _); reflexivity.
Qed.

(** The SKU check reads the store and changes at most the item's SKU, and
    that only when the request supplies one. *)
Lemma check_SKU_Ok (req : UpdateItemRequest.t) (item item1 : Item.t) (w w' : World) :
  check_SKU req item w = (Ok item1, w') ->
  items w' = items w /\ ticks w' = ticks w /\
  Item.ID item1 = Item.ID item /\
  Item.DeletedAt item1 = Item.DeletedAt item /\
  Item.Name item1 = Item.Name item /\
  Item.Description item1 = Item.Description item /\
  Item.Quantity item1 = Item.Quantity item /\
  Item.Price item1 = Item.Price item /\
  Item.Category item1 = Item.Category item /\
  (UpdateItemRequest.SKU req = None -> item1 = item /\ w' = w).
Proof.
  unfold check_SKU. destruct (UpdateItemRequest.SKU req) as [sku|].
  - destruct (negb (sku =? Item.SKU item)%string).
    + unfold bind. rewrite FindBySKU_run.
      destruct (live_by_SKU sku (items w)); unfold fail, ret; intros H;
        inversion H; subst; clear H.
      repeat split; discriminate.
    + unfold ret. intros H; inversion H; subst. repeat split; discriminate.
  - unfold ret. intros H; inversion H; subst. repeat split; auto.
Qed.

Lemma assign_fields_frame (req : UpdateItemRequest.t) (item : Item.t) :
  Item.ID (assign_fields req item) = Item.ID item /\
  Item.SKU (assign_fields req item) = Item.SKU item /\
  Item.DeletedAt (assign_fields req item) = Item.DeletedAt item /\
  (UpdateItemRequest.Name req = None ->
   Item.Name (assign_fields req item) = Item.Name item) /\
  (UpdateItemRequest.Description req = None ->
   Item.Description (assign_fields req item) = Item.Description item) /\
  (UpdateItemRequest.Quantity req = None ->
   Item.Quantity (assign_fields req item) = Item.Quantity item) /\
  (UpdateItemRequest.Price req = None ->
   Item.Price (assign_fields req item) = Item.Price item) /\
  (UpdateItemRequest.Category req = None ->
   Item.Category (assign_fields req item) = Item.Category item).
Proof.
  unfold assign_fields, assign_if.
  destruct req as [n s d q p c]; simpl.
  destruct n, d, q, p, c; simpl; repeat split; intros; try discriminate; reflexivity.
Qed.

Lemma assign_fields_set (req : UpdateItemRequest.t) (item : Item.t) :
  (forall v, UpdateItemRequest.Name req = Some v ->
             Item.Name (assign_fields req item) = v) /\
  (forall v, UpdateItemRequest.Description req = Some v ->
             Item.Description (assign_fields req item) = v) /\
  (forall v, UpdateItemRequest.Quantity req = Some v ->
             Item.Quantity (assign_fields req item) = v) /\
  (forall v, UpdateItemRequest.Price req = Some v ->
             Item.Price (assign_fields req item) = v) /\
  (forall v, UpdateItemRequest.Category req = Some v ->
             Item.Category (assign_fields req item) = v).
Proof.
  unfold assign_fields, assign_if.
  destruct req as [n s d q p c]; simpl.
  destruct n, d, q, p, c; simpl; repeat split; intros v E;
    try discriminate; inversion E; reflexivity.
Qed.

(** [db.Save] on a struct with a key, when a live row has that key: the
    UPDATE. *)
Lemma Update_run_live (item : Item.t) (w : World) :
  Item.ID item <> 0 ->
  existsb (fun r => item_live r && (Item.ID r =? Item.ID item)) (items w) = true ->
  inventoryRepository_Update item w =
  let now := wall_clock (ticks w) in
  let item' := Item.with_UpdatedAt now item in
  match items_update_violation (item_row item') (items w) with
  | Some c =>
      (Err (pg_unique_violation c),
       with_ticks (S (ticks w))
         (with_trace (trace w ++ [InventoryRepository_Update item]) w))
  | None =>
      (Ok item',
       with_items
         (map (fun r => if item_live r && (Item.ID r =? Item.ID item)
                        then item_row item' else r) (items w))
         (with_ticks (S (ticks w))
            (with_trace (trace w ++ [InventoryRepository_Update item]) w)))
  end.
Proof.
  intros Hid Hex.
  unfold inventoryRepository_Update, gorm_Save_Item.
  apply Z.eqb_neq in Hid. rewrite Hid.
  unfold bind, log, modify, time_Now, gets, ret, fail. cbn [items with_trace with_ticks].
  cbn [Item.ID Item.with_UpdatedAt]. rewrite Hex.
  destruct (items_update_violation _ _); reflexivity.
Qed.

(** Whatever [db.Create] hands back has the content it was given. *)
Lemma Create_result_content (item item' : Item.t) (w : World) :
  fst (gorm_Create_Item item w) = Ok item' -> same_content item' item.
Proof.
  unfold gorm_Create_Item, items_INSERT. unfold_M.
  repeat (case_split; cbn [fst snd]); intros H; inversion H; subst;
    repeat split.
Qed.

(** Whatever [db.Save] hands back has the content it was given. *)
Lemma Update_result_content (item item' : Item.t) (w : World) :
  fst (inventoryRepository_Update item w) = Ok item' -> same_content item' item.
Proof.
  unfold inventoryRepository_Update, gorm_Save_Item.
  destruct (Item.ID item =? 0) eqn:E0.
  - unfold bind at 1, log, modify. cbn beta iota. apply Create_result_content.
  - unfold items_INSERT. unfold_M.
    repeat (case_split; cbn [fst snd]); intros H; inversion H; subst;
      repeat split.
Qed.

Lemma NoDup_map_inj {A B} (f : A -> B) (l : list A) (a b : A) :
  NoDup (map f l) -> In a l -> In b l -> f a = f b -> a = b.
Proof.
  induction l as [|x l IH]; simpl; intros Hnd Ha Hb E; [destruct Ha|].
  inversion Hnd as [|? ? Hnotin Hnd']; subst.
  destruct Ha as [Ha|Ha], Hb as [Hb|Hb]; subst; auto.
  - exfalso. apply Hnotin. rewrite E. apply in_map. exact Hb.
  - exfalso. apply Hnotin. rewrite <- E. apply in_map. exact Ha.
Qed.

Lemma live_by_ID_Some (id : Z) (rows : list Item.t) (item : Item.t) :
  live_by_ID id rows = Some item ->
  In item rows /\ Item.DeletedAt item = None /\ Item.ID item = id.
Proof.
  intros H. apply first_where_Some in H. destruct H as [Hin Hc].
  apply andb_prop in Hc. destruct Hc as [Hl Hi].
  apply Z.eqb_eq in Hi. unfold item_live, is_NULL in Hl.
  destruct (Item.DeletedAt item); [discriminate|]. auto.
Qed.

(** After the UPDATE of the live row with key [id], that row is what a
    lookup by [id] finds. *)
Lemma live_by_ID_after_update (id : Z) (row : Item.t) (rows : list Item.t) :
  (exists r, In r rows /\ item_live r && (Item.ID r =? id) = true) ->
  item_live row && (Item.ID row =? id) = true ->
  live_by_ID id
    (map (fun r => if item_live r && (Item.ID r =? id) then row else r) rows)
  = Some row.
Proof.
  intros [r [Hin Hc]] Hrow.
  apply first_where_unique.
  - apply in_map_iff. exists r. rewrite Hc. auto.
  - exact Hrow.
  - intros r' Hin' Hc'. apply in_map_iff in Hin'.
    destruct Hin' as [r0 [E _]].
    destruct (item_live r0 && (Item.ID r0 =? id)) eqn:C; [auto|].
    subst r'. rewrite C in Hc'. discriminate.
Qed.

(** C7. Let [item] be what the store holds under [id].  Every field an
    [UpdateItem] request leaves out has, in the item the update returns and
    in the row it leaves in the store, the value it had in [item], and every
    field the request supplies has the value supplied.  In particular a
    request that supplies only a quantity succeeds and changes the quantity
    alone: name, SKU, description, price and category stay as they were. *)
Theorem update_item_is_partial
    (id : Z) (req : UpdateItemRequest.t) (w : World) (item : Item.t) :
  fst (GetItemByID id w) = Ok item ->
  (forall item',
     fst (UpdateItem id req w) = Ok item' ->
     ((UpdateItemRequest.Name req = None -> Item.Name item' = Item.Name item) /\
      (UpdateItemRequest.SKU req = None -> Item.SKU item' = Item.SKU item) /\
      (UpdateItemRequest.Description req = None ->
       Item.Description item' = Item.Description item) /\
      (UpdateItemRequest.Quantity req = None ->
       Item.Quantity item' = Item.Quantity item) /\
      (UpdateItemRequest.Price req = None -> Item.Price item' = Item.Price item) /\
      (UpdateItemRequest.Category req = None ->
       Item.Category item' = Item.Category item)) /\
     (forall v, UpdateItemRequest.Quantity req = Some v -> Item.Quantity item' = v) /\
     (id <> 0 ->
      exists row,
        fst (GetItemByID id (snd (UpdateItem id req w))) = Ok row /\
        same_content row item'))
  /\
  (forall q,
     req = UpdateItemRequest.mk None None None (Some q) None None ->
     id <> 0 ->
     NoDup (map Item.SKU (items w)) ->
     exists item',
       fst (UpdateItem id req w) = Ok item' /\
       Item.Quantity item' = q /\
       Item.Name item' = Item.Name item /\
       Item.SKU item' = Item.SKU item /\
       Item.Description item' = Item.Description item /\
       Item.Price item' = Item.Price item /\
       Item.Category item' = Item.Category item).
Proof.
  rewrite GetItemByID_run. cbn [fst].
  destruct (live_by_ID id (items w)) as [item0|] eqn:Hfind; [|discriminate].
  intros H; inversion H; subst item0; clear H.
  pose proof (live_by_ID_Some _ _ _ Hfind) as (Hin & Hdel & Hid).
  assert (item_live item && (Item.ID item =? id) = true) as Hcond.
  { unfold item_live. rewrite Hdel, Hid, Z.eqb_refl. reflexivity. }
  split.
  - intros item'. rewrite UpdateItem_run, Hfind.
    destruct (check_SKU req item _) as [[item1|e] w1] eqn:Hsku; [|discriminate].
    apply check_SKU_Ok in Hsku.
    destruct Hsku as (Hitems & Hticks & HID & HDel & HN & HD & HQ & HP & HC & HS).
    pose proof (assign_fields_frame req item1) as (FID & FSKU & FDel & FN & FD & FQ & FP & FC).
    intros Hupd.
    pose proof (Update_result_content _ _ _ Hupd) as (RN & RS & RD & RQ & RP & RC).
    split; [|split].
    + repeat split; intros Hnone.
      * rewrite RN, FN, HN; auto.
      * rewrite RS, FSKU. destruct (HS Hnone) as [-> _]. reflexivity.
      * rewrite RD, FD, HD; auto.
      * rewrite RQ, FQ, HQ; auto.
      * rewrite RP, FP, HP; auto.
      * rewrite RC, FC, HC; auto.
    + intros v Hv. rewrite RQ.
      apply (proj1 (proj2 (proj2 (assign_fields_set req item1)))). exact Hv.
    + intros Hnz.
      assert (Item.ID (assign_fields req item1) = id) as Hid' by congruence.
      revert Hupd. rewrite Update_run_live.
      2:{ rewrite Hid'. exact Hnz. }
      2:{ rewrite Hitems, Hid'. apply existsb_exists. exists item. auto. }
      cbv zeta. destruct (items_update_violation _ _); [discriminate|].
      cbn [fst snd]. intros Hupd. inversion Hupd; subst item'; clear Hupd.
      rewrite GetItemByID_run. cbn [fst items with_items].
      rewrite Hid', Hitems.
      rewrite live_by_ID_after_update.
      * eexists; split; [reflexivity|]. repeat split.
      * exists item. auto.
      * unfold item_live. cbn. rewrite FDel, HDel, Hdel, Hid'. cbn.
        apply Z.eqb_refl.
  - intros q -> Hnz Hnd.
    rewrite UpdateItem_run, Hfind. unfold check_SKU. cbn [UpdateItemRequest.SKU].
    unfold ret. rewrite Update_run_live.
    2:{ cbn. rewrite Hid. exact Hnz. }
    2:{ cbn. apply existsb_exists. exists item.
        split; [exact Hin | rewrite Hid at 2; exact Hcond]. }
    cbv zeta.
    replace (items_update_violation _ _) with (@None string).
    { eexists; split; [reflexivity|]. repeat split. }
    symmetry. unfold items_update_violation.
    replace (existsb _ _) with false; [reflexivity|].
    symmetry. apply not_true_is_false. intros Hex.
    apply existsb_exists in Hex. destruct Hex as [r [Hr Hc]].
    apply andb_prop in Hc. destruct Hc as [Hs Hne].
    apply String.eqb_eq in Hs. cbn in Hs, Hne.
    assert (r = item) as -> by (apply (NoDup_map_inj Item.SKU (items w)); auto).
    rewrite Z.eqb_refl in Hne. discriminate.
Qed.

End UpdateItemSpec.

(** ** Creating an item *)

Section CreateItemSpec.
Context {P : Platform}.

Lemma CreateItem_run (req : CreateItemRequest.t) (w : World) :
  CreateItem req w =
  let t1 := trace w ++ [InventoryRepository_FindBySKU (CreateItemRequest.SKU req)] in
  match live_by_SKU (CreateItemRequest.SKU req) (items w) with
  | Some _ =>
      (Err (errors_New "item with this SKU already exists"), with_trace t1 w)
  | None =>
      let t2 := t1 ++ [InventoryRepository_Create (item_of_request req)] in
      let item := created_item req w in
      match items_insert_violation (item_row item) (items w) with
      | Some c =>
          (Err (pg_unique_violation c),
           mkWorld (users w) (users_id_seq w) (items w) (items_id_seq w + 1)
             (S (ticks w)) (draws w) t2)
      | None =>
          (Ok item,
           mkWorld (users w) (users_id_seq w) (items w ++ [item_row item])
             (items_id_seq w + 1) (S (ticks w)) (draws w) t2)
      end
  end.
Proof.
  unfold CreateItem, bind at 1. rewrite FindBySKU_run. cbv zeta.
  destruct (live_by_SKU _ _); [reflexivity|].
  unfold inventoryRepository_Create, gorm_Create_Item, items_INSERT. unfold_M.
  cbn [Item.CreatedAt Item.UpdatedAt Item.ID Item.with_CreatedAt Item.with_UpdatedAt
       items with_trace with_ticks with_items_id_seq items_id_seq ticks].
  rewrite !Z.eqb_refl.
  cbn [Item.CreatedAt Item.UpdatedAt Item.ID Item.with_CreatedAt Item.with_UpdatedAt
       items with_trace with_ticks with_items_id_seq items_id_seq ticks
       with_items fst snd trace].
  rewrite <- !app_assoc.
  destruct (items_insert_violation _ _); reflexivity.
Qed.

Lemma existsb_false {A} (f : A -> bool) (l : list A) :
  (forall a, In a l -> f a = false) -> existsb f l = false.
Proof.
  intros H. apply not_true_is_false. intros E.
  apply existsb_exists in E. destruct E as [a [Ha Hf]].
  rewrite (H a Ha) in Hf. discriminate.
Qed.

Lemma live_by_SKU_Some (sku : string) (rows : list Item.t) (item : Item.t) :
  live_by_SKU sku rows = Some item ->
  In item rows /\ item_live item = true /\ Item.SKU item = sku.
Proof.
  intros H. apply first_where_Some in H. destruct H as [Hin Hc].
  apply andb_prop in Hc. destruct Hc as [Hl Hs].
  apply String.eqb_eq in Hs. auto.
Qed.

Lemma live_by_SKU_None (sku : string) (rows : list Item.t) :
  live_by_SKU sku rows = None <->
  (forall r, In r rows -> item_live r = true -> Item.SKU r <> sku).
Proof.
  unfold live_by_SKU. rewrite first_where_None. split.
  - intros H r Hin Hl E. specialize (H r Hin).
    rewrite Hl, E, String.eqb_refl in H. discriminate.
  - intros H r Hin. destruct (item_live r) eqn:Hl; [|reflexivity].
    simpl. apply String.eqb_neq. auto.
Qed.

(** X1. A request whose SKU a live item already has is turned down
    before anything is written: the result is "item with this SKU already
    exists", and neither the rows nor the key sequence change. *)
Lemma create_item_sku_conflict (req : CreateItemRequest.t) (w : World) :
  (exists item, In item (items w) /\ item_live item = true /\
                Item.SKU item = CreateItemRequest.SKU req) ->
  fst (CreateItem req w) = Err (errors_New "item with this SKU already exists") /\
  items (snd (CreateItem req w)) = items w /\
  items_id_seq (snd (CreateItem req w)) = items_id_seq w /\
  trace (snd (CreateItem req w)) =
    trace w ++ [InventoryRepository_FindBySKU (CreateItemRequest.SKU req)].
Proof.
  intros [item (Hin & Hl & Hs)].
  rewrite CreateItem_run. cbv zeta.
  destruct (live_by_SKU _ _) eqn:E; [repeat split|].
  exfalso. exact (proj1 (live_by_SKU_None _ _) E item Hin Hl Hs).
Qed.

(** X2. A request whose SKU no row has, live or deleted, creates an item
    under the next key of the sequence, and both [GetItemByID] and
    [FindBySKU] then find its row. *)
Lemma create_item_fresh_sku (req : CreateItemRequest.t) (w : World) :
  (forall r, In r (items w) -> Item.SKU r <> CreateItemRequest.SKU req) ->
  (forall r, In r (items w) -> Item.ID r <= items_id_seq w) ->
  let item := created_item req w in
  let w' := snd (CreateItem req w) in
  fst (CreateItem req w) = Ok item /\
  fst (GetItemByID (Item.ID item) w') = Ok (item_row item) /\
  fst (inventoryRepository_FindBySKU (CreateItemRequest.SKU req) w')
    = Ok (Some (item_row item)) /\
  same_content item (item_of_request req).
Proof.
  intros Hsku Hseq. cbv zeta.
  assert (live_by_SKU (CreateItemRequest.SKU req) (items w) = None) as Hnone.
  { apply live_by_SKU_None. intros r Hr _. auto. }
  assert (items_insert_violation (item_row (created_item req w)) (items w) = None) as Hv.
  { unfold items_insert_violation.
    rewrite existsb_false.
    2:{ intros r Hr. apply Z.eqb_neq. cbn. specialize (Hseq r Hr). lia. }
    rewrite existsb_false; [reflexivity|].
    intros r Hr. apply String.eqb_neq. cbn. auto. }
  rewrite CreateItem_run. cbv zeta. rewrite Hnone, Hv. cbn [fst snd].
  split; [reflexivity|].
  split; [|split; [|repeat split]].
  - rewrite GetItemByID_run. cbn [fst items].
    replace (live_by_ID _ _) with (Some (item_row (created_item req w)));
      [reflexivity|].
    symmetry. apply first_where_unique.
    + apply in_or_app. right. left. reflexivity.
    + cbn. apply Z.eqb_refl.
    + intros r' Hin Hc. apply in_app_or in Hin. destruct Hin as [Hin|[Hin|[]]]; [|auto].
      apply andb_prop in Hc. destruct Hc as [_ Hc]. apply Z.eqb_eq in Hc.
      cbn in Hc. specialize (Hseq r' Hin). lia.
  - rewrite FindBySKU_run. cbn [fst items]. f_equal.
    apply first_where_unique.
    + apply in_or_app. right. left. reflexivity.
    + cbn. apply String.eqb_refl.
    + intros r' Hin Hc. apply in_app_or in Hin. destruct Hin as [Hin|[Hin|[]]]; [|auto].
      apply andb_prop in Hc. destruct Hc as [_ Hc]. apply String.eqb_eq in Hc.
      exfalso. exact (Hsku r' Hin Hc).
Qed.

(** C6, where the code departs from it.  When the SKU of the request is
    that of no live item but of a soft-deleted one, the lookup by SKU finds
    nothing, [CreateItem] goes on to the INSERT, and the store turns it down
    on a unique index: no item is created, and what comes back is the
    store's error, not "item with this SKU already exists". *)
Theorem create_item_sku_of_deleted_item (req : CreateItemRequest.t) (w : World) :
  (forall r, In r (items w) -> item_live r = true ->
             Item.SKU r <> CreateItemRequest.SKU req) ->
  (exists r, In r (items w) /\ item_live r = false /\
             Item.SKU r = CreateItemRequest.SKU req) ->
  (exists c, fst (CreateItem req w) = Err (pg_unique_violation c)) /\
  items (snd (CreateItem req w)) = items w.
Proof.
  intros Hlive [r (Hin & _ & Hs)].
  apply live_by_SKU_None in Hlive.
  rewrite CreateItem_run. cbv zeta. rewrite Hlive.
  assert (exists c, items_insert_violation
                      (item_row (created_item req w)) (items w) = Some c) as [c Hc].
  { unfold items_insert_violation.
    destruct (existsb (fun r0 => Item.ID r0 =? _) _); [eauto|].
    replace (existsb _ (items w)) with true; [eauto|].
    symmetry. apply existsb_exists. exists r. split; [exact Hin|].
    cbn. apply String.eqb_eq. exact Hs. }
  rewrite Hc. cbn [fst snd items]. eauto.
Qed.

End CreateItemSpec.

(** ** The invariants of the inventory *)

Section InventoryInvariant.
Context {P : Platform}.

(** Keys that are distinct over all rows are distinct over the rows kept. *)
Lemma distinct_keys_of_kept {Row Key} (key : Row -> Key) (keep : Row -> bool)
    (rows : list Row) (Hnd : NoDup (map key rows)) :
  NoDup (map key (filter keep rows)).
Proof.
  induction rows as [|r rows IH]; [constructor|].
  simpl in Hnd. apply NoDup_cons_iff in Hnd. destruct Hnd as [Hfresh Hrest].
  simpl. destruct (keep r); simpl; [|exact (IH Hrest)].
  apply NoDup_cons; [|exact (IH Hrest)].
  intros Hin. apply Hfresh. apply in_map_iff in Hin.
  destruct Hin as [r' [E Hr']]. apply filter_In in Hr'.
  rewrite <- E. apply in_map. exact (proj1 Hr').
Qed.

Lemma inventory_ok_invariant (w : World) :
  inventory_ok w -> inventory_invariant w.
Proof.
  intros [[_ Hsku] Hnn]. split; [apply distinct_keys_of_kept; exact Hsku | exact Hnn].
Qed.

Lemma non_negative_content (a b : Item.t) :
  same_content a b -> non_negative b -> non_negative a.
Proof.
  unfold same_content, non_negative. intros (_&_&_&Hq&Hp&_) [H1 H2].
  rewrite Hq, Hp. auto.
Qed.

Lemma existsb_false_inv {A} (f : A -> bool) (l : list A) (a : A) :
  existsb f l = false -> In a l -> f a = false.
Proof.
  intros H Hin. destruct (f a) eqn:E; [|reflexivity].
  rewrite <- H. symmetry. apply existsb_exists. eauto.
Qed.

Lemma insert_violation_None (row : Item.t) (rows : list Item.t) :
  items_insert_violation row rows = None ->
  ~ In (Item.ID row) (map Item.ID rows) /\ ~ In (Item.SKU row) (map Item.SKU rows).
Proof.
  unfold items_insert_violation.
  destruct (existsb (fun r => Item.ID r =? Item.ID row) rows) eqn:E1; [discriminate|].
  destruct (existsb (fun r => String.eqb (Item.SKU r) (Item.SKU row)) rows) eqn:E2;
    [discriminate|].
  intros _. split; intros Hin; apply in_map_iff in Hin; destruct Hin as [r [E Hr]].
  - pose proof (existsb_false_inv _ _ r E1 Hr) as H. cbv beta in H.
    rewrite E, Z.eqb_refl in H. discriminate.
  - pose proof (existsb_false_inv _ _ r E2 Hr) as H. cbv beta in H.
    rewrite E, String.eqb_refl in H. discriminate.
Qed.

Lemma NoDup_snoc {A} (l : list A) (a : A) :
  NoDup l -> ~ In a l -> NoDup (l ++ [a]).
Proof.
  intros Hnd Hnotin. apply NoDup_app; [exact Hnd | repeat constructor; auto |].
  intros x Hx [E|[]]. subst. contradiction.
Qed.

(** An INSERT the store accepts keeps its constraints. *)
Lemma insert_keeps_constraints (row : Item.t) (rows : list Item.t) :
  items_constraints rows ->
  items_insert_violation row rows = None ->
  items_constraints (rows ++ [row]).
Proof.
  intros [Hid Hsku] Hv. apply insert_violation_None in Hv. destruct Hv as [H1 H2].
  split; rewrite map_app; simpl; apply NoDup_snoc; auto.
Qed.

Lemma update_violation_None (row : Item.t) (rows : list Item.t) (r : Item.t) :
  items_update_violation row rows = None ->
  In r rows -> Item.SKU r = Item.SKU row -> Item.ID r = Item.ID row.
Proof.
  unfold items_update_violation.
  destruct (existsb _ rows) eqn:E; [discriminate|].
  intros _ Hin Hs.
  pose proof (existsb_false_inv _ _ r E Hin) as H. cbv beta in H.
  rewrite Hs, String.eqb_refl in H. simpl in H.
  apply negb_false_iff in H. apply Z.eqb_eq in H. exact H.
Qed.

(** An UPDATE of the row with [row]'s key that the store accepts keeps its
    constraints. *)
Lemma update_keeps_constraints (c : Item.t -> bool) (row : Item.t) (rows : list Item.t) :
  items_constraints rows ->
  items_update_violation row rows = None ->
  (forall r, c r = true -> Item.ID r = Item.ID row) ->
  items_constraints (map (fun r => if c r then row else r) rows).
Proof.
  intros [Hid Hsku] Hv Hc.
  assert (map Item.ID (map (fun r => if c r then row else r) rows) = map Item.ID rows)
    as EID.
  { rewrite map_map. apply map_ext_in. intros r _.
    destruct (c r) eqn:E; [symmetry; auto | reflexivity]. }
  split; [rewrite EID; exact Hid|].
  pose proof (fun r => update_violation_None row rows r Hv) as Hother. clear Hv EID.
  induction rows as [|a rs IH]; simpl; [constructor|].
  inversion Hid as [|? ? Hida Hidrs]; subst.
  inversion Hsku as [|? ? Hskua Hskurs]; subst.
  assert (forall r, In r rs -> Item.SKU r = Item.SKU row -> Item.ID r = Item.ID row)
    as Hother' by (intros r Hr; apply Hother; right; exact Hr).
  constructor; [|apply IH; auto].
  intros Hin. apply in_map_iff in Hin. destruct Hin as [x [E Hx]].
  apply in_map_iff in Hx. destruct Hx as [r [Er Hr]]. subst x.
  destruct (c a) eqn:Ca, (c r) eqn:Cr.
  - apply Hida. rewrite (Hc a Ca), <- (Hc r Cr). apply in_map. exact Hr.
  - apply Hida. rewrite (Hc a Ca), <- (Hother' r Hr E). apply in_map. exact Hr.
  - apply Hida. rewrite (Hother a (or_introl eq_refl) (eq_sym E)), <- (Hc r Cr).
    apply in_map. exact Hr.
  - apply Hskua. rewrite <- E. apply in_map. exact Hr.
Qed.

Lemma Forall_map_if {A} (Q : A -> Prop) (c : A -> bool) (row : A) (rows : list A) :
  Forall Q rows -> Q row -> Forall Q (map (fun r => if c r then row else r) rows).
Proof.
  intros H Hrow. induction H; simpl; constructor; auto.
  destruct (c x); auto.
Qed.

Lemma Forall_snoc {A} (Q : A -> Prop) (rows : list A) (row : A) :
  Forall Q rows -> Q row -> Forall Q (rows ++ [row]).
Proof. intros H Hrow. apply Forall_app. auto. Qed.

(** What [db.Create] leaves in table "items": the rows as they were, or one
    more row, accepted by the store, with the content of the struct. *)
Lemma gorm_Create_Item_items (item : Item.t) (w : World) :
  items (snd (gorm_Create_Item item w)) = items w \/
  exists row,
    same_content row item /\
    items_insert_violation row (items w) = None /\
    items (snd (gorm_Create_Item item w)) = items w ++ [row].
Proof.
  unfold gorm_Create_Item, items_INSERT. unfold_M.
  repeat (case_split; cbn [fst snd items with_items with_ticks with_items_id_seq]);
    try (left; reflexivity);
    right; eexists; (split; [|split; [eassumption|reflexivity]]); repeat split.
Qed.

(** What [db.Save] leaves in table "items". *)
Lemma Update_items (item : Item.t) (w : World) :
  let rows' := items (snd (inventoryRepository_Update item w)) in
  rows' = items w \/
  (exists row,
     same_content row item /\
     items_insert_violation row (items w) = None /\
     rows' = items w ++ [row]) \/
  (exists row c,
     same_content row item /\
     items_update_violation row (items w) = None /\
     (forall r, c r = true -> Item.ID r = Item.ID row) /\
     rows' = map (fun r => if c r then row else r) (items w)).
Proof.
  cbv zeta. unfold inventoryRepository_Update, gorm_Save_Item.
  destruct (Item.ID item =? 0) eqn:E0.
  - unfold bind at 1, log, modify. cbn beta iota.
    destruct (gorm_Create_Item_items item
                (with_trace (trace w ++ [InventoryRepository_Update item]) w))
      as [H|H]; [left|right; left]; exact H.
  - unfold items_INSERT. unfold_M.
    repeat (case_split; cbn [fst snd items with_items with_ticks with_trace]);
      try (left; reflexivity).
    all: try (right; left; eexists;
              split; [|split; [eassumption|reflexivity]]; repeat split).
    all: right; right; unfold items_replace;
      exists (item_row (Item.with_UpdatedAt (wall_clock (ticks w)) item)).
    + exists (fun r => item_live r && (Item.ID r =? Item.ID item)).
      split; [repeat split|]. split; [eassumption|]. split; [|reflexivity].
      intros r Hr. apply andb_prop in Hr. destruct Hr as [_ Hr].
      apply Z.eqb_eq in Hr. exact Hr.
    + exists (fun r => Item.ID r =? Item.ID item).
      split; [repeat split|]. split; [eassumption|]. split; [|reflexivity].
      intros r Hr. apply Z.eqb_eq in Hr. exact Hr.
Qed.

(** [db.Save] of a struct whose quantity and price are not negative keeps
    the store in order. *)
Lemma Update_keeps_ok (item : Item.t) (w : World) :
  inventory_ok w -> non_negative item ->
  inventory_ok (snd (inventoryRepository_Update item w)).
Proof.
  intros [Hc Hnn] Hitem. unfold inventory_ok.
  destruct (Update_items item w) as [E|[(row & Hs & Hv & E)|(row & c & Hs & Hv & Hk & E)]];
    cbv zeta in E; rewrite E.
  - auto.
  - split; [apply insert_keeps_constraints; auto|].
    apply Forall_snoc; [exact Hnn|]. exact (non_negative_content _ _ Hs Hitem).
  - split; [apply update_keeps_constraints; auto|].
    apply Forall_map_if; [exact Hnn|]. exact (non_negative_content _ _ Hs Hitem).
Qed.

(** *** What the binding rules guarantee *)

Lemma field_errors_one (field tag param : string) (ok : bool) :
  field_errors field [(tag, param, ok)] = [] -> ok = true.
Proof. simpl. destruct ok; [reflexivity|discriminate]. Qed.

(** A [CreateItemRequest] that passes its binding rules has a quantity and a
    price that are not negative. *)
Lemma validate_CreateItemRequest_non_negative (req : CreateItemRequest.t) :
  validate_CreateItemRequest req = [] ->
  non_negative (item_of_request req).
Proof.
  unfold validate_CreateItemRequest. intros H.
  repeat (apply app_eq_nil in H; destruct H as [? H]).
  match goal with
  | Hq : field_errors "Quantity" _ = [], Hp : field_errors "Price" _ = [] |- _ =>
      apply field_errors_one in Hq; apply field_errors_one in Hp;
      split; cbn; [apply Z.leb_le; exact Hq | exact Hp]
  end.
Qed.

(** An [UpdateItemRequest] that passes its binding rules supplies no
    negative quantity and no negative price. *)
Lemma validate_UpdateItemRequest_non_negative (req : UpdateItemRequest.t) :
  validate_UpdateItemRequest req = [] ->
  (forall q, UpdateItemRequest.Quantity req = Some q -> 0 <= q) /\
  (forall p, UpdateItemRequest.Price req = Some p -> PrimFloat.leb 0%float p = true).
Proof.
  unfold validate_UpdateItemRequest. intros H.
  repeat (apply app_eq_nil in H; destruct H as [? H]).
  split.
  - intros q E. rewrite E in *. cbn [omitempty] in *.
    match goal with
    | Hq : field_errors "Quantity" _ = [] |- _ =>
        apply field_errors_one in Hq; apply Z.leb_le; exact Hq
    end.
  - intros p E. rewrite E in *. cbn [omitempty] in *.
    match goal with
    | Hp : field_errors "Price" _ = [] |- _ =>
        apply field_errors_one in Hp; exact Hp
    end.
Qed.

Lemma assign_fields_non_negative (req : UpdateItemRequest.t) (item : Item.t) :
  validate_UpdateItemRequest req = [] ->
  non_negative item -> non_negative (assign_fields req item).
Proof.
  intros Hv [Hq Hp]. apply validate_UpdateItemRequest_non_negative in Hv.
  destruct Hv as [Vq Vp].
  pose proof (assign_fields_frame req item) as (_ & _ & _ & _ & _ & FQ & FP & _).
  pose proof (assign_fields_set req item) as (_ & _ & SQ & SP & _).
  split.
  - destruct (UpdateItemRequest.Quantity req) as [q|] eqn:E.
    + rewrite (SQ q eq_refl). auto.
    + rewrite (FQ eq_refl). exact Hq.
  - destruct (UpdateItemRequest.Price req) as [p|] eqn:E.
    + rewrite (SP p eq_refl). auto.
    + rewrite (FP eq_refl). exact Hp.
Qed.

(** *** Each operation of the service keeps the store in order *)

Lemma inventory_ok_items (w w' : World) :
  items w' = items w -> inventory_ok w -> inventory_ok w'.
Proof. unfold inventory_ok. intros ->. auto. Qed.

Lemma CreateItem_keeps_ok (req : CreateItemRequest.t) (w : World) :
  inventory_ok w ->
  validate_CreateItemRequest req = [] ->
  inventory_ok (snd (CreateItem req w)).
Proof.
  intros Hok Hv. rewrite CreateItem_run. cbv zeta.
  destruct (live_by_SKU _ _); [exact Hok|].
  destruct (items_insert_violation _ _) eqn:E; [exact Hok|].
  destruct Hok as [Hc Hnn]. split; cbn [snd items].
  - apply insert_keeps_constraints; auto.
  - apply Forall_snoc; [exact Hnn|].
    apply (non_negative_content _ (item_of_request req)); [repeat split|].
    apply validate_CreateItemRequest_non_negative. exact Hv.
Qed.

Lemma check_SKU_items (req : UpdateItemRequest.t) (item : Item.t) (w : World) :
  items (snd (check_SKU req item w)) = items w.
Proof.
  unfold check_SKU. destruct (UpdateItemRequest.SKU req) as [sku|]; [|reflexivity].
  destruct (negb _); [|reflexivity].
  unfold bind. rewrite FindBySKU_run.
  destruct (live_by_SKU _ _); reflexivity.
Qed.

Lemma UpdateItem_keeps_ok (id : Z) (req : UpdateItemRequest.t) (w : World) :
  inventory_ok w ->
  validate_UpdateItemRequest req = [] ->
  inventory_ok (snd (UpdateItem id req w)).
Proof.
  intros Hok Hv. rewrite UpdateItem_run.
  destruct (live_by_ID id (items w)) as [item|] eqn:Hfind; [|exact Hok].
  pose proof (check_SKU_items req item
                (with_trace (trace w ++ [InventoryRepository_FindByID id]) w)) as Hitems.
  destruct (check_SKU req item _) as [[item1|e] w1] eqn:Hsku; cbn [snd] in *.
  - apply Update_keeps_ok.
    + apply (inventory_ok_items w); auto.
    + apply assign_fields_non_negative; [exact Hv|].
      apply check_SKU_Ok in Hsku.
      destruct Hsku as (_ & _ & _ & _ & _ & _ & HQ & HP & _).
      apply live_by_ID_Some in Hfind. destruct Hfind as (Hin & _).
      destruct Hok as [_ Hnn]. rewrite Forall_forall in Hnn.
      destruct (Hnn item Hin) as [Hq Hp].
      split; [rewrite HQ|rewrite HP]; assumption.
  - apply (inventory_ok_items w); auto.
Qed.

Lemma soft_delete_SKU (now id : Z) (r : Item.t) :
  Item.SKU (soft_delete now id r) = Item.SKU r.
Proof. unfold soft_delete. destruct (_ && _); reflexivity. Qed.

Lemma soft_delete_non_negative (now id : Z) (r : Item.t) :
  non_negative r -> non_negative (soft_delete now id r).
Proof. unfold soft_delete. destruct (_ && _); auto. Qed.

Lemma DeleteItem_keeps_ok (id : Z) (w : World) :
  inventory_ok w -> inventory_ok (snd (DeleteItem id w)).
Proof.
  intros Hok. rewrite DeleteItem_run.
  destruct (live_by_ID id (items w)); [|exact Hok].
  destruct Hok as [[Hid Hsku] Hnn]. cbn [snd]. unfold inventory_ok, items_constraints.
  cbn [items]. rewrite !map_map.
  rewrite (map_ext _ Item.ID (soft_delete_ID _ id)).
  rewrite (map_ext _ Item.SKU (soft_delete_SKU _ id)).
  repeat split; auto.
  apply Forall_forall. intros r Hr. apply in_map_iff in Hr.
  destruct Hr as [r0 [<- Hr0]]. apply soft_delete_non_negative.
  rewrite Forall_forall in Hnn. auto.
Qed.

End InventoryInvariant.

(** ** Tokens *)

Section TokenFacts.
Context {P : Platform}.

(** *** Numbers through JSON *)

(** Integers up to [2 ^ 53] in magnitude are binary64 numbers. *)
Lemma round_binary64_exact (n : Z) :
  Z.abs n <= 2 ^ 53 -> round_binary64 n = n.
Proof.
  intros H. unfold round_binary64.
  destruct (Z.eq_dec (Z.abs n) (2 ^ 53)) as [E|E].
  - rewrite E. destruct (Z.abs_spec n) as [[_ A]|[_ A]].
    + rewrite A in E. subst n. reflexivity.
    + assert (n = - 2 ^ 53) as -> by lia. reflexivity.
  - assert (Z.log2 (Z.abs n) < 53) as L.
    { destruct (Z.eq_dec (Z.abs n) 0) as [Z0|Z0].
      - rewrite Z0. simpl. lia.
      - apply Z.log2_lt_pow2; lia. }
    apply Z.ltb_lt in L. rewrite L. reflexivity.
Qed.

(** Rounding to binary64 at most doubles the magnitude. *)
Lemma round_binary64_bound (n : Z) (k : Z) :
  53 <= k -> Z.abs n < 2 ^ k -> Z.abs (round_binary64 n) <= 2 ^ k.
Proof.
  intros Hk Hn. unfold round_binary64.
  destruct (Z.log2 (Z.abs n) <? 53) eqn:L; [lia|].
  apply Z.ltb_ge in L.
  set (a := Z.abs n) in *. set (e := Z.log2 a) in *. set (s := e - 52).
  assert (0 < a) as Ha.
  { destruct (Z.eq_dec a 0) as [Z0|Z0]; [|lia].
    unfold e in L. rewrite Z0 in L. simpl in L. lia. }
  assert (e < k) as Hek by (apply Z.log2_lt_pow2; assumption).
  assert (0 < s) as Hs by (unfold s; lia).
  pose proof (Z.log2_spec a Ha) as [Hlo Hhi]. fold e in Hlo, Hhi.
  rewrite Z.shiftr_div_pow2 by lia.
  rewrite !Z.shiftl_mul_pow2 by lia.
  set (q := a / 2 ^ s).
  assert (0 < 2 ^ s) as Hps by (apply Z.pow_pos_nonneg; lia).
  assert (q < 2 ^ 53) as Hq.
  { unfold q. apply Z.div_lt_upper_bound; [exact Hps|].
    rewrite <- Z.pow_add_r by lia.
    replace (s + 53) with (Z.succ e) by (unfold s; lia). exact Hhi. }
  assert (0 <= q) as Hq0 by (unfold q; apply Z.div_pos; lia).
  assert (2 ^ 53 * 2 ^ s <= 2 ^ k) as Hbound.
  { rewrite <- Z.pow_add_r by lia. apply Z.pow_le_mono_r; unfold s; lia. }
  match goal with
  | |- Z.abs (_ * (?q' * _)) <= _ =>
      assert (0 <= q' <= 2 ^ 53) as Hq'
        by (repeat match goal with
                   | |- context [if ?c then _ else _] => destruct c
                   end; lia);
      set (q1 := q') in *
  end.
  rewrite Z.abs_mul.
  assert (Z.abs (Z.sgn n) <= 1) as Hsg by (destruct n; simpl; lia).
  rewrite (Z.abs_eq (q1 * 2 ^ s)) by nia.
  nia.
Qed.

(** A number that fits 64 bits decodes. *)
Lemma float64_of_literal_64 (n : Z) :
  Z.abs n < 2 ^ 64 -> float64_of_literal n = Some (round_binary64 n).
Proof.
  intros H. unfold float64_of_literal.
  assert (53 <= 64) as H53 by lia.
  pose proof (round_binary64_bound n 64 H53 H) as B.
  assert (2 ^ 64 < 2 ^ 1024) as Hlt by (apply Z.pow_lt_mono_r; lia).
  assert ((Z.abs (round_binary64 n) <? 2 ^ 1024) = true) as ->
    by (apply Z.ltb_lt; lia).
  reflexivity.
Qed.

Lemma wrap_int64_range (z : Z) : - 2 ^ 63 <= wrap_int64 z < 2 ^ 63.
Proof.
  unfold wrap_int64.
  assert (0 < 2 ^ 64) as Hpos by lia.
  pose proof (Z.mod_pos_bound (z + 2 ^ 63) (2 ^ 64) Hpos). lia.
Qed.

(** *** Validation, step by step *)

Lemma GetSigningMethod_HMAC (h : crypto_Hash) :
  GetSigningMethod (Alg (SigningMethodHMAC h)) = Some (SigningMethodHMAC h).
Proof. destruct h; reflexivity. Qed.

(** [ValidateToken] reads the clock at most once and touches nothing else. *)
Lemma ValidateToken_world (s : authService) (ts : tokenString) (w : World) :
  snd (ValidateToken s ts w) = w \/
  snd (ValidateToken s ts w) = with_ticks (S (ticks w)) w.
Proof.
  unfold ValidateToken, Parse, Validate. unfold_M.
  destruct (ParseUnverified ts) as [token|e]; [|left; reflexivity].
  destruct (keyFunc s token); [|left; reflexivity].
  destruct ts as [raw|hd c [sig|]]; try (left; reflexivity).
  destruct (Verify _ _ _ _); [left; reflexivity|].
  cbn [Token.Claims Token.with_Signature].
  destruct (verifyExpiresAt _ _ ++ verifyNotBefore _ _); right; reflexivity.
Qed.

(** On a token signed under the secret with an HMAC method, validation
    comes down to the claims. *)
Lemma ValidateToken_signed (s : authService) (h : crypto_Hash)
    (hd c : list (string * json_text)) (header claims : MapClaims) (w : World) :
  json_Unmarshal hd = Some header ->
  map_get "alg" header = Some (GoString (Alg (SigningMethodHMAC h))) ->
  json_Unmarshal c = Some claims ->
  ValidateToken s (signed_with s h hd c) w =
  (match claims_errors claims (wall_clock (ticks w)) with
   | [] =>
       Ok (Token.mk (signed_with s h hd c) (SigningMethodHMAC h) header claims
             (hmac_Sum h (jwtSecret s) (signing_input hd c)) true)
   | errs => Err (jwt_newError "" ErrTokenInvalidClaims errs)
   end,
   with_ticks (S (ticks w)) w).
Proof.
  intros Hhd Halg Hc.
  unfold ValidateToken, Parse, ParseUnverified, signed_with, bind at 1 2, lift.
  rewrite Hhd, Hc, Halg, GetSigningMethod_HMAC.
  cbn [keyFunc Token.Method Token.with_Signature Verify].
  rewrite String.eqb_refl.
  unfold Validate, claims_errors. unfold_M. cbn [Token.Claims].
  destruct (verifyExpiresAt _ _ ++ verifyNotBefore _ _); reflexivity.
Qed.

Lemma GetSigningMethod_Some (alg : string) (m : SigningMethod) :
  GetSigningMethod alg = Some m -> Alg m = alg.
Proof.
  unfold GetSigningMethod. intros H. apply find_some in H.
  destruct H as [_ H]. apply String.eqb_eq. exact H.
Qed.

(** The tokens [ValidateToken] accepts: exactly those signed under the
    secret with an HMAC method whose claims pass at the time of the call. *)
Lemma ValidateToken_Ok_inv (s : authService) (ts : tokenString) (w : World)
    (token : Token.t) :
  fst (ValidateToken s ts w) = Ok token ->
  exists h hd c header claims,
    ts = signed_with s h hd c /\
    json_Unmarshal hd = Some header /\
    map_get "alg" header = Some (GoString (Alg (SigningMethodHMAC h))) /\
    json_Unmarshal c = Some claims /\
    claims_errors claims (wall_clock (ticks w)) = [] /\
    Token.Claims token = claims /\
    Token.Method token = SigningMethodHMAC h.
Proof.
  unfold ValidateToken, Parse, ParseUnverified. unfold_M.
  destruct ts as [raw|hd c sig]; [discriminate|].
  destruct (json_Unmarshal hd) as [header|] eqn:Hhd; [|discriminate].
  destruct (json_Unmarshal c) as [claims|] eqn:Hc; [|discriminate].
  destruct (map_get "alg" header) as [[| | |alg| | |]|] eqn:Halg; try discriminate.
  destruct (GetSigningMethod alg) as [m|] eqn:Hm; [|discriminate].
  apply GetSigningMethod_Some in Hm.
  unfold keyFunc. cbn [Token.Method].
  destruct m as [h|h|h|h| |]; try discriminate.
  destruct sig as [sig|]; [|discriminate].
  cbn [Token.with_Signature Token.Method Verify].
  destruct (String.eqb sig _) eqn:Hsig; [|discriminate].
  apply String.eqb_eq in Hsig.
  unfold Validate. unfold_M.
  cbn [Token.Claims Token.with_Signature Token.Raw Token.Method Token.Header
       Token.Valid Token.Signature].
  match goal with
  | |- context [verifyExpiresAt claims ?t ++ verifyNotBefore claims ?t] =>
      destruct (verifyExpiresAt claims t ++ verifyNotBefore claims t) eqn:Herrs;
        [|discriminate]
  end.
  cbn. intros H. inversion H; subst token; clear H.
  exists h, hd, c, header, claims. unfold signed_with, claims_errors.
  subst sig. rewrite <- Hm in Halg. repeat split; auto.
Qed.

(** A token whose claims carry an expiry that is not in the future does not
    pass the validator's check of the claims. *)
Lemma expired_claims_errors (claims : MapClaims) (exp now : Z) :
  GetExpirationTime claims = Ok (Some exp) ->
  exp <= now ->
  In (jwt_Err ErrTokenExpired) (claims_errors claims now).
Proof.
  intros He Hle. unfold claims_errors, verifyExpiresAt. rewrite He.
  unfold time_Before. assert ((now <? exp) = false) as -> by (apply Z.ltb_ge; lia).
  left. reflexivity.
Qed.

End TokenFacts.

(** ** What a failed validation shows *)

Section ValidationSpec.
Context {P : Platform}.

(** The middleware's answer when [ValidateToken] fails. *)
Lemma Auth_on_failure (s : authService) (ts : tokenString) (w : World) (e : error) :
  fst (ValidateToken s ts w) = Err e ->
  fst (Auth s (HeaderBearer ts) w) = Abort unauthorized.
Proof.
  intros He. unfold Auth.
  destruct (ValidateToken s ts w) as [r w']. cbn [fst] in He. subst r. reflexivity.
Qed.

(** C4. Whatever makes [ValidateToken] fail, the middleware answers the
    request with the same response: status 401, "Invalid or expired token".
    A malformed token string, a signing method that is not one of the HMAC
    methods, a signature that does not verify under the secret, and an
    expiry that is not in the future each make it fail. *)
Theorem validate_failure_is_generic (s : authService) (ts : tokenString) (w : World) :
  (forall e, fst (ValidateToken s ts w) = Err e ->
             fst (Auth s (HeaderBearer ts) w) = Abort unauthorized)
  /\
  (forall raw, ts = Malformed raw ->
               fst (Auth s (HeaderBearer ts) w) = Abort unauthorized)
  /\
  (forall hd c sig header alg,
     ts = Segments hd c sig ->
     json_Unmarshal hd = Some header ->
     map_get "alg" header = Some (GoString alg) ->
     (forall h, alg <> Alg (SigningMethodHMAC h)) ->
     fst (Auth s (HeaderBearer ts) w) = Abort unauthorized)
  /\
  (forall hd c sig,
     ts = Segments hd c (Some sig) ->
     (forall h, sig <> hmac_Sum h (jwtSecret s) (signing_input hd c)) ->
     fst (Auth s (HeaderBearer ts) w) = Abort unauthorized)
  /\
  (forall hd c sig claims expiresAt,
     ts = Segments hd c sig ->
     json_Unmarshal c = Some claims ->
     GetExpirationTime claims = Ok (Some expiresAt) ->
     expiresAt <= wall_clock (ticks w) ->
     fst (Auth s (HeaderBearer ts) w) = Abort unauthorized).
Proof.
  pose proof (Auth_on_failure s ts w) as Hgen.
  assert ((forall token, fst (ValidateToken s ts w) <> Ok token) ->
          fst (Auth s (HeaderBearer ts) w) = Abort unauthorized) as Hno.
  { intros Hn. destruct (fst (ValidateToken s ts w)) as [token|e] eqn:E.
    - exfalso. exact (Hn token eq_refl).
    - exact (Hgen e eq_refl). }
  split; [exact Hgen|].
  split; [|split; [|split]].
  - intros raw ->. apply Hno. intros token Hok.
    apply ValidateToken_Ok_inv in Hok.
    destruct Hok as (h & hd & c & header & claims & E & _). discriminate.
  - intros hd c sig header alg -> Hhd Halg Hnot. apply Hno. intros token Hok.
    apply ValidateToken_Ok_inv in Hok.
    destruct Hok as (h & hd' & c' & header' & claims & E & Hhd' & Halg' & _).
    inversion E; subst. rewrite Hhd in Hhd'. inversion Hhd'; subst.
    rewrite Halg in Halg'. inversion Halg'. exact (Hnot h H0).
  - intros hd c sig -> Hnot. apply Hno. intros token Hok.
    apply ValidateToken_Ok_inv in Hok.
    destruct Hok as (h & hd' & c' & header' & claims & E & _).
    inversion E; subst. exact (Hnot h eq_refl).
  - intros hd c sig claims expiresAt -> Hc Hexp Hle. apply Hno. intros token Hok.
    apply ValidateToken_Ok_inv in Hok.
    destruct Hok as (h & hd' & c' & header' & claims' & E & _ & _ & Hc' & Herrs & _).
    inversion E; subst. rewrite Hc in Hc'. inversion Hc'; subst.
    pose proof (expired_claims_errors _ _ _ Hexp Hle) as Hin.
    rewrite Herrs in Hin. destruct Hin.
Qed.


End ValidationSpec.

(** ** Issuing a token *)

Section IssueSpec.
Context {P : Platform}.

Lemma generateToken_run (s : authService) (userID : Z) (w : World) :
  generateToken s userID w =
  (Ok (signed_with s SHA256 issued_header (issued_claims s userID (ticks w))),
   with_ticks (S (S (ticks w))) w).
Proof. reflexivity. Qed.

(** C10. The service signs its tokens with HS256, but [ValidateToken]
    accepts a token signed under the secret with any HMAC method, HS384 and
    HS512 as well: the key function asks only that the method be an HMAC
    method. *)
Theorem validate_accepts_any_hmac_method (s : authService) (h : crypto_Hash)
    (hd c : list (string * json_text)) (header claims : MapClaims) (w : World) :
  json_Unmarshal hd = Some header ->
  map_get "alg" header = Some (GoString (Alg (SigningMethodHMAC h))) ->
  json_Unmarshal c = Some claims ->
  claims_errors claims (wall_clock (ticks w)) = [] ->
  (exists token,
     fst (ValidateToken s (signed_with s h hd c) w) = Ok token /\
     Token.Method token = SigningMethodHMAC h /\
     Token.Valid token = true) /\
  (forall userID w0, exists claims0,
     fst (generateToken s userID w0) = Ok (signed_with s SHA256 issued_header claims0)).
Proof.
  intros Hhd Halg Hc Herrs. split.
  - rewrite (ValidateToken_signed s h hd c header claims w Hhd Halg Hc), Herrs.
    cbn [fst]. eexists. repeat split.
  - intros userID w0. rewrite generateToken_run. cbn [fst]. eauto.
Qed.

End IssueSpec.

(** ** The authentication service, step by step *)

Section AuthFacts.
Context {P : Platform}.

Lemma FindByUsername_run (username : string) (w : World) :
  userRepository_FindByUsername username w =
  (Ok (live_by_Username username (users w)),
   with_trace (trace w ++ [UserRepository_FindByUsername username]) w).
Proof.
  unfold userRepository_FindByUsername, gorm_First_User, live_by_Username.
  unfold_M. simpl. destruct (first_by_pk _ _); reflexivity.
Qed.

Lemma FindByEmail_run (email : string) (w : World) :
  userRepository_FindByEmail email w =
  (Ok (live_by_Email email (users w)),
   with_trace (trace w ++ [UserRepository_FindByEmail email]) w).
Proof.
  unfold userRepository_FindByEmail, gorm_First_User, live_by_Email.
  unfold_M. simpl. destruct (first_by_pk _ _); reflexivity.
Qed.

Lemma live_by_Username_None (username : string) (rows : list User.t) :
  live_by_Username username rows = None <->
  (forall r, In r rows -> user_live r = true -> User.Username r <> username).
Proof.
  unfold live_by_Username. rewrite first_where_None. split.
  - intros H r Hin Hl E. specialize (H r Hin).
    rewrite Hl, E, String.eqb_refl in H. discriminate.
  - intros H r Hin. destruct (user_live r) eqn:Hl; [|reflexivity].
    simpl. apply String.eqb_neq. auto.
Qed.

Lemma live_by_Username_found (username : string) (rows : list User.t) (u : User.t) :
  In u rows -> user_live u = true -> User.Username u = username ->
  exists u', live_by_Username username rows = Some u'.
Proof.
  intros Hin Hl Hn. apply (first_where_found User.ID _ rows u Hin).
  rewrite Hl, Hn, String.eqb_refl. reflexivity.
Qed.

Lemma live_by_Email_None (email : string) (rows : list User.t) :
  live_by_Email email rows = None <->
  (forall r, In r rows -> user_live r = true -> User.Email r <> email).
Proof.
  unfold live_by_Email. rewrite first_where_None. split.
  - intros H r Hin Hl E. specialize (H r Hin).
    rewrite Hl, E, String.eqb_refl in H. discriminate.
  - intros H r Hin. destruct (user_live r) eqn:Hl; [|reflexivity].
    simpl. apply String.eqb_neq. auto.
Qed.

Lemma live_by_Email_found (email : string) (rows : list User.t) (u : User.t) :
  In u rows -> user_live u = true -> User.Email u = email ->
  exists u', live_by_Email email rows = Some u'.
Proof.
  intros Hin Hl Hn. apply (first_where_found User.ID _ rows u Hin).
  rewrite Hl, Hn, String.eqb_refl. reflexivity.
Qed.

(** Under the unique index on [username], the live user with a name is the
    one a lookup by that name finds. *)
Lemma live_by_Username_unique (rows : list User.t) (u : User.t) :
  NoDup (map User.Username rows) ->
  In u rows -> user_live u = true ->
  live_by_Username (User.Username u) rows = Some u.
Proof.
  intros Hnd Hin Hl. apply first_where_unique.
  - exact Hin.
  - rewrite Hl, String.eqb_refl. reflexivity.
  - intros r Hr Hc. apply andb_prop in Hc. destruct Hc as [_ Hc].
    apply String.eqb_eq in Hc.
    apply (NoDup_map_inj User.Username rows); auto.
Qed.

Lemma Login_run (s : authService) (req : LoginRequest.t) (w : World) :
  Login s req w =
  let t1 := trace w ++ [UserRepository_FindByUsername (LoginRequest.Username req)] in
  match live_by_Username (LoginRequest.Username req) (users w) with
  | None => (Err invalid_credentials, with_trace t1 w)
  | Some user =>
      let t2 := t1 ++ [bcrypt_CompareHashAndPassword_call
                         (User.Password user) (LoginRequest.Password req)] in
      match bcrypt_CompareHashAndPassword (User.Password user)
              (LoginRequest.Password req) with
      | Some _ => (Err invalid_credentials, with_trace t2 w)
      | None =>
          (Ok (LoginResponse.mk
                 (signed_with s SHA256 issued_header
                    (issued_claims s (User.ID user) (ticks w)))
                 user),
           with_ticks (S (S (ticks w))) (with_trace t2 w))
      end
  end.
Proof.
  unfold Login, bind at 1. rewrite FindByUsername_run. cbv zeta.
  destruct (live_by_Username _ _) as [user|]; [|reflexivity].
  unfold bcrypt_Compare. unfold_M.
  cbn [trace with_trace].
  destruct (bcrypt_CompareHashAndPassword _ _); [reflexivity|].
  rewrite generateToken_run. reflexivity.
Qed.

Lemma Register_run (s : authService) (req : RegisterRequest.t) (w : World) :
  Register s req w =
  let t1 := trace w ++ [UserRepository_FindByUsername (RegisterRequest.Username req)] in
  match live_by_Username (RegisterRequest.Username req) (users w) with
  | Some _ => (Err (errors_New "username already exists"), with_trace t1 w)
  | None =>
      let t2 := t1 ++ [UserRepository_FindByEmail (RegisterRequest.Email req)] in
      match live_by_Email (RegisterRequest.Email req) (users w) with
      | Some _ => (Err (errors_New "email already exists"), with_trace t2 w)
      | None =>
          let t3 := t2 ++ [bcrypt_GenerateFromPassword_call
                             (RegisterRequest.Password req)] in
          match bcrypt_hash (RegisterRequest.Password req) bcrypt_DefaultCost
                  (rand_salt (draws w)) with
          | Err e => (Err e, with_draws (S (draws w)) (with_trace t3 w))
          | Ok hashedPassword =>
              userRepository_Create (user_of_request req hashedPassword)
                (with_draws (S (draws w)) (with_trace t3 w))
          end
      end
  end.
Proof.
  unfold Register, bind at 1. rewrite FindByUsername_run. cbv zeta.
  destruct (live_by_Username _ _); [reflexivity|].
  unfold bind at 1. rewrite FindByEmail_run. cbn [users with_trace trace].
  destruct (live_by_Email _ _); [reflexivity|].
  unfold bcrypt_GenerateFromPassword. unfold bind at 1 2 3 4. unfold log, modify, gets, lift.
  cbn [draws with_trace trace].
  destruct (bcrypt_hash _ _ _); reflexivity.
Qed.

(** What [Create] on the user repository does to the world: it logs the
    call, reads the clock, takes a key from the sequence, and appends the
    row unless the store turns it down. *)
Lemma userRepository_Create_run (hashedPassword : string) (req : RegisterRequest.t)
    (w : World) :
  let user0 := user_of_request req hashedPassword in
  let user := User.with_ID (users_id_seq w + 1)
                (User.with_UpdatedAt (wall_clock (ticks w))
                   (User.with_CreatedAt (wall_clock (ticks w)) user0)) in
  let w1 := with_users_id_seq (users_id_seq w + 1)
              (with_ticks (S (ticks w))
                 (with_trace (trace w ++ [UserRepository_Create user0]) w)) in
  userRepository_Create user0 w =
  match users_insert_violation (user_row user) (users w) with
  | Some c => (Err (pg_unique_violation c), w1)
  | None => (Ok user, with_users (users w ++ [user_row user]) w1)
  end.
Proof.
  cbv zeta. unfold userRepository_Create, gorm_Create_User. unfold_M.
  cbn [User.CreatedAt User.UpdatedAt User.ID User.with_CreatedAt User.with_UpdatedAt
       user_of_request users with_trace with_ticks with_users_id_seq users_id_seq
       ticks fst snd trace].
  rewrite !Z.eqb_refl.
  cbn [User.CreatedAt User.UpdatedAt User.ID User.with_CreatedAt User.with_UpdatedAt
       user_of_request users with_trace with_ticks with_users_id_seq users_id_seq
       ticks fst snd trace].
  destruct (users_insert_violation _ _); reflexivity.
Qed.

End AuthFacts.

(** ** Registration *)

Section RegisterSpec.
Context {P : Platform}.

(** C2. [Register] looks the username up, then the email, then hashes the
    password, then writes the user, and stops at the first step that fails.
    With the username taken the result is "username already exists",
    whatever the email; with the username free and the email taken it is
    "email already exists".  In both cases the table of users is left as it
    was, no salt has been drawn for a hash, and the lookups are the only
    calls made.  With both free, the calls are the two lookups, the hash,
    and, when the hash succeeds, the insertion, in this order. *)
Theorem register_checks_before_hashing (s : authService) (req : RegisterRequest.t)
    (w : World) :
  let username := RegisterRequest.Username req in
  let email := RegisterRequest.Email req in
  let w' := snd (Register s req w) in
  ((exists u, In u (users w) /\ user_live u = true /\ User.Username u = username) ->
   fst (Register s req w) = Err (errors_New "username already exists") /\
   users w' = users w /\
   draws w' = draws w /\
   trace w' = trace w ++ [UserRepository_FindByUsername username])
  /\
  ((forall u, In u (users w) -> user_live u = true -> User.Username u <> username) ->
   (exists u, In u (users w) /\ user_live u = true /\ User.Email u = email) ->
   fst (Register s req w) = Err (errors_New "email already exists") /\
   users w' = users w /\
   draws w' = draws w /\
   trace w' = trace w ++ [UserRepository_FindByUsername username;
                          UserRepository_FindByEmail email])
  /\
  ((forall u, In u (users w) -> user_live u = true -> User.Username u <> username) ->
   (forall u, In u (users w) -> user_live u = true -> User.Email u <> email) ->
   draws w' = S (draws w) /\
   match bcrypt_hash (RegisterRequest.Password req) bcrypt_DefaultCost
           (rand_salt (draws w)) with
   | Err e =>
       fst (Register s req w) = Err e /\
       users w' = users w /\
       trace w' = trace w ++ [UserRepository_FindByUsername username;
                              UserRepository_FindByEmail email;
                              bcrypt_GenerateFromPassword_call
                                (RegisterRequest.Password req)]
   | Ok hashedPassword =>
       trace w' = trace w ++ [UserRepository_FindByUsername username;
                              UserRepository_FindByEmail email;
                              bcrypt_GenerateFromPassword_call
                                (RegisterRequest.Password req);
                              UserRepository_Create
                                (user_of_request req hashedPassword)] /\
       ((exists c, fst (Register s req w) = Err (pg_unique_violation c) /\
                   users w' = users w) \/
        (exists user, fst (Register s req w) = Ok user /\
                      User.Username user = username /\
                      User.Email user = email /\
                      User.Password user = hashedPassword /\
                      users w' = users w ++ [user_row user]))
   end).
Proof.
  cbv zeta. rewrite Register_run. cbv zeta.
  split; [|split].
  - intros [u (Hin & Hl & Hn)].
    destruct (live_by_Username_found _ _ u Hin Hl Hn) as [u' ->].
    repeat split.
  - intros Hfree [u (Hin & Hl & Hn)].
    apply live_by_Username_None in Hfree. rewrite Hfree.
    destruct (live_by_Email_found _ _ u Hin Hl Hn) as [u' ->].
    cbn [fst snd users draws trace with_trace].
    rewrite <- app_assoc. repeat split.
  - intros Hfree Hfree'.
    apply live_by_Username_None in Hfree. rewrite Hfree.
    apply live_by_Email_None in Hfree'. rewrite Hfree'.
    destruct (bcrypt_hash _ _ _) as [hashedPassword|e].
    + rewrite userRepository_Create_run. cbv zeta.
      cbn [users with_draws with_trace].
      destruct (users_insert_violation _ _) as [c|];
        cbn [fst snd users draws trace with_trace with_draws with_users
             with_users_id_seq with_ticks];
        rewrite <- !app_assoc; (split; [reflexivity|]); (split; [reflexivity|]).
      * left. eauto.
      * right. eexists. repeat split.
    + cbn [fst snd users draws trace with_trace with_draws].
      rewrite <- !app_assoc. repeat split.
Qed.

End RegisterSpec.

(** ** Login *)

Section LoginSpec.
Context {P : Platform}.

(** C3. A login that names no user and a login that names a user but
    carries a wrong password fail alike: the service returns the same
    error, "invalid username or password", and the handler answers both
    with the same response, status 401 with that message. *)
Theorem login_failures_are_identical (s : authService)
    (req1 req2 : LoginRequest.t) (w1 w2 : World) (user : User.t) (e : error) :
  (forall u, In u (users w1) -> user_live u = true ->
             User.Username u <> LoginRequest.Username req1) ->
  NoDup (map User.Username (users w2)) ->
  In user (users w2) -> user_live user = true ->
  User.Username user = LoginRequest.Username req2 ->
  bcrypt_CompareHashAndPassword (User.Password user) (LoginRequest.Password req2)
    = Some e ->
  fst (Login s req1 w1) = Err (errors_New "invalid username or password") /\
  fst (Login s req2 w2) = fst (Login s req1 w1) /\
  (validate_LoginRequest req1 = [] -> validate_LoginRequest req2 = [] ->
   fst (AuthHandler_Login s req1 w1)
     = response_Error http_StatusUnauthorized "invalid username or password" /\
   fst (AuthHandler_Login s req2 w2) = fst (AuthHandler_Login s req1 w1)).
Proof.
  intros Habsent Hnd Hin Hl Hn Hbad.
  assert (fst (Login s req1 w1) = Err invalid_credentials) as H1.
  { rewrite Login_run. cbv zeta.
    apply live_by_Username_None in Habsent. rewrite Habsent. reflexivity. }
  assert (fst (Login s req2 w2) = Err invalid_credentials) as H2.
  { rewrite Login_run. cbv zeta. rewrite <- Hn.
    rewrite (live_by_Username_unique _ _ Hnd Hin Hl), Hbad. reflexivity. }
  split; [exact H1|]. split; [congruence|].
  intros V1 V2. unfold AuthHandler_Login. rewrite V1, V2.
  destruct (Login s req1 w1) as [r1 w1']. destruct (Login s req2 w2) as [r2 w2'].
  cbn [fst] in *. subst r1 r2. split; reflexivity.
Qed.

End LoginSpec.

(** ** From login to the validated subject *)

Section RoundTripSpec.
Context {P : Platform}.

Lemma time_Unix_of_64 (t : Z) : Z.abs (time_Unix_of t) < 2 ^ 64.
Proof.
  unfold time_Unix_of. pose proof (wrap_int64_range (t / time_Second)). lia.
Qed.

Lemma issued_claims_decode (s : authService) (userID : Z) (n : nat) :
  Z.abs userID < 2 ^ 64 ->
  json_Unmarshal (issued_claims s userID n) = Some (decoded_claims s userID n).
Proof.
  intros H. unfold issued_claims, decoded_claims, json_Unmarshal, json_Unmarshal_value.
  rewrite !float64_of_literal_64 by (try apply time_Unix_of_64; exact H).
  reflexivity.
Qed.


End RoundTripSpec.

(** ** The invariants along every sequence of requests *)

Section ReachableSpec.
Context {P : Platform}.

Lemma Auth_items (s : authService) (h : AuthorizationHeader) (w : World) :
  items (snd (Auth s h w)) = items w.
Proof.
  unfold Auth. destruct h as [|raw|ts]; try reflexivity.
  pose proof (ValidateToken_world s ts w) as Hw.
  destruct (ValidateToken s ts w) as [[token|e] w']; cbn [snd] in Hw.
  - destruct (GetUserFromToken s token); cbn [snd]; destruct Hw as [->| ->]; reflexivity.
  - cbn [snd]. destruct Hw as [->| ->]; reflexivity.
Qed.

Lemma Register_items (s : authService) (req : RegisterRequest.t) (w : World) :
  items (snd (Register s req w)) = items w.
Proof.
  rewrite Register_run. cbv zeta.
  destruct (live_by_Username _ _); [reflexivity|].
  destruct (live_by_Email _ _); [reflexivity|].
  destruct (bcrypt_hash _ _ _); [|reflexivity].
  rewrite userRepository_Create_run. cbv zeta.
  destruct (users_insert_violation _ _); reflexivity.
Qed.

Lemma Login_items (s : authService) (req : LoginRequest.t) (w : World) :
  items (snd (Login s req w)) = items w.
Proof.
  rewrite Login_run. cbv zeta.
  destruct (live_by_Username _ _); [|reflexivity].
  destruct (bcrypt_CompareHashAndPassword _ _); reflexivity.
Qed.

Lemma protected_keeps_ok (s : authService) (h : AuthorizationHeader) (k : Handler)
    (w : World) :
  (forall w0, inventory_ok w0 -> inventory_ok (snd (k w0))) ->
  inventory_ok w -> inventory_ok (snd (protected s h k w)).
Proof.
  intros Hk Hok. unfold protected.
  pose proof (Auth_items s h w) as Hi.
  destruct (Auth s h w) as [[r|uid] w']; cbn [snd] in *.
  - exact (inventory_ok_items w w' Hi Hok).
  - apply Hk. exact (inventory_ok_items w w' Hi Hok).
Qed.

(** Every route keeps the store in order: the handlers of the inventory
    check the binding rules of a request before they call the service. *)
Lemma setupRouter_keeps_ok (s : authService) (r : request) (w : World) :
  inventory_ok w -> inventory_ok (snd (setupRouter s r w)).
Proof.
  intros Hok. destruct r as [req|req|h req|h|h id|h id req|h id]; cbn [setupRouter].
  - unfold AuthHandler_Register.
    destruct (validate_RegisterRequest req); [|exact Hok].
    pose proof (Register_items s req w) as Hi.
    destruct (Register s req w) as [[u|e] w']; exact (inventory_ok_items w w' Hi Hok).
  - unfold AuthHandler_Login.
    destruct (validate_LoginRequest req); [|exact Hok].
    pose proof (Login_items s req w) as Hi.
    destruct (Login s req w) as [[u|e] w']; exact (inventory_ok_items w w' Hi Hok).
  - apply protected_keeps_ok; [|exact Hok]. intros w0 H0.
    unfold InventoryHandler_CreateItem.
    destruct (validate_CreateItemRequest req) eqn:V; [|exact H0].
    pose proof (CreateItem_keeps_ok req w0 H0 V) as Hk.
    destruct (CreateItem req w0) as [[i|e] w']; exact Hk.
  - apply protected_keeps_ok; [|exact Hok]. intros w0 H0. exact H0.
  - apply protected_keeps_ok; [|exact Hok]. intros w0 H0.
    unfold InventoryHandler_GetItemByID.
    destruct (strconv_ParseUint32 id) as [n|]; [|exact H0].
    rewrite GetItemByID_run. destruct (live_by_ID n (items w0)); exact H0.
  - apply protected_keeps_ok; [|exact Hok]. intros w0 H0.
    unfold InventoryHandler_UpdateItem.
    destruct (strconv_ParseUint32 id) as [n|]; [|exact H0].
    destruct (validate_UpdateItemRequest req) eqn:V; [|exact H0].
    pose proof (UpdateItem_keeps_ok n req w0 H0 V) as Hk.
    destruct (UpdateItem n req w0) as [[i|e] w']; exact Hk.
  - apply protected_keeps_ok; [|exact Hok]. intros w0 H0.
    unfold InventoryHandler_DeleteItem.
    destruct (strconv_ParseUint32 id) as [n|]; [|exact H0].
    pose proof (DeleteItem_keeps_ok n w0 H0) as Hk.
    destruct (DeleteItem n w0) as [[i|e] w']; exact Hk.
Qed.

Lemma serve_keeps_ok (s : authService) (rs : list request) (w : World) :
  inventory_ok w -> inventory_ok (serve s rs w).
Proof.
  revert w. induction rs as [|r rs IH]; intros w Hok; simpl; [exact Hok|].
  apply IH. apply setupRouter_keeps_ok. exact Hok.
Qed.

Lemma initial_world_ok : inventory_ok initial_world.
Proof. repeat split; constructor. Qed.

(** C9. [CreateItem] and [UpdateItem], on a request that passes its binding
    rules, and [DeleteItem] keep the store in order: its own constraints
    hold, the SKU is unique across the items that are not deleted, and no
    stored quantity or price is negative.  Hence after any sequence of
    requests served from a store in order, the freshly migrated one for
    instance, the SKU is unique across the items that are not deleted and no
    quantity or price is negative. *)
Theorem inventory_invariant_is_kept (s : authService) (w : World) :
  inventory_ok w ->
  inventory_invariant w /\
  (forall req, validate_CreateItemRequest req = [] ->
               inventory_ok (snd (CreateItem req w))) /\
  (forall id req, validate_UpdateItemRequest req = [] ->
                  inventory_ok (snd (UpdateItem id req w))) /\
  (forall id, inventory_ok (snd (DeleteItem id w))) /\
  (forall rs, inventory_invariant (serve s rs w)) /\
  (forall rs, inventory_invariant (serve s rs initial_world)).
Proof.
  intros Hok. split; [exact (inventory_ok_invariant w Hok)|].
  split; [intros req V; exact (CreateItem_keeps_ok req w Hok V)|].
  split; [intros id req V; exact (UpdateItem_keeps_ok id req w Hok V)|].
  split; [intros id; exact (DeleteItem_keeps_ok id w Hok)|].
  split; intros rs; apply inventory_ok_invariant, serve_keeps_ok;
    [exact Hok | exact initial_world_ok].
Qed.

End ReachableSpec.

(** * Further properties of the services

    What the code shows besides: the failures of [UpdateItem], what an
    operation leaves alone, the keys of the items, who gets past the
    middleware, the expiry of a token, registration followed by login, and
    the checks of the handlers and of the validator. *)

(** ** More on the inventory service *)

Section InventoryMore.
Context {P : Platform}.

Lemma GetItemByID_Ok (id : Z) (w : World) (item : Item.t) :
  fst (GetItemByID id w) = Ok item <-> live_by_ID id (items w) = Some item.
Proof.
  rewrite GetItemByID_run. cbn [fst].
  destruct (live_by_ID id (items w)); split; intros H; inversion H; reflexivity.
Qed.

Lemma live_by_ID_None (id : Z) (rows : list Item.t) :
  live_by_ID id rows = None <->
  (forall r, In r rows -> item_live r = true -> Item.ID r <> id).
Proof.
  unfold live_by_ID. rewrite first_where_None. split.
  - intros H r Hin Hl E. specialize (H r Hin).
    rewrite Hl, E, Z.eqb_refl in H. discriminate.
  - intros H r Hin. destruct (item_live r) eqn:Hl; [|reflexivity].
    simpl. apply Z.eqb_neq. auto.
Qed.

(** Rewriting rows that a test does not tell apart from what replaces them
    leaves what the test selects as it was. *)
Lemma filter_map_frame {A} (p : A -> bool) (f : A -> A) (l : list A) :
  (forall a, In a l -> p (f a) = p a) ->
  (forall a, In a l -> p a = true -> f a = a) ->
  filter p (map f l) = filter p l.
Proof.
  induction l as [|a l IH]; intros Hp Hf; [reflexivity|].
  cbn [map filter]. rewrite (Hp a (or_introl eq_refl)).
  rewrite IH;
    [|intros; apply Hp; simpl; auto|intros; apply Hf; simpl; auto].
  destruct (p a) eqn:E; [|reflexivity].
  rewrite (Hf a (or_introl eq_refl) E). reflexivity.
Qed.

(** X3. [UpdateItem] on an identifier no live item has fails with "item not
    found" after the one lookup: nothing else is called and nothing is
    written. *)
Theorem update_item_not_found (id : Z) (req : UpdateItemRequest.t) (w : World) :
  (forall item, In item (items w) -> item_live item = true -> Item.ID item <> id) ->
  fst (UpdateItem id req w) = Err (errors_New "item not found") /\
  snd (UpdateItem id req w) = with_trace (trace w ++ [InventoryRepository_FindByID id]) w.
Proof.
  intros Hno. rewrite UpdateItem_run.
  rewrite (proj2 (live_by_ID_None id (items w)) Hno).
  split; reflexivity.
Qed.

(** X4. [UpdateItem] with a SKU that differs from the item's and that
    another live item has fails with "item with SKU '<sku>' already exists":
    after the two lookups nothing is called and nothing is written. *)
Theorem update_item_sku_conflict (id : Z) (req : UpdateItemRequest.t) (w : World)
    (item other : Item.t) (sku : string) :
  fst (GetItemByID id w) = Ok item ->
  UpdateItemRequest.SKU req = Some sku ->
  sku <> Item.SKU item ->
  In other (items w) -> item_live other = true -> Item.SKU other = sku ->
  fst (UpdateItem id req w)
    = Err (errors_New (String.append "item with SKU '"
                         (String.append sku "' already exists"))) /\
  snd (UpdateItem id req w)
    = with_trace (trace w ++ [InventoryRepository_FindByID id;
                              InventoryRepository_FindBySKU sku]) w.
Proof.
  intros Hget Hreq Hne Hin Hl Hs.
  apply GetItemByID_Ok in Hget.
  rewrite UpdateItem_run, Hget. unfold check_SKU. rewrite Hreq.
  apply String.eqb_neq in Hne. rewrite Hne. cbn [negb].
  unfold bind. rewrite FindBySKU_run. cbn [items with_trace trace].
  destruct (live_by_SKU sku (items w)) eqn:E.
  - unfold fail. cbn [fst snd]. split; [reflexivity|].
    unfold with_trace. cbn. rewrite <- app_assoc. reflexivity.
  - exfalso. exact (proj1 (live_by_SKU_None _ _) E other Hin Hl Hs).
Qed.

(** [UpdateItem] on an item that is found and passes the SKU check: the
    UPDATE of its row, which the unique index on [sku] may turn down. *)
Lemma UpdateItem_found (id : Z) (req : UpdateItemRequest.t) (w : World)
    (item item1 : Item.t) (w1 : World) :
  id <> 0 ->
  live_by_ID id (items w) = Some item ->
  check_SKU req item (with_trace (trace w ++ [InventoryRepository_FindByID id]) w)
    = (Ok item1, w1) ->
  let item' := Item.with_UpdatedAt (wall_clock (ticks w)) (assign_fields req item1) in
  let w2 := with_ticks (S (ticks w))
              (with_trace (trace w1 ++ [InventoryRepository_Update
                                          (assign_fields req item1)]) w1) in
  UpdateItem id req w =
  match items_update_violation (item_row item') (items w) with
  | Some c => (Err (pg_unique_violation c), w2)
  | None =>
      (Ok item',
       with_items
         (map (fun r => if item_live r && (Item.ID r =? id)
                        then item_row item' else r) (items w)) w2)
  end.
Proof.
  intros Hnz Hfind Hck. cbv zeta.
  rewrite UpdateItem_run, Hfind, Hck.
  pose proof (live_by_ID_Some _ _ _ Hfind) as (Hin & Hdel & Hid).
  apply check_SKU_Ok in Hck.
  destruct Hck as (Hitems & Hticks & HID & _).
  pose proof (assign_fields_frame req item1) as (FID & _).
  assert (Item.ID (assign_fields req item1) = id) as Hid' by congruence.
  rewrite Update_run_live.
  2:{ rewrite Hid'. exact Hnz. }
  2:{ rewrite Hitems, Hid'. apply existsb_exists. exists item.
      split; [exact Hin|]. unfold item_live. rewrite Hdel, Hid, Z.eqb_refl. reflexivity. }
  cbv zeta. rewrite Hitems, Hticks, Hid'. reflexivity.
Qed.

(** The row an update leaves is live and keeps its key. *)
Lemma updated_row_live (id now : Z) (req : UpdateItemRequest.t) (item item1 : Item.t) :
  Item.DeletedAt item = None -> Item.ID item = id ->
  Item.ID item1 = Item.ID item -> Item.DeletedAt item1 = Item.DeletedAt item ->
  item_live (item_row (Item.with_UpdatedAt now (assign_fields req item1)))
  && (Item.ID (item_row (Item.with_UpdatedAt now (assign_fields req item1))) =? id) = true.
Proof.
  intros Hdel Hid HID HDel.
  pose proof (assign_fields_frame req item1) as (FID & _ & FDel & _).
  unfold item_live. cbn. rewrite FDel, HDel, Hdel, FID, HID, Hid. cbn.
  apply Z.eqb_refl.
Qed.

(** X5. On a store whose unique index on [sku] holds, an update that
    leaves the SKU alone, by not supplying one or by supplying the item's
    own, succeeds: the SKU is not looked up, the item keeps its SKU, and a
    lookup by the identifier then finds the row the update wrote. *)
Theorem update_item_keeping_sku (id : Z) (req : UpdateItemRequest.t) (w : World)
    (item : Item.t) :
  NoDup (map Item.SKU (items w)) ->
  id <> 0 ->
  fst (GetItemByID id w) = Ok item ->
  UpdateItemRequest.SKU req = None \/ UpdateItemRequest.SKU req = Some (Item.SKU item) ->
  exists item',
    fst (UpdateItem id req w) = Ok item' /\
    Item.SKU item' = Item.SKU item /\
    trace (snd (UpdateItem id req w))
      = trace w ++ [InventoryRepository_FindByID id;
                    InventoryRepository_Update (assign_fields req item)] /\
    fst (GetItemByID id (snd (UpdateItem id req w))) = Ok (item_row item').
Proof.
  intros Hnd Hnz Hget Hreq.
  apply GetItemByID_Ok in Hget.
  pose proof (live_by_ID_Some _ _ _ Hget) as (Hin & Hdel & Hid).
  assert (check_SKU req item (with_trace (trace w ++ [InventoryRepository_FindByID id]) w)
          = (Ok item, with_trace (trace w ++ [InventoryRepository_FindByID id]) w)) as Hck.
  { unfold check_SKU. destruct Hreq as [-> | ->]; [reflexivity|].
    rewrite String.eqb_refl. reflexivity. }
  rewrite (UpdateItem_found id req w item item _ Hnz Hget Hck).
  pose proof (assign_fields_frame req item) as (FID & FSKU & FDel & _).
  replace (items_update_violation _ _) with (@None string).
  - eexists. cbn [fst snd]. split; [reflexivity|].
    split; [exact FSKU|]. split.
    + cbn. rewrite <- app_assoc. reflexivity.
    + apply GetItemByID_Ok. cbn [items with_items].
      apply live_by_ID_after_update.
      * exists item. split; [exact Hin|].
        unfold item_live. rewrite Hdel, Hid, Z.eqb_refl. reflexivity.
      * apply (updated_row_live id _ req item item); auto.
  - symmetry. unfold items_update_violation.
    rewrite existsb_false; [reflexivity|].
    intros r Hr. cbn. rewrite FSKU, FID, Hid.
    destruct (String.eqb (Item.SKU r) (Item.SKU item)) eqn:Es; [|reflexivity].
    apply String.eqb_eq in Es.
    assert (r = item) as -> by (apply (NoDup_map_inj Item.SKU (items w)); auto).
    rewrite Hid, Z.eqb_refl. reflexivity.
Qed.

(** X6. An update to a SKU that no row has, live or deleted, succeeds and
    moves the item: a lookup by the new SKU finds the row the update wrote,
    a lookup by the old SKU finds nothing, and the identifier still leads
    to the item. *)
Theorem update_item_changes_sku (id : Z) (req : UpdateItemRequest.t) (w : World)
    (item : Item.t) (sku : string) :
  NoDup (map Item.SKU (items w)) ->
  id <> 0 ->
  fst (GetItemByID id w) = Ok item ->
  UpdateItemRequest.SKU req = Some sku ->
  (forall r, In r (items w) -> Item.SKU r <> sku) ->
  exists item',
    fst (UpdateItem id req w) = Ok item' /\
    Item.SKU item' = sku /\
    Item.ID item' = id /\
    fst (inventoryRepository_FindBySKU sku (snd (UpdateItem id req w)))
      = Ok (Some (item_row item')) /\
    fst (inventoryRepository_FindBySKU (Item.SKU item) (snd (UpdateItem id req w)))
      = Ok None /\
    fst (GetItemByID id (snd (UpdateItem id req w))) = Ok (item_row item').
Proof.
  intros Hnd Hnz Hget Hreq Hfresh.
  apply GetItemByID_Ok in Hget.
  pose proof (live_by_ID_Some _ _ _ Hget) as (Hin & Hdel & Hid).
  assert (sku <> Item.SKU item) as Hne by (intros E; exact (Hfresh item Hin (eq_sym E))).
  assert (check_SKU req item (with_trace (trace w ++ [InventoryRepository_FindByID id]) w)
          = (Ok (Item.with_SKU sku item),
             with_trace ((trace w ++ [InventoryRepository_FindByID id])
                         ++ [InventoryRepository_FindBySKU sku]) w)) as Hck.
  { unfold check_SKU. rewrite Hreq.
    apply String.eqb_neq in Hne. rewrite Hne. cbn [negb].
    unfold bind. rewrite FindBySKU_run. cbn [items with_trace trace].
    rewrite (proj2 (live_by_SKU_None sku (items w))) by (intros r Hr _; auto).
    reflexivity. }
  rewrite (UpdateItem_found id req w item _ _ Hnz Hget Hck).
  pose proof (assign_fields_frame req (Item.with_SKU sku item)) as (FID & FSKU & FDel & _).
  assert (item_live item && (Item.ID item =? id) = true) as Hcond.
  { unfold item_live. rewrite Hdel, Hid, Z.eqb_refl. reflexivity. }
  replace (items_update_violation _ _) with (@None string).
  2:{ symmetry. unfold items_update_violation.
      rewrite existsb_false; [reflexivity|].
      intros r Hr. cbn. rewrite FSKU. cbn.
      destruct (String.eqb (Item.SKU r) sku) eqn:Es; [|reflexivity].
      apply String.eqb_eq in Es. exfalso. exact (Hfresh r Hr Es). }
  set (item' := Item.with_UpdatedAt (wall_clock (ticks w))
                  (assign_fields req (Item.with_SKU sku item))).
  assert (item_live (item_row item') && (Item.ID (item_row item') =? id) = true) as Hrow.
  { apply (updated_row_live id _ req item (Item.with_SKU sku item)); auto. }
  exists item'. cbn [fst snd].
  split; [reflexivity|].
  split; [exact FSKU|].
  split; [cbn; rewrite FID; exact Hid|].
  split; [|split].
  - rewrite FindBySKU_run. cbn [fst items with_items]. f_equal.
    apply first_where_unique.
    + apply in_map_iff. exists item. rewrite Hcond. auto.
    + apply andb_prop in Hrow. destruct Hrow as [Hl _]. rewrite Hl. cbn.
      rewrite FSKU. cbn. apply String.eqb_refl.
    + intros r' Hin' Hc'. apply in_map_iff in Hin'.
      destruct Hin' as [r0 [E Hr0]].
      destruct (item_live r0 && (Item.ID r0 =? id)); [auto|].
      subst r'. apply andb_prop in Hc'. destruct Hc' as [_ Hc'].
      apply String.eqb_eq in Hc'. exfalso. exact (Hfresh r0 Hr0 Hc').
  - rewrite FindBySKU_run. cbn [fst items with_items]. f_equal.
    apply first_where_None.
    intros r' Hin'. apply in_map_iff in Hin'. destruct Hin' as [r0 [E Hr0]].
    destruct (item_live r0 && (Item.ID r0 =? id)) eqn:C.
    + subst r'. cbn. rewrite FSKU. cbn.
      apply String.eqb_neq in Hne. rewrite Hne. apply andb_false_r.
    + subst r'. destruct (String.eqb (Item.SKU r0) (Item.SKU item)) eqn:Es;
        [|apply andb_false_r].
      apply String.eqb_eq in Es.
      assert (r0 = item) as -> by (apply (NoDup_map_inj Item.SKU (items w)); auto).
      rewrite Hcond in C. discriminate.
  - apply GetItemByID_Ok. cbn [items with_items].
    apply live_by_ID_after_update; [|exact Hrow].
    exists item. auto.
Qed.

(** X7. The SKU check of [UpdateItem] looks at live items only, the unique
    index at every row: an update to the SKU of a soft-deleted item passes
    the check and is turned down by the store, on [idx_items_sku], with
    nothing written. *)
Theorem update_item_sku_of_deleted_item (id : Z) (req : UpdateItemRequest.t)
    (w : World) (item gone : Item.t) (sku : string) :
  NoDup (map Item.ID (items w)) ->
  id <> 0 ->
  fst (GetItemByID id w) = Ok item ->
  UpdateItemRequest.SKU req = Some sku ->
  (forall r, In r (items w) -> item_live r = true -> Item.SKU r <> sku) ->
  In gone (items w) -> item_live gone = false -> Item.SKU gone = sku ->
  fst (UpdateItem id req w) = Err (pg_unique_violation "idx_items_sku") /\
  items (snd (UpdateItem id req w)) = items w.
Proof.
  intros Hnd Hnz Hget Hreq Hlive Hgin Hgl Hgs.
  apply GetItemByID_Ok in Hget.
  pose proof (live_by_ID_Some _ _ _ Hget) as (Hin & Hdel & Hid).
  assert (item_live item = true) as Hil by (unfold item_live; rewrite Hdel; reflexivity).
  assert (sku <> Item.SKU item) as Hne by (intros E; exact (Hlive item Hin Hil (eq_sym E))).
  assert (check_SKU req item (with_trace (trace w ++ [InventoryRepository_FindByID id]) w)
          = (Ok (Item.with_SKU sku item),
             with_trace ((trace w ++ [InventoryRepository_FindByID id])
                         ++ [InventoryRepository_FindBySKU sku]) w)) as Hck.
  { unfold check_SKU. rewrite Hreq.
    apply String.eqb_neq in Hne. rewrite Hne. cbn [negb].
    unfold bind. rewrite FindBySKU_run. cbn [items with_trace trace].
    rewrite (proj2 (live_by_SKU_None sku (items w)) Hlive).
    reflexivity. }
  rewrite (UpdateItem_found id req w item _ _ Hnz Hget Hck).
  pose proof (assign_fields_frame req (Item.with_SKU sku item)) as (FID & FSKU & FDel & _).
  replace (items_update_violation _ _) with (Some "idx_items_sku").
  { split; reflexivity. }
  symmetry. unfold items_update_violation.
  replace (existsb _ (items w)) with true; [reflexivity|].
  symmetry. apply existsb_exists. exists gone. split; [exact Hgin|].
  cbn. rewrite FSKU, FID. cbn. rewrite Hgs, String.eqb_refl. cbn.
  apply negb_true_iff, Z.eqb_neq. intros E.
  assert (gone = item) as -> by (apply (NoDup_map_inj Item.ID (items w)); congruence).
  rewrite Hil in Hgl. discriminate.
Qed.

(** What [UpdateItem] does to the rows, for an identifier other than 0:
    nothing, or the rewrite of the live row under the identifier. *)
Lemma UpdateItem_items (id : Z) (req : UpdateItemRequest.t) (w : World) :
  id <> 0 ->
  items (snd (UpdateItem id req w)) = items w \/
  exists row,
    Item.ID row = id /\
    items (snd (UpdateItem id req w))
      = map (fun r => if item_live r && (Item.ID r =? id) then row else r) (items w).
Proof.
  intros Hnz. destruct (live_by_ID id (items w)) as [item|] eqn:Hfind.
  - destruct (check_SKU req item
                (with_trace (trace w ++ [InventoryRepository_FindByID id]) w))
      as [[item1|e] w1] eqn:Hck.
    + rewrite (UpdateItem_found id req w item item1 w1 Hnz Hfind Hck).
      pose proof (live_by_ID_Some _ _ _ Hfind) as (_ & _ & Hid).
      apply check_SKU_Ok in Hck. destruct Hck as (Hitems & _ & HID & _).
      pose proof (assign_fields_frame req item1) as (FID & _).
      destruct (items_update_violation _ _).
      * left. cbn. exact Hitems.
      * right. eexists. split; [|reflexivity]. cbn. congruence.
    + left. rewrite UpdateItem_run, Hfind, Hck. cbn [snd].
      pose proof (check_SKU_items req item
                    (with_trace (trace w ++ [InventoryRepository_FindByID id]) w)) as H.
      rewrite Hck in H. exact H.
  - left. rewrite UpdateItem_run, Hfind. reflexivity.
Qed.

(** X8. [UpdateItem], on an identifier other than 0, touches the item it
    is asked to update and no other, whether it succeeds or not: the rows
    under every other identifier stay as they are, in their order, and
    [GetItemByID] on another identifier answers as before.  (With a key of
    0, [db.Save] would insert.) *)
Theorem update_item_leaves_the_others (id : Z) (req : UpdateItemRequest.t) (w : World) :
  id <> 0 ->
  filter (fun r => negb (Item.ID r =? id)) (items (snd (UpdateItem id req w)))
    = filter (fun r => negb (Item.ID r =? id)) (items w) /\
  (forall id', id' <> id ->
     fst (GetItemByID id' (snd (UpdateItem id req w))) = fst (GetItemByID id' w)).
Proof.
  intros Hnz.
  destruct (UpdateItem_items id req w Hnz) as [E|[row [Hrow E]]].
  - split; [rewrite E; reflexivity|].
    intros id' _. rewrite !GetItemByID_run. cbn [fst]. rewrite E. reflexivity.
  - split.
    + rewrite E. apply filter_map_frame.
      * intros a _. destruct (item_live a && (Item.ID a =? id)) eqn:C; [|reflexivity].
        apply andb_prop in C. destruct C as [_ C]. rewrite Hrow, C, Z.eqb_refl.
        reflexivity.
      * intros a _ Ha. apply negb_true_iff in Ha. rewrite Ha, andb_false_r.
        reflexivity.
    + intros id' Hne. rewrite !GetItemByID_run. cbn [fst]. rewrite E.
      unfold live_by_ID. rewrite filter_map_frame; [reflexivity| |].
      * intros a _. destruct (item_live a && (Item.ID a =? id)) eqn:C; [|reflexivity].
        apply andb_prop in C. destruct C as [_ C]. apply Z.eqb_eq in C.
        rewrite Hrow, C.
        assert ((id =? id') = false) as -> by (apply Z.eqb_neq; congruence).
        rewrite !andb_false_r. reflexivity.
      * intros a _ Ha. apply andb_prop in Ha. destruct Ha as [_ Ha].
        apply Z.eqb_eq in Ha.
        assert ((Item.ID a =? id) = false) as -> by (apply Z.eqb_neq; congruence).
        rewrite andb_false_r. reflexivity.
Qed.

(** The rows after [DeleteItem], found or not. *)
Lemma DeleteItem_items (id : Z) (w : World) :
  items (snd (DeleteItem id w)) = map (soft_delete (wall_clock (ticks w)) id) (items w).
Proof.
  rewrite DeleteItem_run.
  destruct (live_by_ID id (items w)) eqn:Hfind; [reflexivity|].
  cbn [snd items with_trace]. symmetry.
  rewrite <- (map_id (items w)) at 2. apply map_ext_in.
  intros r Hr. unfold soft_delete.
  rewrite (proj1 (first_where_None Item.ID _ _) Hfind r Hr). reflexivity.
Qed.

(** X9. [DeleteItem] takes the item out of what [GetAllItems] lists and
    leaves the rest: the list afterwards is the list before without the
    items under that identifier, [GetItemByID] on another identifier answers
    as before, and every row that was not the live one under the identifier
    is still stored unchanged. *)
Theorem delete_item_leaves_the_others (id : Z) (w : World) :
  fst (GetAllItems (snd (DeleteItem id w)))
    = Ok (filter (fun r => negb (Item.ID r =? id)) (filter item_live (items w))) /\
  (forall id', id' <> id ->
     fst (GetItemByID id' (snd (DeleteItem id w))) = fst (GetItemByID id' w)) /\
  (forall r, In r (items w) -> item_live r && (Item.ID r =? id) = false ->
             In r (items (snd (DeleteItem id w)))).
Proof.
  split; [|split].
  - rewrite GetAllItems_run. cbn [fst]. rewrite DeleteItem_items. f_equal.
    induction (items w) as [|r rows IH]; [reflexivity|].
    cbn [map filter]. rewrite IH. unfold soft_delete.
    destruct (item_live r) eqn:Hl; cbn [andb].
    + destruct (Item.ID r =? id) eqn:Hi.
      * cbn. rewrite Hi. reflexivity.
      * rewrite Hl. cbn [filter]. rewrite Hi. reflexivity.
    + rewrite Hl. reflexivity.
  - intros id' Hne. rewrite !GetItemByID_run. cbn [fst]. rewrite DeleteItem_items.
    unfold live_by_ID. rewrite filter_map_frame; [reflexivity| |].
    + intros a _. unfold soft_delete.
      destruct (item_live a && (Item.ID a =? id)) eqn:C; [|reflexivity].
      apply andb_prop in C. destruct C as [_ C]. apply Z.eqb_eq in C.
      cbn. rewrite C.
      assert ((id =? id') = false) as -> by (apply Z.eqb_neq; congruence).
      rewrite !andb_false_r. reflexivity.
    + intros a _ Ha. unfold soft_delete.
      apply andb_prop in Ha. destruct Ha as [_ Ha]. apply Z.eqb_eq in Ha.
      assert ((Item.ID a =? id) = false) as -> by (apply Z.eqb_neq; congruence).
      rewrite andb_false_r. reflexivity.
  - intros r Hr C. rewrite DeleteItem_items. apply in_map_iff.
    exists r. split; [|exact Hr]. unfold soft_delete. rewrite C. reflexivity.
Qed.

(** X10. The two reads agree and write nothing: what [GetItemByID] finds
    under an identifier has that identifier and is in the list of
    [GetAllItems]; and where the primary key holds, every item of that list
    is what [GetItemByID] finds under its identifier. *)
Theorem reads_agree (w : World) :
  (forall id item,
     fst (GetItemByID id w) = Ok item ->
     Item.ID item = id /\
     exists l, fst (GetAllItems w) = Ok l /\ In item l) /\
  (NoDup (map Item.ID (items w)) ->
   forall l item,
     fst (GetAllItems w) = Ok l -> In item l ->
     fst (GetItemByID (Item.ID item) w) = Ok item) /\
  (forall id, items (snd (GetItemByID id w)) = items w) /\
  items (snd (GetAllItems w)) = items w.
Proof.
  split; [|split; [|split]].
  - intros id item Hget. apply GetItemByID_Ok in Hget.
    pose proof (live_by_ID_Some _ _ _ Hget) as (Hin & Hdel & Hid).
    split; [exact Hid|].
    rewrite GetAllItems_run. eexists. split; [reflexivity|].
    apply filter_In. split; [exact Hin|]. unfold item_live. rewrite Hdel. reflexivity.
  - intros Hnd l item. rewrite GetAllItems_run. cbn [fst].
    intros H Hin. inversion H; subst l; clear H.
    apply filter_In in Hin. destruct Hin as [Hin Hl].
    apply GetItemByID_Ok. apply first_where_unique.
    + exact Hin.
    + rewrite Hl, Z.eqb_refl. reflexivity.
    + intros r' Hin' Hc. apply andb_prop in Hc. destruct Hc as [_ Hc].
      apply Z.eqb_eq in Hc.
      apply (NoDup_map_inj Item.ID (items w)); auto.
  - intros id. rewrite GetItemByID_run. reflexivity.
  - rewrite GetAllItems_run. reflexivity.
Qed.

(** X11. [CreateItem] is all or nothing: a failed call leaves the rows as
    they were; a successful one appends the new item's row and nothing
    else, under a key no row had, [GetAllItems] then lists what it listed
    before followed by the new item, and [GetItemByID] on any other
    identifier answers as before. *)
Theorem create_item_appends_one_row (req : CreateItemRequest.t) (w : World) :
  (forall e, fst (CreateItem req w) = Err e ->
             items (snd (CreateItem req w)) = items w) /\
  (forall item,
     fst (CreateItem req w) = Ok item ->
     items (snd (CreateItem req w)) = items w ++ [item_row item] /\
     Item.ID item = items_id_seq w + 1 /\
     (forall r, In r (items w) -> Item.ID r <> Item.ID item) /\
     fst (GetAllItems (snd (CreateItem req w)))
       = Ok (filter item_live (items w) ++ [item_row item]) /\
     (forall id', id' <> Item.ID item ->
        fst (GetItemByID id' (snd (CreateItem req w))) = fst (GetItemByID id' w))).
Proof.
  rewrite CreateItem_run. cbv zeta.
  destruct (live_by_SKU _ _); [split; [reflexivity|discriminate]|].
  destruct (items_insert_violation _ _) eqn:V; [split; [reflexivity|discriminate]|].
  split; [discriminate|].
  intros item H. cbn [fst] in H. inversion H; subst item; clear H. cbn [snd items].
  apply insert_violation_None in V. destruct V as [Vid _].
  split; [reflexivity|]. split; [reflexivity|]. split; [|split].
  - intros r Hr E. apply Vid. cbn in E |- *. rewrite <- E. apply in_map. exact Hr.
  - rewrite GetAllItems_run. cbn [fst items]. rewrite filter_app. reflexivity.
  - intros id' Hne. rewrite !GetItemByID_run. cbn [fst items].
    unfold live_by_ID. rewrite filter_app. cbn [filter].
    replace (Item.ID (item_row (created_item req w)) =? id') with false.
    + rewrite ?andb_false_r, app_nil_r. reflexivity.
    + symmetry. apply Z.eqb_neq. cbn in Hne |- *. congruence.
Qed.

End InventoryMore.

(** ** The keys of the items *)

Section ItemKeys.
Context {P : Platform}.

Lemma check_SKU_world (req : UpdateItemRequest.t) (item : Item.t) (w : World) :
  exists t, snd (check_SKU req item w) = with_trace t w.
Proof.
  unfold check_SKU. destruct (UpdateItemRequest.SKU req) as [sku|].
  - destruct (negb (sku =? Item.SKU item)%string).
    + unfold bind. rewrite FindBySKU_run.
      destruct (live_by_SKU sku _); eexists; reflexivity.
    + exists (trace w). destruct w; reflexivity.
  - exists (trace w). destruct w; reflexivity.
Qed.

(** [db.Save] writes to table "items" only. *)
Lemma Update_users (item : Item.t) (w : World) :
  users (snd (inventoryRepository_Update item w)) = users w /\
  users_id_seq (snd (inventoryRepository_Update item w)) = users_id_seq w /\
  draws (snd (inventoryRepository_Update item w)) = draws w.
Proof.
  unfold inventoryRepository_Update, gorm_Save_Item, gorm_Create_Item, items_INSERT.
  unfold_M. repeat (case_split; cbn [fst snd]); repeat split.
Qed.

Lemma UpdateItem_users (id : Z) (req : UpdateItemRequest.t) (w : World) :
  users (snd (UpdateItem id req w)) = users w /\
  users_id_seq (snd (UpdateItem id req w)) = users_id_seq w /\
  draws (snd (UpdateItem id req w)) = draws w.
Proof.
  rewrite UpdateItem_run.
  destruct (live_by_ID id (items w)) as [item|]; [|repeat split].
  destruct (check_SKU_world req item
              (with_trace (trace w ++ [InventoryRepository_FindByID id]) w)) as [t Ht].
  destruct (check_SKU req item _) as [[item1|e] w1]; cbn [snd] in Ht; subst w1.
  - destruct (Update_users (assign_fields req item1)
                (with_trace t (with_trace (trace w ++ [InventoryRepository_FindByID id]) w)))
      as (A & B & C).
    rewrite A, B, C. repeat split.
  - repeat split.
Qed.

Lemma UpdateItem_items_id_seq (id : Z) (req : UpdateItemRequest.t) (w : World) :
  id <> 0 -> items_id_seq (snd (UpdateItem id req w)) = items_id_seq w.
Proof.
  intros Hnz. destruct (live_by_ID id (items w)) as [item|] eqn:Hfind.
  - destruct (check_SKU_world req item
                (with_trace (trace w ++ [InventoryRepository_FindByID id]) w)) as [t Ht].
    destruct (check_SKU req item _) as [[item1|e] w1] eqn:Hck; cbn [snd] in Ht; subst w1.
    + rewrite (UpdateItem_found id req w item item1 _ Hnz Hfind Hck).
      destruct (items_update_violation _ _); reflexivity.
    + rewrite UpdateItem_run, Hfind, Hck. reflexivity.
  - rewrite UpdateItem_run, Hfind. reflexivity.
Qed.

Lemma keys_in_sequence_frame (w w' : World) :
  items w' = items w -> items_id_seq w' = items_id_seq w ->
  keys_in_sequence w -> keys_in_sequence w'.
Proof. unfold keys_in_sequence. intros -> ->. auto. Qed.

Lemma CreateItem_keeps_keys (req : CreateItemRequest.t) (w : World) :
  keys_in_sequence w -> keys_in_sequence (snd (CreateItem req w)).
Proof.
  intros [Hseq Hall]. rewrite CreateItem_run. cbv zeta.
  destruct (live_by_SKU _ _); [split; assumption|].
  assert (Forall (fun r => 0 < Item.ID r <= items_id_seq w + 1) (items w)) as Hall'.
  { eapply Forall_impl; [|exact Hall]. cbv beta. intros; lia. }
  destruct (items_insert_violation _ _); split; cbn [snd items items_id_seq];
    try lia; try exact Hall'.
  apply Forall_snoc; [exact Hall'|]. cbn. lia.
Qed.

Lemma UpdateItem_keeps_keys (id : Z) (req : UpdateItemRequest.t) (w : World) :
  keys_in_sequence w -> keys_in_sequence (snd (UpdateItem id req w)).
Proof.
  intros [Hseq Hall]. destruct (Z.eq_dec id 0) as [->|Hnz].
  - rewrite UpdateItem_run.
    rewrite (proj2 (live_by_ID_None 0 (items w))); [split; assumption|].
    intros item Hin _ E. rewrite Forall_forall in Hall.
    specialize (Hall item Hin). lia.
  - unfold keys_in_sequence. rewrite (UpdateItem_items_id_seq id req w Hnz).
    split; [exact Hseq|].
    destruct (UpdateItem_items id req w Hnz) as [-> | [row [Hrow ->]]]; [exact Hall|].
    apply Forall_forall. intros r' Hin. apply in_map_iff in Hin.
    destruct Hin as [r [E Hr]]. rewrite Forall_forall in Hall. specialize (Hall r Hr).
    destruct (item_live r && (Item.ID r =? id)) eqn:C; subst r'; [|exact Hall].
    apply andb_prop in C. destruct C as [_ C]. apply Z.eqb_eq in C. lia.
Qed.

Lemma DeleteItem_keeps_keys (id : Z) (w : World) :
  keys_in_sequence w -> keys_in_sequence (snd (DeleteItem id w)).
Proof.
  intros [Hseq Hall]. unfold keys_in_sequence. rewrite DeleteItem_items.
  assert (items_id_seq (snd (DeleteItem id w)) = items_id_seq w) as ->.
  { rewrite DeleteItem_run. destruct (live_by_ID id (items w)); reflexivity. }
  split; [exact Hseq|].
  apply Forall_forall. intros r' Hin. apply in_map_iff in Hin.
  destruct Hin as [r [<- Hr]]. rewrite soft_delete_ID.
  rewrite Forall_forall in Hall. exact (Hall r Hr).
Qed.

End ItemKeys.

(** ** The routes *)

Section Routes.
Context {P : Platform}.

(** The middleware reads the clock at most once and touches nothing else. *)
Lemma Auth_world (s : authService) (h : AuthorizationHeader) (w : World) :
  snd (Auth s h w) = w \/ snd (Auth s h w) = with_ticks (S (ticks w)) w.
Proof.
  unfold Auth. destruct h as [|raw|ts]; try (left; reflexivity).
  pose proof (ValidateToken_world s ts w) as Hw.
  destruct (ValidateToken s ts w) as [[token|e] w']; cbn [snd] in Hw.
  - destruct (GetUserFromToken s token); exact Hw.
  - exact Hw.
Qed.

Lemma Register_items_id_seq (s : authService) (req : RegisterRequest.t) (w : World) :
  items_id_seq (snd (Register s req w)) = items_id_seq w.
Proof.
  rewrite Register_run. cbv zeta.
  destruct (live_by_Username _ _); [reflexivity|].
  destruct (live_by_Email _ _); [reflexivity|].
  destruct (bcrypt_hash _ _ _); [|reflexivity].
  rewrite userRepository_Create_run. cbv zeta.
  destruct (users_insert_violation _ _); reflexivity.
Qed.

(** [Login] reads table "users" and the clock, and writes nothing. *)
Lemma Login_frame (s : authService) (req : LoginRequest.t) (w : World) :
  let w' := snd (Login s req w) in
  users w' = users w /\ users_id_seq w' = users_id_seq w /\
  items w' = items w /\ items_id_seq w' = items_id_seq w /\
  draws w' = draws w.
Proof.
  cbv zeta. rewrite Login_run. cbv zeta.
  destruct (live_by_Username _ _); [|repeat split].
  destruct (bcrypt_CompareHashAndPassword _ _); repeat split.
Qed.

Lemma CreateItem_users (req : CreateItemRequest.t) (w : World) :
  users (snd (CreateItem req w)) = users w /\
  users_id_seq (snd (CreateItem req w)) = users_id_seq w /\
  draws (snd (CreateItem req w)) = draws w.
Proof.
  rewrite CreateItem_run. cbv zeta.
  destruct (live_by_SKU _ _); [repeat split|].
  destruct (items_insert_violation _ _); repeat split.
Qed.

Lemma DeleteItem_users (id : Z) (w : World) :
  users (snd (DeleteItem id w)) = users w /\
  users_id_seq (snd (DeleteItem id w)) = users_id_seq w /\
  draws (snd (DeleteItem id w)) = draws w.
Proof.
  rewrite DeleteItem_run. destruct (live_by_ID id (items w)); repeat split.
Qed.

Lemma protected_keeps_keys (s : authService) (h : AuthorizationHeader) (k : Handler)
    (w : World) :
  (forall w0, keys_in_sequence w0 -> keys_in_sequence (snd (k w0))) ->
  keys_in_sequence w -> keys_in_sequence (snd (protected s h k w)).
Proof.
  intros Hk Hok. unfold protected.
  pose proof (Auth_world s h w) as Hw.
  assert (keys_in_sequence (snd (Auth s h w))) as Hok'.
  { destruct Hw as [-> | ->]; exact Hok. }
  destruct (Auth s h w) as [[r|uid] w']; cbn [snd] in *; auto.
Qed.

Lemma setupRouter_keeps_keys (s : authService) (r : request) (w : World) :
  keys_in_sequence w -> keys_in_sequence (snd (setupRouter s r w)).
Proof.
  intros Hok. destruct r as [req|req|h req|h|h id|h id req|h id]; cbn [setupRouter].
  - unfold AuthHandler_Register.
    destruct (validate_RegisterRequest req); [|exact Hok].
    pose proof (Register_items s req w) as Hi.
    pose proof (Register_items_id_seq s req w) as Hq.
    destruct (Register s req w) as [[u|e] w'];
      exact (keys_in_sequence_frame w w' Hi Hq Hok).
  - unfold AuthHandler_Login.
    destruct (validate_LoginRequest req); [|exact Hok].
    pose proof (Login_frame s req w) as (_ & _ & Hi & Hq & _).
    destruct (Login s req w) as [[u|e] w'];
      exact (keys_in_sequence_frame w w' Hi Hq Hok).
  - apply protected_keeps_keys; [|exact Hok]. intros w0 H0.
    unfold InventoryHandler_CreateItem.
    destruct (validate_CreateItemRequest req); [|exact H0].
    pose proof (CreateItem_keeps_keys req w0 H0) as Hk.
    destruct (CreateItem req w0) as [[i|e] w']; exact Hk.
  - apply protected_keeps_keys; [|exact Hok]. intros w0 H0. exact H0.
  - apply protected_keeps_keys; [|exact Hok]. intros w0 H0.
    unfold InventoryHandler_GetItemByID.
    destruct (strconv_ParseUint32 id) as [n|]; [|exact H0].
    rewrite GetItemByID_run. destruct (live_by_ID n (items w0)); exact H0.
  - apply protected_keeps_keys; [|exact Hok]. intros w0 H0.
    unfold InventoryHandler_UpdateItem.
    destruct (strconv_ParseUint32 id) as [n|]; [|exact H0].
    destruct (validate_UpdateItemRequest req); [|exact H0].
    pose proof (UpdateItem_keeps_keys n req w0 H0) as Hk.
    destruct (UpdateItem n req w0) as [[i|e] w']; exact Hk.
  - apply protected_keeps_keys; [|exact Hok]. intros w0 H0.
    unfold InventoryHandler_DeleteItem.
    destruct (strconv_ParseUint32 id) as [n|]; [|exact H0].
    pose proof (DeleteItem_keeps_keys n w0 H0) as Hk.
    destruct (DeleteItem n w0) as [[i|e] w']; exact Hk.
Qed.

Lemma serve_keeps_keys (s : authService) (rs : list request) (w : World) :
  keys_in_sequence w -> keys_in_sequence (serve s rs w).
Proof.
  revert w. induction rs as [|r rs IH]; intros w Hok; simpl; [exact Hok|].
  apply IH. apply setupRouter_keeps_keys. exact Hok.
Qed.

Lemma initial_world_keys : keys_in_sequence initial_world.
Proof. split; [cbn; lia|constructor]. Qed.

(** X12. The keys of table "items" follow its sequence: where every key is
    positive and at most the sequence's last value, the three writing
    operations of the service and every request keep it so, and a created
    item gets a key above the key of every row, deleted ones included: no
    key is given out twice.  The freshly migrated store is such a state. *)
Theorem item_keys_follow_the_sequence (s : authService) (w : World) :
  keys_in_sequence w ->
  (forall req, keys_in_sequence (snd (CreateItem req w))) /\
  (forall id req, keys_in_sequence (snd (UpdateItem id req w))) /\
  (forall id, keys_in_sequence (snd (DeleteItem id w))) /\
  (forall rs, keys_in_sequence (serve s rs w)) /\
  (forall rs, keys_in_sequence (serve s rs initial_world)) /\
  (forall req item,
     fst (CreateItem req w) = Ok item ->
     forall r, In r (items w) -> Item.ID r < Item.ID item).
Proof.
  intros Hok.
  split; [intros req; exact (CreateItem_keeps_keys req w Hok)|].
  split; [intros id req; exact (UpdateItem_keeps_keys id req w Hok)|].
  split; [intros id; exact (DeleteItem_keeps_keys id w Hok)|].
  split; [intros rs; exact (serve_keeps_keys s rs w Hok)|].
  split; [intros rs; exact (serve_keeps_keys s rs _ initial_world_keys)|].
  intros req item. rewrite CreateItem_run. cbv zeta.
  destruct (live_by_SKU _ _); [discriminate|].
  destruct (items_insert_violation _ _); [discriminate|].
  cbn [fst]. intros H r Hr. inversion H; subst item; clear H.
  destruct Hok as [_ Hall]. rewrite Forall_forall in Hall. specialize (Hall r Hr).
  cbn. lia.
Qed.

(** X13. Where the keys follow the sequence, [CreateItem] succeeds exactly
    when no row has the SKU of the request, live or deleted. *)
Theorem create_item_succeeds_iff_sku_unused (req : CreateItemRequest.t) (w : World) :
  keys_in_sequence w ->
  ((exists item, fst (CreateItem req w) = Ok item) <->
   (forall r, In r (items w) -> Item.SKU r <> CreateItemRequest.SKU req)).
Proof.
  intros [_ Hall]. rewrite Forall_forall in Hall.
  rewrite CreateItem_run. cbv zeta. split.
  - intros [item H] r Hr E.
    destruct (live_by_SKU _ _); [discriminate|].
    destruct (items_insert_violation _ _) eqn:V; [discriminate|].
    apply insert_violation_None in V. destruct V as [_ V].
    apply V. cbn. rewrite <- E. apply in_map. exact Hr.
  - intros Hfresh.
    rewrite (proj2 (live_by_SKU_None _ (items w))) by (intros r Hr _; auto).
    replace (items_insert_violation _ _) with (@None string);
      [eexists; reflexivity|].
    symmetry. unfold items_insert_violation.
    rewrite existsb_false.
    2:{ intros r Hr. apply Z.eqb_neq. cbn. specialize (Hall r Hr). lia. }
    rewrite existsb_false; [reflexivity|].
    intros r Hr. apply String.eqb_neq. cbn. auto.
Qed.

(** A handler behind the middleware leaves alone what it leaves alone by
    itself. *)
Lemma protected_users (s : authService) (h : AuthorizationHeader) (k : Handler)
    (w : World) :
  (forall w0, users (snd (k w0)) = users w0 /\
              users_id_seq (snd (k w0)) = users_id_seq w0 /\
              draws (snd (k w0)) = draws w0) ->
  users (snd (protected s h k w)) = users w /\
  users_id_seq (snd (protected s h k w)) = users_id_seq w /\
  draws (snd (protected s h k w)) = draws w.
Proof.
  intros Hk. unfold protected.
  pose proof (Auth_world s h w) as Hw.
  destruct (Auth s h w) as [[resp|uid] w1]; cbn [snd] in *.
  - destruct Hw as [-> | ->]; repeat split.
  - destruct (Hk w1) as (A & B & C). rewrite A, B, C.
    destruct Hw as [-> | ->]; repeat split.
Qed.

Lemma protected_items (s : authService) (h : AuthorizationHeader) (k : Handler)
    (w : World) :
  (forall w0, items (snd (k w0)) = items w0 /\
              items_id_seq (snd (k w0)) = items_id_seq w0) ->
  items (snd (protected s h k w)) = items w /\
  items_id_seq (snd (protected s h k w)) = items_id_seq w.
Proof.
  intros Hk. unfold protected.
  pose proof (Auth_world s h w) as Hw.
  destruct (Auth s h w) as [[resp|uid] w1]; cbn [snd] in *.
  - destruct Hw as [-> | ->]; repeat split.
  - destruct (Hk w1) as (A & B). rewrite A, B.
    destruct Hw as [-> | ->]; repeat split.
Qed.

(** The two reading handlers change nothing but the record of calls. *)
Lemma GetAllItems_handler_world (w : World) :
  exists t, snd (InventoryHandler_GetAllItems w) = with_trace t w.
Proof.
  unfold InventoryHandler_GetAllItems. rewrite GetAllItems_run.
  eexists. reflexivity.
Qed.

Lemma GetItemByID_handler_world (id : string) (w : World) :
  exists t, snd (InventoryHandler_GetItemByID id w) = with_trace t w.
Proof.
  unfold InventoryHandler_GetItemByID.
  destruct (strconv_ParseUint32 id) as [n|].
  - rewrite GetItemByID_run. destruct (live_by_ID n (items w)); eexists; reflexivity.
  - exists (trace w). destruct w; reflexivity.
Qed.

(** The routes of the [inventory] group leave table "users" alone. *)
Lemma inventory_routes_users (s : authService) (r : request) (w : World) :
  route_header r <> None ->
  users (snd (setupRouter s r w)) = users w /\
  users_id_seq (snd (setupRouter s r w)) = users_id_seq w /\
  draws (snd (setupRouter s r w)) = draws w.
Proof.
  destruct r as [req|req|h req|h|h id|h id req|h id]; cbn [route_header setupRouter];
    intros Hr; try (exfalso; apply Hr; reflexivity); apply protected_users; intros w0.
  - unfold InventoryHandler_CreateItem.
    destruct (validate_CreateItemRequest req); [|repeat split].
    pose proof (CreateItem_users req w0) as H.
    destruct (CreateItem req w0) as [[i|e] w']; exact H.
  - destruct (GetAllItems_handler_world w0) as [t ->]. repeat split.
  - destruct (GetItemByID_handler_world id w0) as [t ->]. repeat split.
  - unfold InventoryHandler_UpdateItem.
    destruct (strconv_ParseUint32 id) as [n|]; [|repeat split].
    destruct (validate_UpdateItemRequest req); [|repeat split].
    pose proof (UpdateItem_users n req w0) as H.
    destruct (UpdateItem n req w0) as [[i|e] w']; exact H.
  - unfold InventoryHandler_DeleteItem.
    destruct (strconv_ParseUint32 id) as [n|]; [|repeat split].
    pose proof (DeleteItem_users n w0) as H.
    destruct (DeleteItem n w0) as [[i|e] w']; exact H.
Qed.

(** X14. Each route keeps to its table.  The routes of the [auth] group
    leave table "items" and its sequence alone, and a login writes to no
    table at all; the routes of the [inventory] group leave table "users",
    its sequence and the entropy source alone, and the two reading ones
    leave table "items" alone as well. *)
Theorem routes_keep_to_their_table (s : authService) (r : request) (w : World) :
  let w' := snd (setupRouter s r w) in
  match r with
  | POST_auth_register _ =>
      items w' = items w /\ items_id_seq w' = items_id_seq w
  | POST_auth_login _ =>
      items w' = items w /\ items_id_seq w' = items_id_seq w /\
      users w' = users w /\ users_id_seq w' = users_id_seq w /\ draws w' = draws w
  | GET_inventory_items _ | GET_inventory_items_id _ _ =>
      items w' = items w /\ items_id_seq w' = items_id_seq w /\
      users w' = users w /\ users_id_seq w' = users_id_seq w /\ draws w' = draws w
  | POST_inventory_items _ _ | PUT_inventory_items_id _ _ _
  | DELETE_inventory_items_id _ _ =>
      users w' = users w /\ users_id_seq w' = users_id_seq w /\ draws w' = draws w
  end.
Proof.
  cbv zeta.
  destruct r as [req|req|h req|h|h id|h id req|h id].
  - cbn [setupRouter]. unfold AuthHandler_Register.
    destruct (validate_RegisterRequest req); [|split; reflexivity].
    pose proof (Register_items s req w) as Hi.
    pose proof (Register_items_id_seq s req w) as Hq.
    destruct (Register s req w) as [[u|e] w']; split; assumption.
  - cbn [setupRouter]. unfold AuthHandler_Login.
    destruct (validate_LoginRequest req); [|repeat split].
    pose proof (Login_frame s req w) as (A & B & C & D & E).
    destruct (Login s req w) as [[u|e] w']; repeat split; assumption.
  - apply inventory_routes_users. discriminate.
  - destruct (inventory_routes_users s (GET_inventory_items h) w) as (C & D & E);
      [discriminate|].
    destruct (protected_items s h InventoryHandler_GetAllItems w) as (A & B).
    { intros w0. destruct (GetAllItems_handler_world w0) as [t ->]. split; reflexivity. }
    repeat split; assumption.
  - destruct (inventory_routes_users s (GET_inventory_items_id h id) w) as (C & D & E);
      [discriminate|].
    destruct (protected_items s h (InventoryHandler_GetItemByID id) w) as (A & B).
    { intros w0. destruct (GetItemByID_handler_world id w0) as [t ->]. split; reflexivity. }
    repeat split; assumption.
  - apply inventory_routes_users. discriminate.
  - apply inventory_routes_users. discriminate.
Qed.

End Routes.

(** ** Who gets past the middleware *)

Section MiddlewareSpec.
Context {P : Platform}.

(** X15. [ValidateToken] accepts a token string exactly when it is signed
    under the service's secret with one of the HMAC methods, its header and
    claims decode, and the claims hold at the reading of the clock: no
    string without a signature, with another method (RS256, none) or with a
    signature under another key is accepted. *)
Theorem validate_token_accepts_exactly (s : authService) (ts : tokenString) (w : World) :
  (exists token, fst (ValidateToken s ts w) = Ok token) <->
  (exists h hd c header claims,
     ts = signed_with s h hd c /\
     json_Unmarshal hd = Some header /\
     map_get "alg" header = Some (GoString (Alg (SigningMethodHMAC h))) /\
     json_Unmarshal c = Some claims /\
     claims_errors claims (wall_clock (ticks w)) = []).
Proof.
  split.
  - intros [token H]. apply ValidateToken_Ok_inv in H.
    destruct H as (h & hd & c & header & claims & A & B & C & D & E & _).
    exists h, hd, c, header, claims. auto.
  - intros (h & hd & c & header & claims & -> & B & C & D & E).
    rewrite (ValidateToken_signed s h hd c header claims w B C D), E.
    eexists. reflexivity.
Qed.

(** X16. The middleware lets a request through exactly when its header is
    [Bearer] followed by a token signed under the secret with an HMAC
    method whose claims hold and carry a number under [user_id]; the
    identifier it puts in the context is that number converted to [uint]. *)
Theorem auth_lets_through_exactly (s : authService) (authHeader : AuthorizationHeader)
    (w : World) (userID : Z) :
  fst (Auth s authHeader w) = Next userID <->
  (exists h hd c header claims f,
     authHeader = HeaderBearer (signed_with s h hd c) /\
     json_Unmarshal hd = Some header /\
     map_get "alg" header = Some (GoString (Alg (SigningMethodHMAC h))) /\
     json_Unmarshal c = Some claims /\
     claims_errors claims (wall_clock (ticks w)) = [] /\
     map_get "user_id" claims = Some (GoFloat64 f) /\
     userID = uint_of_float64 f).
Proof.
  split.
  - unfold Auth. destruct authHeader as [|raw|ts]; try discriminate.
    destruct (ValidateToken s ts w) as [[token|e] w'] eqn:Hv; [|discriminate].
    assert (fst (ValidateToken s ts w) = Ok token) as Hok by (rewrite Hv; reflexivity).
    apply ValidateToken_Ok_inv in Hok.
    destruct Hok as (h & hd & c & header & claims & A & B & C & D & E & F & _).
    unfold GetUserFromToken. rewrite F.
    destruct (map_get "user_id" claims) as [[| |f| | | |]|] eqn:Hu; try discriminate.
    cbn [fst]. intros H. inversion H.
    exists h, hd, c, header, claims, f. subst ts. repeat split; auto.
  - intros (h & hd & c & header & claims & f & -> & B & C & D & E & F & ->).
    unfold Auth.
    rewrite (ValidateToken_signed s h hd c header claims w B C D), E.
    unfold GetUserFromToken. cbn [Token.Claims]. rewrite F. reflexivity.
Qed.

(** X17. A token that validates but carries no number under [user_id] is
    turned away with a message of its own, "Invalid token claims", not with
    the one a token that fails validation gets. *)
Theorem auth_rejects_token_without_user_id (s : authService) (h : crypto_Hash)
    (hd c : list (string * json_text)) (header claims : MapClaims) (w : World) :
  json_Unmarshal hd = Some header ->
  map_get "alg" header = Some (GoString (Alg (SigningMethodHMAC h))) ->
  json_Unmarshal c = Some claims ->
  claims_errors claims (wall_clock (ticks w)) = [] ->
  (forall f, map_get "user_id" claims <> Some (GoFloat64 f)) ->
  (exists token, fst (ValidateToken s (signed_with s h hd c) w) = Ok token) /\
  fst (Auth s (HeaderBearer (signed_with s h hd c)) w)
    = Abort (response_Error http_StatusUnauthorized "Invalid token claims") /\
  fst (Auth s (HeaderBearer (signed_with s h hd c)) w) <> Abort unauthorized.
Proof.
  intros B C D E Hno.
  assert (fst (Auth s (HeaderBearer (signed_with s h hd c)) w)
          = Abort (response_Error http_StatusUnauthorized "Invalid token claims")) as HA.
  { unfold Auth.
    rewrite (ValidateToken_signed s h hd c header claims w B C D), E.
    unfold GetUserFromToken. cbn [Token.Claims].
    destruct (map_get "user_id" claims) as [[| |f| | | |]|] eqn:Hu; try reflexivity.
    exfalso. exact (Hno f eq_refl). }
  split; [|split; [exact HA|]].
  - rewrite (ValidateToken_signed s h hd c header claims w B C D), E.
    eexists. reflexivity.
  - rewrite HA. discriminate.
Qed.

(** Whatever the middleware answers by itself is a 401. *)
Lemma Auth_Abort_status (s : authService) (authHeader : AuthorizationHeader)
    (w : World) (r : Response.t) :
  fst (Auth s authHeader w) = Abort r ->
  Response.status r = http_StatusUnauthorized /\ Response.success r = false.
Proof.
  unfold Auth. destruct authHeader as [|raw|ts].
  - intros H; inversion H. split; reflexivity.
  - intros H; inversion H. split; reflexivity.
  - destruct (ValidateToken s ts w) as [[token|e] w'].
    + destruct (GetUserFromToken s token); intros H; inversion H. split; reflexivity.
    + intros H; inversion H. split; reflexivity.
Qed.

(** X18. The routes of the [inventory] group are closed: a request the
    middleware does not let through is answered 401, and neither a
    repository is called nor a table, a sequence or the entropy source
    touched. *)
Theorem inventory_route_without_valid_token (s : authService) (r : request)
    (authHeader : AuthorizationHeader) (w : World) :
  route_header r = Some authHeader ->
  (forall userID, fst (Auth s authHeader w) <> Next userID) ->
  let w' := snd (setupRouter s r w) in
  Response.status (fst (setupRouter s r w)) = http_StatusUnauthorized /\
  Response.success (fst (setupRouter s r w)) = false /\
  trace w' = trace w /\
  items w' = items w /\ items_id_seq w' = items_id_seq w /\
  users w' = users w /\ users_id_seq w' = users_id_seq w /\ draws w' = draws w.
Proof.
  intros Hr Hno. cbv zeta.
  assert (forall k : Handler,
            setupRouter s r w = protected s authHeader k w ->
            Response.status (fst (setupRouter s r w)) = http_StatusUnauthorized /\
            Response.success (fst (setupRouter s r w)) = false /\
            trace (snd (setupRouter s r w)) = trace w /\
            items (snd (setupRouter s r w)) = items w /\
            items_id_seq (snd (setupRouter s r w)) = items_id_seq w /\
            users (snd (setupRouter s r w)) = users w /\
            users_id_seq (snd (setupRouter s r w)) = users_id_seq w /\
            draws (snd (setupRouter s r w)) = draws w) as Hk.
  { intros k ->. unfold protected.
    pose proof (Auth_world s authHeader w) as Hw.
    pose proof (Auth_Abort_status s authHeader w) as Hs.
    destruct (Auth s authHeader w) as [[resp|uid] w1] eqn:EA; cbn [fst snd] in *.
    - destruct (Hs resp eq_refl) as [A B].
      destruct Hw as [-> | ->]; repeat split; assumption.
    - exfalso. exact (Hno uid eq_refl). }
  destruct r as [req|req|h req|h|h id|h id req|h id]; cbn [route_header] in Hr;
    inversion Hr; subst; eapply Hk; reflexivity.
Qed.

End MiddlewareSpec.

(** ** The expiry of an issued token *)

Section ExpirySpec.
Context {P : Platform}.

Lemma wrap_int64_small (z : Z) : - 2 ^ 63 <= z < 2 ^ 63 -> wrap_int64 z = z.
Proof. intros H. unfold wrap_int64. rewrite Z.mod_small; lia. Qed.

(** The expiry the validator reads off an issued token, from the number
    written under [exp]. *)
Lemma issued_token_expiry (s : authService) (userID : Z) (n : nat) :
  let e := time_Unix_of (wall_clock n + wrap_int64 (time_Hour * jwtExpiry s)) in
  0 <= userID < 2 ^ 64 ->
  Z.abs e <= 2 ^ 53 ->
  token_expiry (signed_with s SHA256 issued_header (issued_claims s userID n))
  = if e =? 0 then None else Some (time_Unix e).
Proof.
  intros e Hid He. unfold token_expiry, signed_with.
  rewrite issued_claims_decode by lia.
  unfold GetExpirationTime, parseNumericDate.
  cbn [decoded_claims map_get String.eqb Ascii.eqb Bool.eqb].
  fold e. rewrite (round_binary64_exact e He).
  destruct (e =? 0); [reflexivity|].
  unfold int64_of_float64.
  assert ((- 2 ^ 63 <=? e) && (e <? 2 ^ 63) = true) as ->; [|reflexivity].
  apply andb_true_intro. split; [apply Z.leb_le|apply Z.ltb_lt]; lia.
Qed.

(** X19. A token issued when the clock reads [now], past the first second
    of 1970, by a service configured with [jwtExpiry] hours, none of which
    overflows 64 bits of nanoseconds, expires [3600 * jwtExpiry] seconds
    after the second [now] falls in. *)
Theorem issued_token_expires_after_the_configured_hours (s : authService)
    (userID : Z) (w : World) :
  time_Second <= wall_clock (ticks w) ->
  0 <= jwtExpiry s ->
  wall_clock (ticks w) + time_Hour * jwtExpiry s < 2 ^ 63 ->
  0 <= userID < 2 ^ 64 ->
  exists ts,
    fst (generateToken s userID w) = Ok ts /\
    token_expiry ts
      = Some (time_Unix (wall_clock (ticks w) / time_Second + 3600 * jwtExpiry s)).
Proof.
  intros Hnow Hh Hsum Hid.
  rewrite generateToken_run. eexists. split; [reflexivity|].
  unfold time_Hour, time_Second in *.
  assert (time_Unix_of (wall_clock (ticks w)
                        + wrap_int64 (time_Hour * jwtExpiry s))
          = wall_clock (ticks w) / time_Second + 3600 * jwtExpiry s) as He.
  { unfold time_Unix_of, time_Hour, time_Second.
    rewrite (wrap_int64_small (3600 * 1000000000 * jwtExpiry s)) by lia.
    replace (wall_clock (ticks w) + 3600 * 1000000000 * jwtExpiry s)
      with (wall_clock (ticks w) + (3600 * jwtExpiry s) * 1000000000) by lia.
    rewrite Z.div_add by lia.
    apply wrap_int64_small.
    pose proof (Z.div_le_lower_bound (wall_clock (ticks w)) 1000000000 1).
    pose proof (Z.div_le_upper_bound (wall_clock (ticks w)) 1000000000
                  (wall_clock (ticks w))).
    lia. }
  assert (1 <= wall_clock (ticks w) / time_Second + 3600 * jwtExpiry s <= 2 ^ 53) as Hb.
  { unfold time_Second.
    pose proof (Z.div_le_lower_bound (wall_clock (ticks w)) 1000000000 1).
    assert ((wall_clock (ticks w) + (3600 * jwtExpiry s) * 1000000000) / 1000000000
            < 9223372037) as Hq by (apply Z.div_lt_upper_bound; lia).
    rewrite Z.div_add in Hq by lia. lia. }
  rewrite issued_token_expiry by (rewrite ?He; unfold time_Second in *; lia).
  rewrite He.
  destruct (_ =? 0) eqn:E0; [apply Z.eqb_eq in E0; unfold time_Second in *; lia|].
  reflexivity.
Qed.


End ExpirySpec.

(** ** Registering, then logging in *)

Section RegisterLoginSpec.
Context {P : Platform}.

(** [Register] on a name and an address no row has, in a store whose keys
    follow the sequence: the user is created under the next key. *)
Lemma Register_fresh (s : authService) (req : RegisterRequest.t) (w : World)
    (hashedPassword : string) :
  (forall u, In u (users w) -> User.Username u <> RegisterRequest.Username req) ->
  (forall u, In u (users w) -> User.Email u <> RegisterRequest.Email req) ->
  (forall u, In u (users w) -> User.ID u <= users_id_seq w) ->
  bcrypt_hash (RegisterRequest.Password req) bcrypt_DefaultCost (rand_salt (draws w))
    = Ok hashedPassword ->
  let user := User.with_ID (users_id_seq w + 1)
                (User.with_UpdatedAt (wall_clock (ticks w))
                   (User.with_CreatedAt (wall_clock (ticks w))
                      (user_of_request req hashedPassword))) in
  fst (Register s req w) = Ok user /\
  users (snd (Register s req w)) = users w ++ [user_row user].
Proof.
  intros Hname Hmail Hseq Hhash. cbv zeta.
  rewrite Register_run. cbv zeta.
  rewrite (proj2 (live_by_Username_None _ (users w))) by (intros u Hu _; auto).
  rewrite (proj2 (live_by_Email_None _ (users w))) by (intros u Hu _; auto).
  rewrite Hhash, userRepository_Create_run. cbv zeta.
  cbn [users users_id_seq ticks with_draws with_trace].
  replace (users_insert_violation _ _) with (@None string); [split; reflexivity|].
  symmetry. unfold users_insert_violation.
  rewrite existsb_false.
  2:{ intros u Hu. apply Z.eqb_neq. cbn. specialize (Hseq u Hu). lia. }
  rewrite existsb_false.
  2:{ intros u Hu. apply String.eqb_neq. cbn. auto. }
  rewrite existsb_false; [reflexivity|].
  intros u Hu. apply String.eqb_neq. cbn. auto.
Qed.

(** X21. Registration and login compose.  After [Register] on a name and
    an address that are new, with a hash that bcrypt accepts for the
    password it was made from, the user exists under the next key with the
    hash for a password, never the password itself unless bcrypt returns
    it; [Login] with the same name and password then succeeds and hands
    back that user; and [Login] with a password bcrypt does not accept
    for the hash fails with "invalid username or password". *)
Theorem register_then_login (s : authService) (req : RegisterRequest.t) (w : World)
    (hashedPassword : string) :
  (forall u, In u (users w) -> User.Username u <> RegisterRequest.Username req) ->
  (forall u, In u (users w) -> User.Email u <> RegisterRequest.Email req) ->
  (forall u, In u (users w) -> User.ID u <= users_id_seq w) ->
  bcrypt_hash (RegisterRequest.Password req) bcrypt_DefaultCost (rand_salt (draws w))
    = Ok hashedPassword ->
  bcrypt_CompareHashAndPassword hashedPassword (RegisterRequest.Password req) = None ->
  exists user,
    fst (Register s req w) = Ok user /\
    User.ID user = users_id_seq w + 1 /\
    User.Password user = hashedPassword /\
    (exists ts,
       fst (Login s (LoginRequest.mk (RegisterRequest.Username req)
                       (RegisterRequest.Password req))
              (snd (Register s req w)))
       = Ok (LoginResponse.mk ts (user_row user))) /\
    (forall password e,
       bcrypt_CompareHashAndPassword hashedPassword password = Some e ->
       fst (Login s (LoginRequest.mk (RegisterRequest.Username req) password)
              (snd (Register s req w)))
       = Err (errors_New "invalid username or password")).
Proof.
  intros Hname Hmail Hseq Hhash Hcmp.
  destruct (Register_fresh s req w hashedPassword Hname Hmail Hseq Hhash) as [Hreg Husers].
  eexists. split; [exact Hreg|]. split; [reflexivity|]. split; [reflexivity|].
  set (user := User.with_ID (users_id_seq w + 1)
                 (User.with_UpdatedAt (wall_clock (ticks w))
                    (User.with_CreatedAt (wall_clock (ticks w))
                       (user_of_request req hashedPassword)))) in *.
  assert (live_by_Username (RegisterRequest.Username req)
            (users (snd (Register s req w))) = Some (user_row user)) as Hfind.
  { rewrite Husers. apply first_where_unique.
    - apply in_or_app. right. left. reflexivity.
    - cbn. apply String.eqb_refl.
    - intros u' Hin Hc. apply in_app_or in Hin. destruct Hin as [Hin|[Hin|[]]]; [|auto].
      apply andb_prop in Hc. destruct Hc as [_ Hc]. apply String.eqb_eq in Hc.
      exfalso. exact (Hname u' Hin Hc). }
  split.
  - rewrite Login_run. cbv zeta. cbn [LoginRequest.Username LoginRequest.Password].
    rewrite Hfind.
    change (User.Password (user_row user)) with hashedPassword.
    rewrite Hcmp. eexists. reflexivity.
  - intros password e He.
    rewrite Login_run. cbv zeta. cbn [LoginRequest.Username LoginRequest.Password].
    rewrite Hfind.
    change (User.Password (user_row user)) with hashedPassword.
    rewrite He. reflexivity.
Qed.

Lemma Register_users (s : authService) (req : RegisterRequest.t) (w : World) :
  users (snd (Register s req w)) = users w \/
  exists user,
    user_live user = true /\
    User.Username user = RegisterRequest.Username req /\
    User.Email user = RegisterRequest.Email req /\
    live_by_Username (RegisterRequest.Username req) (users w) = None /\
    live_by_Email (RegisterRequest.Email req) (users w) = None /\
    users (snd (Register s req w)) = users w ++ [user].
Proof.
  rewrite Register_run. cbv zeta.
  destruct (live_by_Username _ _) eqn:Hn; [left; reflexivity|].
  destruct (live_by_Email _ _) eqn:He; [left; reflexivity|].
  destruct (bcrypt_hash _ _ _); [|left; reflexivity].
  rewrite userRepository_Create_run. cbv zeta.
  destruct (users_insert_violation _ _); [left; reflexivity|].
  right. eexists. split; [|split; [|split; [|split; [|split; [|reflexivity]]]]];
    try assumption; reflexivity.
Qed.

Lemma Register_keeps_distinct (s : authService) (req : RegisterRequest.t) (w : World) :
  users_distinct w -> users_distinct (snd (Register s req w)).
Proof.
  intros [Hn He]. unfold users_distinct.
  destruct (Register_users s req w) as [-> | [user (Hl & Hu & Hm & Hnone & Hnone' & ->)]];
    [split; assumption|].
  rewrite filter_app, !map_app. cbn [filter]. rewrite Hl. cbn [map].
  split; apply NoDup_snoc; try assumption.
  - intros Hin. apply in_map_iff in Hin. destruct Hin as [u [E Hu']].
    apply filter_In in Hu'. destruct Hu' as [Hu' Hul].
    apply (proj1 (live_by_Username_None _ _) Hnone u Hu' Hul). congruence.
  - intros Hin. apply in_map_iff in Hin. destruct Hin as [u [E Hu']].
    apply filter_In in Hu'. destruct Hu' as [Hu' Hul].
    apply (proj1 (live_by_Email_None _ _) Hnone' u Hu' Hul). congruence.
Qed.

Lemma users_distinct_frame (w w' : World) :
  users w' = users w -> users_distinct w -> users_distinct w'.
Proof. unfold users_distinct. intros ->. auto. Qed.

Lemma setupRouter_keeps_distinct (s : authService) (r : request) (w : World) :
  users_distinct w -> users_distinct (snd (setupRouter s r w)).
Proof.
  intros Hok.
  destruct (route_header r) eqn:Hr.
  - destruct (inventory_routes_users s r w) as (H & _); [congruence|].
    exact (users_distinct_frame _ _ H Hok).
  - destruct r as [req|req|h req|h|h id|h id req|h id]; try discriminate;
      cbn [setupRouter].
    + unfold AuthHandler_Register.
      destruct (validate_RegisterRequest req); [|exact Hok].
      pose proof (Register_keeps_distinct s req w Hok) as Hk.
      destruct (Register s req w) as [[u|e] w']; exact Hk.
    + unfold AuthHandler_Login.
      destruct (validate_LoginRequest req); [|exact Hok].
      pose proof (Login_frame s req w) as (H & _).
      destruct (Login s req w) as [[u|e] w']; exact (users_distinct_frame _ _ H Hok).
Qed.

(** X22. No two live users share a name or an address: [Register] keeps it
    so by its two lookups, whatever the store's indexes do, every request
    keeps it so, and it holds after any sequence of requests on the freshly
    migrated store. *)
Theorem users_stay_distinct (s : authService) (w : World) :
  users_distinct w ->
  (forall req, users_distinct (snd (Register s req w))) /\
  (forall rs, users_distinct (serve s rs w)) /\
  (forall rs, users_distinct (serve s rs initial_world)).
Proof.
  assert (forall rs w0, users_distinct w0 -> users_distinct (serve s rs w0)) as Hserve.
  { induction rs as [|r rs IH]; intros w0 H0; simpl; [exact H0|].
    apply IH. apply setupRouter_keeps_distinct. exact H0. }
  intros Hok.
  split; [intros req; exact (Register_keeps_distinct s req w Hok)|].
  split; [intros rs; exact (Hserve rs w Hok)|].
  intros rs. apply Hserve. split; constructor.
Qed.

End RegisterLoginSpec.

(** ** The handlers *)

Section HandlerSpec.
Context {P : Platform}.

Lemma parse_digits_Some (s : string) (acc v : Z) :
  parse_digits s acc = Some v -> 0 <= acc -> acc <= v /\ all_digits s = true.
Proof.
  revert acc. induction s as [|c s IH]; intros acc; cbn [parse_digits all_digits].
  - intros H _. inversion H. split; [lia|reflexivity].
  - cbv zeta. unfold is_digit.
    destruct (0 <=? Z.of_nat (nat_of_ascii c) - 48) eqn:A; [|discriminate].
    destruct (Z.of_nat (nat_of_ascii c) - 48 <=? 9) eqn:B; [|discriminate].
    cbn [andb]. intros H Hacc.
    apply Z.leb_le in A. apply Z.leb_le in B.
    destruct (IH _ H) as [Hle Hall]; [lia|].
    split; [lia|]. rewrite Hall.
    assert ((48 <=? Z.of_nat (nat_of_ascii c)) = true) as -> by (apply Z.leb_le; lia).
    assert ((Z.of_nat (nat_of_ascii c) <=? 57) = true) as -> by (apply Z.leb_le; lia).
    reflexivity.
Qed.

Lemma parse_digits_None (s : string) (acc : Z) :
  all_digits s = false -> parse_digits s acc = None.
Proof.
  revert acc. induction s as [|c s IH]; intros acc; cbn [parse_digits all_digits];
    [discriminate|].
  cbv zeta. unfold is_digit. intros H.
  destruct (0 <=? Z.of_nat (nat_of_ascii c) - 48) eqn:A; [|reflexivity].
  destruct (Z.of_nat (nat_of_ascii c) - 48 <=? 9) eqn:B; [|reflexivity].
  cbn [andb]. apply IH.
  apply Z.leb_le in A. apply Z.leb_le in B.
  assert ((48 <=? Z.of_nat (nat_of_ascii c)) = true) as E1 by (apply Z.leb_le; lia).
  assert ((Z.of_nat (nat_of_ascii c) <=? 57) = true) as E2 by (apply Z.leb_le; lia).
  rewrite E1, E2 in H. exact H.
Qed.

(** X23. The identifier in the path.  What [strconv.ParseUint(s, 10, 32)]
    accepts is a non-empty string of decimal digits, and its value is below
    [2 ^ 32]; on an empty parameter or one with any other character, a sign
    included, each of the three handlers that take an identifier answers
    400 "Invalid item ID" and calls nothing. *)
Theorem item_id_parameter (idParam : string) :
  (forall id, strconv_ParseUint32 idParam = Some id ->
              0 <= id < 2 ^ 32 /\ idParam <> "" /\ all_digits idParam = true) /\
  (idParam = "" \/ all_digits idParam = false ->
   forall req w,
     InventoryHandler_GetItemByID idParam w
       = (response_Error http_StatusBadRequest "Invalid item ID", w) /\
     InventoryHandler_UpdateItem idParam req w
       = (response_Error http_StatusBadRequest "Invalid item ID", w) /\
     InventoryHandler_DeleteItem idParam w
       = (response_Error http_StatusBadRequest "Invalid item ID", w)).
Proof.
  split.
  - intros id. unfold strconv_ParseUint32.
    destruct (String.eqb idParam "") eqn:E; [discriminate|].
    destruct (parse_digits idParam 0) as [v|] eqn:Hp; [|discriminate].
    destruct (v <? 2 ^ 32) eqn:Hlt; [|discriminate].
    intros H; inversion H; subst v.
    apply parse_digits_Some in Hp; [|lia]. destruct Hp as [H0 Hall].
    apply Z.ltb_lt in Hlt. apply String.eqb_neq in E. auto.
  - intros Hbad req w.
    assert (strconv_ParseUint32 idParam = None) as Hnone.
    { unfold strconv_ParseUint32. destruct Hbad as [-> | Hbad]; [reflexivity|].
      destruct (String.eqb idParam ""); [reflexivity|].
      rewrite (parse_digits_None idParam 0 Hbad). reflexivity. }
    unfold InventoryHandler_GetItemByID, InventoryHandler_UpdateItem,
      InventoryHandler_DeleteItem.
    rewrite Hnone. repeat split.
Qed.

(** X24. An identifier no live item has: the handlers of GET and DELETE
    answer 404, the handler of PUT answers 400, each with the message
    "item not found". *)
Theorem missing_item_status (idParam : string) (id : Z) (req : UpdateItemRequest.t)
    (w : World) :
  strconv_ParseUint32 idParam = Some id ->
  (forall item, In item (items w) -> item_live item = true -> Item.ID item <> id) ->
  fst (InventoryHandler_GetItemByID idParam w)
    = response_Error http_StatusNotFound "item not found" /\
  fst (InventoryHandler_DeleteItem idParam w)
    = response_Error http_StatusNotFound "item not found" /\
  (validate_UpdateItemRequest req = [] ->
   fst (InventoryHandler_UpdateItem idParam req w)
     = response_Error http_StatusBadRequest "item not found").
Proof.
  intros Hid Hno. apply live_by_ID_None in Hno.
  unfold InventoryHandler_GetItemByID, InventoryHandler_UpdateItem,
    InventoryHandler_DeleteItem.
  rewrite Hid, GetItemByID_run, DeleteItem_run, UpdateItem_run, Hno.
  split; [reflexivity|]. split; [reflexivity|].
  intros ->. reflexivity.
Qed.

End HandlerSpec.

(** ** The validator *)

Section ValidatorSpec.
Context {P : Platform}.

Lemma field_errors_Tag (field : string) (tags : list (string * string * bool))
    (e : FieldError) :
  In e (field_errors field tags) -> In (Tag e) (map (fun t => fst (fst t)) tags).
Proof.
  induction tags as [|[[tag param] ok] tags IH]; cbn [field_errors map fst];
    [intros []|].
  destruct ok.
  - intros H. right. exact (IH H).
  - intros [<-|[]]. left. reflexivity.
Qed.

(** The tags [getErrorMessage] has a message for. *)
Lemma getErrorMessage_known (e : FieldError) :
  In (Tag e) ["required"; "email"; "min"; "max"; "non_negative"; "positive"] ->
  getErrorMessage e
    <> String.append "failed validation '" (String.append (Tag e) "'").
Proof.
  unfold getErrorMessage. cbn [In].
  intros [H|[H|[H|[H|[H|[H|[]]]]]]]; rewrite <- H; cbn; discriminate.
Qed.

(** X25. The tags of the four request structs and the messages of the
    validator fit together: whatever the binding of a request reports, its
    tag is one [getErrorMessage] has a message for, and the fallback
    "failed validation '<tag>'" is never what a client reads. *)
Theorem binding_errors_have_specific_messages
    (create : CreateItemRequest.t) (update : UpdateItemRequest.t)
    (login : LoginRequest.t) (register : RegisterRequest.t) (e : FieldError) :
  In e (validate_CreateItemRequest create) \/
  In e (validate_UpdateItemRequest update) \/
  In e (validate_LoginRequest login) \/
  In e (validate_RegisterRequest register) ->
  In (Tag e) ["required"; "email"; "min"; "max"; "non_negative"] /\
  getErrorMessage e
    <> String.append "failed validation '" (String.append (Tag e) "'").
Proof.
  intros H.
  assert (In (Tag e) ["required"; "email"; "min"; "max"; "non_negative"]) as Htag.
  { destruct H as [H|[H|[H|H]]].
    - unfold validate_CreateItemRequest in H.
      repeat (apply in_app_or in H; destruct H as [H|H]);
        apply field_errors_Tag in H; cbn in H; cbn [In]; tauto.
    - unfold validate_UpdateItemRequest, omitempty in H.
      repeat (apply in_app_or in H; destruct H as [H|H]);
        match type of H with
        | In _ (match ?o with Some _ => _ | None => _ end) =>
            destruct o; [|destruct H]
        end;
        apply field_errors_Tag in H; cbn in H; cbn [In]; tauto.
    - unfold validate_LoginRequest in H.
      repeat (apply in_app_or in H; destruct H as [H|H]);
        apply field_errors_Tag in H; cbn in H; cbn [In]; tauto.
    - unfold validate_RegisterRequest in H.
      repeat (apply in_app_or in H; destruct H as [H|H]);
        apply field_errors_Tag in H; cbn in H; cbn [In]; tauto. }
  split; [exact Htag|].
  apply getErrorMessage_known. cbn [In] in *. tauto.
Qed.

(** X26. [validatePositive] is the stricter of the two custom validations:
    whatever field it passes, [validateNonNegative] passes as well, for
    signed and unsigned integers and for floats as Go compares them. *)
Theorem positive_is_non_negative (fl : field_value) :
  validatePositive fl = true -> validateNonNegative fl = true.
Proof.
  destruct fl as [v|v|v|]; cbn [validatePositive validateNonNegative].
  - intros H. apply Z.ltb_lt in H. apply Z.leb_le. lia.
  - reflexivity.
  - rewrite FloatAxioms.ltb_spec, FloatAxioms.leb_spec.
    unfold SpecFloat.SFltb, SpecFloat.SFleb.
    destruct (SpecFloat.SFcompare _ _) as [[| |]|]; try discriminate; reflexivity.
  - discriminate.
Qed.

End ValidatorSpec.



(** * The model at work

    The scenario of the specification, run on [test_platform], and each
    theorem above applied to a state of that run. *)

Example scenario_register :
  fst (@Register test_platform svc johndoe initial_world) = Ok row_johndoe /\
  fst (@Register test_platform svc
         (RegisterRequest.mk "johndoe" "other@example.com" "securepassword123")
         world_johndoe)
  = Err (errors_New "username already exists").
Proof. split; vm_compute; reflexivity. Qed.

Example scenario_items :
  fst (@CreateItem test_platform laptop initial_world) = Ok row_laptop /\
  fst (@CreateItem test_platform laptop world_laptop)
  = Err (errors_New "item with this SKU already exists").
Proof. split; vm_compute; reflexivity. Qed.

(** The service by itself does not look at the sign of a quantity: the
    binding rules of the handler do. *)
Example service_stores_what_it_is_given :
  let req := CreateItemRequest.mk "Laptop" "LAPTOP-001" "" (-5) 1299.5%float "" in
  map Item.Quantity (items (snd (@CreateItem test_platform req initial_world))) = [-5] /\
  fst (@InventoryHandler_CreateItem test_platform req initial_world)
  = response_Error http_StatusBadRequest "Field 'Quantity' must be non-negative".
Proof. split; vm_compute; reflexivity. Qed.



(** C2 at work: a second registration under the name [johndoe]. *)
Lemma register_checks_before_hashing_witness :
  let req := RegisterRequest.mk "johndoe" "other@example.com" "securepassword123" in
  fst (@Register test_platform svc req world_johndoe)
    = Err (errors_New "username already exists") /\
  users (snd (@Register test_platform svc req world_johndoe)) = users world_johndoe /\
  draws (snd (@Register test_platform svc req world_johndoe)) = draws world_johndoe /\
  trace (snd (@Register test_platform svc req world_johndoe))
    = trace world_johndoe ++ [UserRepository_FindByUsername "johndoe"].
Proof.
  intros req.
  apply (proj1 (@register_checks_before_hashing test_platform svc req world_johndoe)).
  exists row_johndoe. split; [left; reflexivity|]. split; reflexivity.
Defined.

(** C3 at work: an unknown name, and [johndoe] with a wrong password. *)
Lemma login_failures_are_identical_witness :
  fst (@Login test_platform svc (LoginRequest.mk "nobody" "securepassword123")
         world_johndoe)
    = Err (errors_New "invalid username or password") /\
  fst (@Login test_platform svc (LoginRequest.mk "johndoe" "wrong") world_johndoe)
    = fst (@Login test_platform svc (LoginRequest.mk "nobody" "securepassword123")
             world_johndoe).
Proof.
  pose proof (@login_failures_are_identical test_platform svc
                (LoginRequest.mk "nobody" "securepassword123")
                (LoginRequest.mk "johndoe" "wrong")
                world_johndoe world_johndoe row_johndoe
                (bcrypt_error "hashedPassword is not the hash of the given password"))
    as H.
  assert (forall u, In u (users world_johndoe) -> user_live u = true ->
                    User.Username u <> "nobody") as H1.
  { intros u [<-|[]] _. discriminate. }
  assert (NoDup (map User.Username (users world_johndoe))) as H2.
  { vm_compute. constructor; [intros []|constructor]. }
  assert (In row_johndoe (users world_johndoe)) as H3 by (left; reflexivity).
  destruct (H H1 H2 H3 eq_refl eq_refl eq_refl) as (A & B & _).
  split; [exact A | exact B].
Defined.

(** C4 at work: a string that is no token. *)
Lemma validate_failure_is_generic_witness :
  fst (@Auth test_platform svc (HeaderBearer (Malformed "not.a.token")) world_johndoe)
    = Abort unauthorized.
Proof.
  apply (proj1 (@validate_failure_is_generic test_platform svc
                  (Malformed "not.a.token") world_johndoe)
           (jwt_newError "" ErrTokenMalformed [])).
  reflexivity.
Defined.


(** C6 at work: the laptop was created and deleted; creating it again hits
    the unique index on [sku]. *)
Lemma create_item_sku_of_deleted_item_witness :
  fst (@CreateItem test_platform laptop world_laptop_deleted)
    = Err (pg_unique_violation "idx_items_sku") /\
  (exists c, fst (@CreateItem test_platform laptop world_laptop_deleted)
             = Err (pg_unique_violation c)) /\
  items (snd (@CreateItem test_platform laptop world_laptop_deleted))
    = items world_laptop_deleted.
Proof.
  split; [vm_compute; reflexivity|].
  apply (@create_item_sku_of_deleted_item test_platform laptop world_laptop_deleted).
  - intros r [<-|[]] Hl. vm_compute in Hl. discriminate.
  - eexists. split; [left; reflexivity|]. split; vm_compute; reflexivity.
Defined.

(** C7 at work: the stock of the laptop is set to 30. *)
Lemma update_item_is_partial_witness :
  exists item',
    fst (@UpdateItem test_platform 1
           (UpdateItemRequest.mk None None None (Some 30) None None) world_laptop)
      = Ok item' /\
    Item.Quantity item' = 30 /\
    Item.Name item' = "Laptop" /\
    Item.SKU item' = "LAPTOP-001" /\
    Item.Description item' = "" /\
    Item.Price item' = 1299.5%float /\
    Item.Category item' = "".
Proof.
  assert (fst (GetItemByID 1 world_laptop) = Ok row_laptop) as Hget by reflexivity.
  assert (1 <> 0) as Hnz by discriminate.
  assert (NoDup (map Item.SKU (items world_laptop))) as Hnd.
  { vm_compute. constructor; [intros []|constructor]. }
  exact (proj2 (@update_item_is_partial test_platform 1
                  (UpdateItemRequest.mk None None None (Some 30) None None)
                  world_laptop row_laptop Hget)
           30 eq_refl Hnz Hnd).
Defined.

(** C8 at work: the laptop is deleted, and item 2 never existed. *)
Lemma delete_item_then_not_found_witness :
  fst (GetItemByID 1 (snd (@DeleteItem test_platform 1 world_laptop)))
    = Err (errors_New "item not found") /\
  fst (@DeleteItem test_platform 2 world_laptop) = Err (errors_New "item not found").
Proof.
  split.
  - apply (proj1 (@delete_item_then_not_found test_platform 1 world_laptop)).
    exists row_laptop. split; [left; reflexivity|]. split; reflexivity.
  - apply (proj2 (@delete_item_then_not_found test_platform 2 world_laptop)).
    intros item [<-|[]] _. discriminate.
Defined.

(** C9 at work: after the laptop is created, an update under a token that
    validates and a delete without a token. *)
Lemma inventory_invariant_is_kept_witness :
  inventory_ok world_laptop /\
  inventory_invariant
    (@serve test_platform svc
       [ PUT_inventory_items_id
           (HeaderBearer (@signed_with test_platform svc SHA256 issued_header
                            valid_claims))
           "1" (UpdateItemRequest.mk None None None (Some 30) None None);
         DELETE_inventory_items_id HeaderEmpty "1" ]
       world_laptop).
Proof.
  assert (inventory_ok world_laptop) as Hok.
  { apply (@CreateItem_keeps_ok test_platform laptop initial_world).
    - exact initial_world_ok.
    - vm_compute. reflexivity. }
  split; [exact Hok|].
  exact (proj1 (proj2 (proj2 (proj2 (proj2
           (@inventory_invariant_is_kept test_platform svc world_laptop Hok))))) _).
Defined.

(** C10 at work: a token signed with HS384 under the secret validates. *)
Lemma validate_accepts_any_hmac_method_witness :
  exists token,
    fst (@ValidateToken test_platform svc
           (@signed_with test_platform svc SHA384 hs384_header valid_claims)
           initial_world) = Ok token /\
    Token.Method token = SigningMethodHS384 /\
    Token.Valid token = true.
Proof.
  apply (proj1 (@validate_accepts_any_hmac_method test_platform svc SHA384
                  hs384_header valid_claims
                  [("alg", GoString "HS384"); ("typ", GoString "JWT")]
                  [("exp", GoFloat64 1700086400); ("iat", GoFloat64 1700000000);
                   ("user_id", GoFloat64 1)]
                  initial_world eq_refl eq_refl eq_refl eq_refl)).
Defined.

(** The four ways to fail, on [test_platform]: the service tells them apart,
    the middleware does not. *)
Example validate_token_errors_differ :
  let bad := [ Malformed "not.a.token";
               Segments rs256_header valid_claims (Some "signature");
               Segments issued_header valid_claims (Some "signature");
               @signed_with test_platform svc SHA256 issued_header expiring_claims ] in
  map (fun ts => fst (@ValidateToken test_platform svc ts initial_world)) bad
  = [ Err (jwt_newError "" ErrTokenMalformed []);
      Err (jwt_newError "error while executing keyfunc" ErrTokenUnverifiable
             [keyfunc_Err "unexpected signing method"]);
      Err (jwt_newError "" ErrTokenSignatureInvalid [jwt_Err ErrSignatureInvalid]);
      Err (jwt_newError "" ErrTokenInvalidClaims [jwt_Err ErrTokenExpired]) ] /\
  map (fun ts => fst (@Auth test_platform svc (HeaderBearer ts) initial_world)) bad
  = [ Abort unauthorized; Abort unauthorized; Abort unauthorized; Abort unauthorized ].
Proof. split; vm_compute; reflexivity. Qed.

(** The token of the scenario lets a request through as user 1. *)
Example scenario_auth :
  fst (@Auth test_platform svc
         (HeaderBearer (@signed_with test_platform svc SHA256 issued_header valid_claims))
         initial_world)
  = Next 1.
Proof. vm_compute. reflexivity. Qed.

(** ** The further properties at work *)

(** X1 at work: the laptop is there, and a second one is turned down. *)
Lemma create_item_sku_conflict_witness :
  fst (@CreateItem test_platform laptop world_laptop)
    = Err (errors_New "item with this SKU already exists") /\
  items (snd (@CreateItem test_platform laptop world_laptop)) = items world_laptop /\
  items_id_seq (snd (@CreateItem test_platform laptop world_laptop))
    = items_id_seq world_laptop /\
  trace (snd (@CreateItem test_platform laptop world_laptop))
    = trace world_laptop ++ [InventoryRepository_FindBySKU (CreateItemRequest.SKU laptop)].
Proof.
  apply (@create_item_sku_conflict test_platform laptop world_laptop).
  exists row_laptop. split; [left; reflexivity|]. split; reflexivity.
Defined.

(** X2 at work: the mouse is created next to the laptop. *)
Lemma create_item_fresh_sku_witness :
  fst (@CreateItem test_platform mouse world_laptop)
    = Ok (@created_item test_platform mouse world_laptop) /\
  fst (GetItemByID 2 (snd (@CreateItem test_platform mouse world_laptop)))
    = Ok row_mouse.
Proof.
  destruct (@create_item_fresh_sku test_platform mouse world_laptop) as (A & B & _).
  - intros r [<-|[]]. discriminate.
  - intros r [<-|[]]. vm_compute. discriminate.
  - split; [exact A|exact B].
Defined.

(** X3 at work: there is no item 2 next to the laptop. *)
Lemma update_item_not_found_witness :
  fst (@UpdateItem test_platform 2
         (UpdateItemRequest.mk None None None (Some 30) None None) world_laptop)
    = Err (errors_New "item not found").
Proof.
  apply (@update_item_not_found test_platform 2
           (UpdateItemRequest.mk None None None (Some 30) None None) world_laptop).
  intros item [<-|[]] _. discriminate.
Defined.

(** X4 at work: the mouse cannot take the SKU of the laptop. *)
Lemma update_item_sku_conflict_witness :
  fst (@UpdateItem test_platform 2
         (UpdateItemRequest.mk None (Some "LAPTOP-001") None None None None)
         world_two_items)
    = Err (errors_New "item with SKU 'LAPTOP-001' already exists").
Proof.
  apply (@update_item_sku_conflict test_platform 2
           (UpdateItemRequest.mk None (Some "LAPTOP-001") None None None None)
           world_two_items row_mouse row_laptop "LAPTOP-001").
  - vm_compute. reflexivity.
  - reflexivity.
  - discriminate.
  - left. reflexivity.
  - reflexivity.
  - reflexivity.
Defined.

(** X5 at work: the laptop's stock is set to 30 in a request that repeats
    its SKU. *)
Lemma update_item_keeping_sku_witness :
  exists item',
    fst (@UpdateItem test_platform 1
           (UpdateItemRequest.mk None (Some "LAPTOP-001") None (Some 30) None None)
           world_two_items) = Ok item' /\
    Item.SKU item' = "LAPTOP-001".
Proof.
  destruct (@update_item_keeping_sku test_platform 1
              (UpdateItemRequest.mk None (Some "LAPTOP-001") None (Some 30) None None)
              world_two_items row_laptop) as [item' (A & B & _)].
  - vm_compute. repeat constructor; intros H; repeat destruct H as [H|H];
      try discriminate H; exact H.
  - discriminate.
  - vm_compute. reflexivity.
  - right. reflexivity.
  - exists item'. split; [exact A|exact B].
Defined.

(** X6 at work: the laptop moves to the SKU LAPTOP-002. *)
Lemma update_item_changes_sku_witness :
  exists item',
    fst (@UpdateItem test_platform 1
           (UpdateItemRequest.mk None (Some "LAPTOP-002") None None None None)
           world_two_items) = Ok item' /\
    Item.SKU item' = "LAPTOP-002" /\
    fst (inventoryRepository_FindBySKU "LAPTOP-001"
           (snd (@UpdateItem test_platform 1
                   (UpdateItemRequest.mk None (Some "LAPTOP-002") None None None None)
                   world_two_items)))
      = Ok None.
Proof.
  destruct (@update_item_changes_sku test_platform 1
              (UpdateItemRequest.mk None (Some "LAPTOP-002") None None None None)
              world_two_items row_laptop "LAPTOP-002")
    as [item' (A & B & _ & _ & C & _)].
  - vm_compute. repeat constructor; intros H; repeat destruct H as [H|H];
      try discriminate H; exact H.
  - discriminate.
  - vm_compute. reflexivity.
  - reflexivity.
  - intros r [<-|[<-|[]]]; discriminate.
  - exists item'. split; [exact A|]. split; [exact B|exact C].
Defined.

(** X7 at work: the laptop is deleted, and the mouse cannot take its SKU. *)
Lemma update_item_sku_of_deleted_item_witness :
  fst (@UpdateItem test_platform 2
         (UpdateItemRequest.mk None (Some "LAPTOP-001") None None None None)
         world_mouse_left)
    = Err (pg_unique_violation "idx_items_sku") /\
  items (snd (@UpdateItem test_platform 2
                (UpdateItemRequest.mk None (Some "LAPTOP-001") None None None None)
                world_mouse_left))
    = items world_mouse_left.
Proof.
  apply (@update_item_sku_of_deleted_item test_platform 2
           (UpdateItemRequest.mk None (Some "LAPTOP-001") None None None None)
           world_mouse_left row_mouse row_laptop_deleted "LAPTOP-001").
  - vm_compute. repeat constructor; intros H; repeat destruct H as [H|H];
      try discriminate H; exact H.
  - discriminate.
  - vm_compute. reflexivity.
  - reflexivity.
  - intros r [<-|[<-|[]]] Hl; [vm_compute in Hl|]; discriminate.
  - left. reflexivity.
  - reflexivity.
  - reflexivity.
Defined.

(** X8 at work: an update of the laptop leaves the mouse as it is. *)
Lemma update_item_leaves_the_others_witness :
  fst (GetItemByID 2
         (snd (@UpdateItem test_platform 1
                 (UpdateItemRequest.mk None None None (Some 30) None None)
                 world_two_items)))
    = fst (GetItemByID 2 world_two_items).
Proof.
  assert (1 <> 0) as Hnz by discriminate.
  apply (proj2 (@update_item_leaves_the_others test_platform 1
                  (UpdateItemRequest.mk None None None (Some 30) None None)
                  world_two_items Hnz)).
  discriminate.
Defined.

(** X9 at work: deleting the laptop leaves the mouse as it is. *)
Lemma delete_item_leaves_the_others_witness :
  fst (GetItemByID 2 (snd (@DeleteItem test_platform 1 world_two_items)))
    = fst (GetItemByID 2 world_two_items).
Proof.
  apply (proj1 (proj2 (@delete_item_leaves_the_others test_platform 1 world_two_items))).
  discriminate.
Defined.

(** X10 at work: the mouse is found under 2 and is in the list. *)
Lemma reads_agree_witness :
  Item.ID row_mouse = 2 /\
  exists l, fst (GetAllItems world_two_items) = Ok l /\ In row_mouse l.
Proof.
  apply (proj1 (reads_agree world_two_items)).
  vm_compute. reflexivity.
Defined.

(** X11 at work: creating the mouse appends its row. *)
Lemma create_item_appends_one_row_witness :
  items (snd (@CreateItem test_platform mouse world_laptop))
    = items world_laptop
      ++ [@item_row test_platform (@created_item test_platform mouse world_laptop)].
Proof.
  apply (proj2 (@create_item_appends_one_row test_platform mouse world_laptop)).
  vm_compute. reflexivity.
Defined.

(** X12 at work: the key of the deleted laptop is not given out again. *)
Lemma item_keys_follow_the_sequence_witness :
  keys_in_sequence world_laptop_deleted /\
  keys_in_sequence (snd (@CreateItem test_platform mouse world_laptop_deleted)).
Proof.
  assert (keys_in_sequence world_laptop_deleted) as Hok.
  { split; [vm_compute; discriminate|].
    repeat constructor; vm_compute; discriminate. }
  split; [exact Hok|].
  exact (proj1 (@item_keys_follow_the_sequence test_platform svc world_laptop_deleted Hok)
           mouse).
Defined.

(** X13 at work: after the laptop is deleted, a mouse can be created
    exactly because no row has its SKU. *)
Lemma create_item_succeeds_iff_sku_unused_witness :
  (exists item, fst (@CreateItem test_platform mouse world_laptop_deleted) = Ok item) <->
  (forall r, In r (items world_laptop_deleted) ->
             Item.SKU r <> CreateItemRequest.SKU mouse).
Proof.
  apply (@create_item_succeeds_iff_sku_unused test_platform mouse world_laptop_deleted).
  split; [vm_compute; discriminate|].
  repeat constructor; vm_compute; discriminate.
Defined.

(** X15 at work: the token of the scenario is accepted. *)
Lemma validate_token_accepts_exactly_witness :
  exists token,
    fst (@ValidateToken test_platform svc
           (@signed_with test_platform svc SHA256 issued_header valid_claims)
           initial_world) = Ok token.
Proof.
  apply (proj2 (@validate_token_accepts_exactly test_platform svc
                  (@signed_with test_platform svc SHA256 issued_header valid_claims)
                  initial_world)).
  exists SHA256, issued_header, valid_claims,
    [("alg", GoString "HS256"); ("typ", GoString "JWT")],
    [("exp", GoFloat64 1700086400); ("iat", GoFloat64 1700000000);
     ("user_id", GoFloat64 1)].
  repeat split; vm_compute; reflexivity.
Defined.

(** X16 at work: the token of the scenario lets a request through as
    user 1. *)
Lemma auth_lets_through_exactly_witness :
  fst (@Auth test_platform svc
         (HeaderBearer (@signed_with test_platform svc SHA256 issued_header valid_claims))
         initial_world)
    = Next 1.
Proof.
  apply (proj2 (@auth_lets_through_exactly test_platform svc
                  (HeaderBearer (@signed_with test_platform svc SHA256 issued_header
                                   valid_claims))
                  initial_world 1)).
  exists SHA256, issued_header, valid_claims,
    [("alg", GoString "HS256"); ("typ", GoString "JWT")],
    [("exp", GoFloat64 1700086400); ("iat", GoFloat64 1700000000);
     ("user_id", GoFloat64 1)], 1.
  repeat split; vm_compute; reflexivity.
Defined.

(** X17 at work: a token signed under the secret that names no user. *)
Lemma auth_rejects_token_without_user_id_witness :
  fst (@Auth test_platform svc
         (HeaderBearer (@signed_with test_platform svc SHA256 issued_header
                          anonymous_claims))
         initial_world)
    = Abort (response_Error http_StatusUnauthorized "Invalid token claims").
Proof.
  apply (@auth_rejects_token_without_user_id test_platform svc SHA256
           issued_header anonymous_claims
           [("alg", GoString "HS256"); ("typ", GoString "JWT")]
           [("exp", GoFloat64 1700086400); ("iat", GoFloat64 1700000000)]
           initial_world).
  - vm_compute. reflexivity.
  - vm_compute. reflexivity.
  - vm_compute. reflexivity.
  - vm_compute. reflexivity.
  - intros f H. vm_compute in H. discriminate H.
Defined.

(** X18 at work: a DELETE without a header does not reach the laptop. *)
Lemma inventory_route_without_valid_token_witness :
  Response.status
    (fst (@setupRouter test_platform svc
            (DELETE_inventory_items_id HeaderEmpty "1") world_laptop))
    = http_StatusUnauthorized /\
  items (snd (@setupRouter test_platform svc
                (DELETE_inventory_items_id HeaderEmpty "1") world_laptop))
    = items world_laptop.
Proof.
  destruct (@inventory_route_without_valid_token test_platform svc
              (DELETE_inventory_items_id HeaderEmpty "1") HeaderEmpty world_laptop)
    as (A & _ & _ & B & _).
  - reflexivity.
  - intros userID H. vm_compute in H. discriminate H.
  - split; [exact A|exact B].
Defined.

(** X19 at work: a token issued at 1700000000 s by a service configured
    with 24 hours expires at 1700086400 s. *)
Lemma issued_token_expires_after_the_configured_hours_witness :
  exists ts,
    fst (@generateToken test_platform svc 1 initial_world) = Ok ts /\
    @token_expiry test_platform ts
      = Some (time_Unix (@wall_clock test_platform (ticks initial_world) / time_Second
                         + 3600 * jwtExpiry svc)).
Proof.
  apply (@issued_token_expires_after_the_configured_hours test_platform svc 1
           initial_world).
  - vm_compute. discriminate.
  - vm_compute. discriminate.
  - vm_compute. reflexivity.
  - split; [vm_compute; discriminate|vm_compute; reflexivity].
Defined.


(** X21 at work: [johndoe] registers and logs in. *)
Lemma register_then_login_witness :
  exists user,
    fst (@Register test_platform svc johndoe initial_world) = Ok user /\
    User.ID user = 1 /\
    exists ts,
      fst (@Login test_platform svc
             (LoginRequest.mk "johndoe" "securepassword123")
             (snd (@Register test_platform svc johndoe initial_world)))
        = Ok (LoginResponse.mk ts (@user_row test_platform user)).
Proof.
  destruct (@register_then_login test_platform svc johndoe initial_world
              "bcrypt:securepassword123") as [user (A & B & _ & C & _)].
  - intros u [].
  - intros u [].
  - intros u [].
  - reflexivity.
  - reflexivity.
  - exists user. split; [exact A|]. split; [exact B|exact C].
Defined.

(** X22 at work: a second registration of [johndoe] leaves the users
    distinct. *)
Lemma users_stay_distinct_witness :
  users_distinct world_johndoe /\
  users_distinct (@serve test_platform svc [POST_auth_register johndoe] world_johndoe).
Proof.
  assert (users_distinct world_johndoe) as Hok.
  { split; vm_compute; (constructor; [intros []|constructor]). }
  split; [exact Hok|].
  exact (proj1 (proj2 (@users_stay_distinct test_platform svc world_johndoe Hok)) _).
Defined.

(** X23 at work: a negative identifier does not parse. *)
Lemma item_id_parameter_witness :
  @InventoryHandler_DeleteItem test_platform "-1" world_laptop
    = (response_Error http_StatusBadRequest "Invalid item ID", world_laptop).
Proof.
  assert ("-1" = "" \/ all_digits "-1" = false) as H by (right; reflexivity).
  exact (proj2 (proj2 (proj2 (@item_id_parameter test_platform "-1") H
                         (UpdateItemRequest.mk None None None None None None)
                         world_laptop))).
Defined.

(** X24 at work: item 2 is missing next to the laptop. *)
Lemma missing_item_status_witness :
  fst (InventoryHandler_GetItemByID "2" world_laptop)
    = response_Error http_StatusNotFound "item not found" /\
  fst (@InventoryHandler_UpdateItem test_platform "2"
         (UpdateItemRequest.mk None None None (Some 30) None None) world_laptop)
    = response_Error http_StatusBadRequest "item not found".
Proof.
  destruct (@missing_item_status test_platform "2" 2
              (UpdateItemRequest.mk None None None (Some 30) None None) world_laptop)
    as (A & _ & B).
  - reflexivity.
  - intros item [<-|[]] _. discriminate.
  - split; [exact A|]. apply B. vm_compute. reflexivity.
Defined.

(** X25 at work: a negative quantity is reported under [non_negative]. *)
Lemma binding_errors_have_specific_messages_witness :
  getErrorMessage (Build_FieldError "Quantity" "non_negative" "")
    <> "failed validation 'non_negative'".
Proof.
  apply (@binding_errors_have_specific_messages test_platform
           (CreateItemRequest.mk "Laptop" "LAPTOP-001" "" (-5) 1299.5%float "")
           (UpdateItemRequest.mk None None None None None None)
           (LoginRequest.mk "johndoe" "securepassword123")
           johndoe
           (Build_FieldError "Quantity" "non_negative" "")).
  left. vm_compute. left. reflexivity.
Defined.

(** X26 at work: a price of 19.5 passes both validations. *)
Lemma positive_is_non_negative_witness :
  validateNonNegative (FieldFloat 19.5%float) = true.
Proof.
  apply (positive_is_non_negative (FieldFloat 19.5%float)).
  vm_compute. reflexivity.
Defined.
